(** * preserve.py: inventory, compare, bytecount, verify and the file walker

    A shallow embedding of [src/preserve/preserve.py] (and of the copy of
    [list_files] in [src/preserve/utils.py]).

    Python values are modelled as follows.
    - [str] is [string], the UTF-8 bytes of the text.  The characters the
      program inspects (slash, dot, comma, tab, newline) are ASCII, and
      byte-wise lexicographic order on UTF-8 is code-point order, so the
      byte view agrees with Python's on every operation used here.
    - an exception is the name of its class; a computation that can raise
      returns an [outcome].
    - a [dict] is an association list in insertion order, without repeated
      keys; a [set] is a [gset].
    - what a run writes (standard output, the destination file) is the
      list of its events; what it reads comes from a [world] of oracles.
    - the [csv] module's tokenizer and formatter, [str.upper] and the local
      time formatting are library code: they are parameters. *)

From Stdlib Require Import Ascii String.
From stdpp Require Import base option list gmap strings sorting pretty.

#[local] Set Warnings "-register-all".

Local Open Scope string_scope.
Local Open Scope Z_scope.
Local Open Scope list_scope.

(** ** Exceptions and results *)

Definition exn := string.

Inductive outcome (A : Type) : Type :=
| Ok (a : A)
| Raise (e : exn).
Arguments Ok {A} a.
Arguments Raise {A} e.

#[global] Instance outcome_eq_dec {A} `{EqDecision A} : EqDecision (outcome A).
Proof. solve_decision. Defined.

Definition obind {A B} (o : outcome A) (f : A -> outcome B) : outcome B :=
  match o with
  | Ok a => f a
  | Raise e => Raise e
  end.

(** The exit status of the interpreter: an uncaught exception prints a
    traceback and exits with status 1. *)
Definition exit_code {A} (o : outcome A) : Z :=
  match o with
  | Ok _ => 0
  | Raise _ => 1
  end.

(** ** Python strings *)

Definition LF : ascii := "010"%char.
Definition CR : ascii := "013"%char.
Definition TAB : ascii := "009"%char.

Module Str.

(** [s.startswith(p)] *)
Definition startswith (p s : string) : bool := String.prefix p s.

(** [sub in s] *)
Fixpoint contains (sub s : string) : bool :=
  String.prefix sub s ||
  match s with
  | EmptyString => false
  | String _ s' => contains sub s'
  end.

(** [c in s] for a single character *)
Fixpoint has_char (c : ascii) (s : string) : bool :=
  match s with
  | EmptyString => false
  | String a s' => if decide (a = c) then true else has_char c s'
  end.

(** [s.endswith(c)] for a single character *)
Fixpoint ends_with_char (c : ascii) (s : string) : bool :=
  match s with
  | EmptyString => false
  | String a EmptyString => bool_decide (a = c)
  | String _ s' => ends_with_char c s'
  end.

(** [s.lstrip(c)] for a one-character argument *)
Fixpoint lstrip (c : ascii) (s : string) : string :=
  match s with
  | String a s' => if decide (a = c) then lstrip c s' else s
  | EmptyString => EmptyString
  end.

(** [s.rstrip(c)] for a one-character argument *)
Fixpoint rstrip (c : ascii) (s : string) : string :=
  match s with
  | EmptyString => EmptyString
  | String a s' =>
      match rstrip c s' with
      | EmptyString => if decide (a = c) then EmptyString else String a EmptyString
      | r => String a r
      end
  end.

(** [s.strip(c)] *)
Definition strip (c : ascii) (s : string) : string := rstrip c (lstrip c s).

(** [s.split(c)]: the fields between the occurrences of [c]; never empty. *)
Fixpoint split (c : ascii) (s : string) : list string :=
  match s with
  | EmptyString => [EmptyString]
  | String a s' =>
      if decide (a = c) then EmptyString :: split c s'
      else match split c s' with
           | [] => [String a EmptyString]
           | f :: fs => String a f :: fs
           end
  end.

(** [sep.join(l)] *)
Definition join (sep : string) (l : list string) : string := String.concat sep l.

(** [(s[:i], s[i:])] where [i = s.rfind(c) + 1]: the text up to and
    including the last [c], and the text after it. *)
Fixpoint rsplit_after (c : ascii) (s : string) : string * string :=
  match s with
  | EmptyString => (EmptyString, EmptyString)
  | String a s' =>
      let '(h, t) := rsplit_after c s' in
      if has_char c s' then (String a h, t)
      else if decide (a = c) then (String a EmptyString, s')
      else (EmptyString, s)
  end.

(** [c * n] *)
Fixpoint repeat (c : ascii) (n : nat) : string :=
  match n with
  | O => EmptyString
  | S k => String c (repeat c k)
  end.

(** [s[:n]] and [s[n:]] *)
Fixpoint take (n : nat) (s : string) : string :=
  match n, s with
  | S k, String a s' => String a (take k s')
  | _, _ => EmptyString
  end.

Fixpoint drop (n : nat) (s : string) : string :=
  match n, s with
  | S k, String _ s' => drop k s'
  | _, _ => s
  end.

(** [str(n)] for an [int] *)
Definition of_int (z : Z) : string := pretty z.

(** [len(s)] *)
Definition len (s : string) : Z := Z.of_nat (String.length s).

End Str.

(** ** Dictionaries: insertion-ordered, one entry per key *)

Definition dict (V : Type) : Type := list (string * V).

(** [d[k] = v]: an existing key keeps its position. *)
Fixpoint dict_set {V} (k : string) (v : V) (d : dict V) : dict V :=
  match d with
  | [] => [(k, v)]
  | (k', v') :: d' =>
      if decide (k' = k) then (k, v) :: d' else (k', v') :: dict_set k v d'
  end.

(** [d.get(k)] *)
Fixpoint dict_get {V} (k : string) (d : dict V) : option V :=
  match d with
  | [] => None
  | (k', v) :: d' => if decide (k' = k) then Some v else dict_get k d'
  end.

(** [d[k]], which raises [KeyError] for a missing key. *)
Definition dict_item {V} (k : string) (d : dict V) : outcome V :=
  match dict_get k d with
  | Some v => Ok v
  | None => Raise "KeyError"
  end.

(** [list(d)]: the keys, in insertion order. *)
Definition dict_keys {V} (d : dict V) : list string := d.*1.

(** [dict(pairs)] *)
Definition dict_of {V} (pairs : list (string * V)) : dict V :=
  foldl (fun d kv => dict_set kv.1 kv.2 d) [] pairs.

(** ** posixpath *)

Module posixpath.

Definition sep : ascii := "/"%char.

Definition isabs (s : string) : bool := Str.startswith "/" s.

(** [os.path.join(a, b)] *)
Definition join (a b : string) : string :=
  if Str.startswith "/" b then b
  else if bool_decide (a = EmptyString) || Str.ends_with_char sep a then a +:+ b
  else a +:+ "/" +:+ b.

(** [os.path.basename(p)] *)
Definition basename (p : string) : string := (Str.rsplit_after sep p).2.

(** [os.path.dirname(p)] *)
Definition dirname (p : string) : string :=
  let head := (Str.rsplit_after sep p).1 in
  if bool_decide (head <> EmptyString)
     && bool_decide (head <> Str.repeat sep (String.length head))
  then Str.rstrip sep head
  else head.

(** The number of leading slashes [normpath] keeps: POSIX allows one or
    two, three or more count as one. *)
Definition initial_slashes (path : string) : nat :=
  if Str.startswith "/" path then
    if Str.startswith "//" path && negb (Str.startswith "///" path) then 2%nat
    else 1%nat
  else 0%nat.

(** One turn of the loop of [normpath] over the components. *)
Definition norm_step (init : nat) (new_comps : list string) (comp : string)
  : list string :=
  if bool_decide (comp = EmptyString) || bool_decide (comp = ".") then new_comps
  else if bool_decide (comp <> "..")
          || (bool_decide (init = 0%nat) && bool_decide (new_comps = []))
          || (bool_decide (new_comps <> []) && bool_decide (last new_comps = Some ".."))
  then new_comps ++ [comp]
  else removelast new_comps.

(** [os.path.normpath(path)] *)
Definition normpath (path : string) : string :=
  if bool_decide (path = EmptyString) then "."
  else
    let init := initial_slashes path in
    let comps := foldl (norm_step init) [] (Str.split sep path) in
    let path := Str.repeat sep init +:+ Str.join "/" comps in
    if bool_decide (path = EmptyString) then "." else path.

(** [os.path.abspath(path)], with the current directory [cwd]. *)
Definition abspath (cwd path : string) : string :=
  normpath (if isabs path then path else join cwd path).

(** [os.path.splitext(p)]: the extension starts at the last dot of the last
    component, unless only dots precede it there. *)
Definition splitext (p : string) : string * string :=
  let '(head, tail) := Str.rsplit_after sep p in
  let '(stem_dot, ext) := Str.rsplit_after "." tail in
  match stem_dot with
  | EmptyString => (p, EmptyString)
  | _ =>
      let stem := Str.take (String.length stem_dot - 1) stem_dot in
      if bool_decide (Str.lstrip "." stem = EmptyString) then (p, EmptyString)
      else (head +:+ stem, "." +:+ ext)
  end.

End posixpath.

(** ** Library code taken as parameters *)

(** [csv_reader d lines] is [list(csv.reader(lines, delimiter=d))]: the
    fields of each record, a blank line giving an empty record.
    [csv_writerow fields] is the text [csv.writer.writerow] writes for
    fields that are already strings, line terminator included.
    [strftime_local t] is
    [dt.fromtimestamp(t).strftime('%Y-%m-%dT%H:%M:%S')], which raises when
    [t] is outside the range the platform or [datetime] can represent.
    [set_iter s] is the order in which a Python [set] of strings is
    iterated, about which nothing is known but that it enumerates the set. *)
Class PyLib := {
  csv_reader : ascii -> list string -> list (list string);
  csv_writerow : list string -> string;
  str_upper : string -> string;
  strftime_local : Z -> outcome string;
  md5_hexdigest : list Byte.byte -> string;
  set_iter : gset string -> list string;
  set_iter_perm : forall s, set_iter s ≡ₚ elements s
}.

(** ** Text files *)

(** Reading in text mode with the default [newline=None]: every line ending
    ("\r\n", "\r", "\n") comes back as "\n". *)
Fixpoint universal_newlines (s : string) : string :=
  match s with
  | EmptyString => EmptyString
  | String a s' =>
      if decide (a = CR) then
        String LF
          match s' with
          | String b s'' =>
              if decide (b = LF) then universal_newlines s'' else universal_newlines s'
          | EmptyString => EmptyString
          end
      else String a (universal_newlines s')
  end.

(** The lines of a text, each with its terminator, as iterating a file or
    [readlines()] yields them. *)
Fixpoint splitlines_keepends (s : string) : list string :=
  match s with
  | EmptyString => []
  | String a s' =>
      if decide (a = LF) then String LF EmptyString :: splitlines_keepends s'
      else match splitlines_keepends s' with
           | [] => [String a EmptyString]
           | l :: ls => String a l :: ls
           end
  end.

Definition readlines (text : string) : list string :=
  splitlines_keepends (universal_newlines text).

(** ** The csv module: DictReader and DictWriter *)

(** A row as [csv.DictReader] yields it: a value is a string, or [None]
    for a column the record is too short for; [crest] holds the surplus
    fields of a record longer than the header (stored under the key [None]). *)
Record csvrow := CsvRow {
  ccols : dict (option string);
  crest : option (list string)
}.

(** A value in a row handed to [csv.DictWriter]. *)
Inductive pyval :=
| VNone
| VStr (s : string)
| VInt (z : Z).

Record rowdict := RowDict {
  cols : dict pyval;
  rest : option (list string)
}.

Definition pyval_of (v : option string) : pyval :=
  match v with
  | Some s => VStr s
  | None => VNone
  end.

Definition rowdict_of (r : csvrow) : rowdict :=
  RowDict (prod_map id pyval_of <$> ccols r) (crest r).

Module csv.

(** The body of [DictReader.__next__] after the record is read. *)
Definition make_row (fieldnames row : list string) : csvrow :=
  let d := dict_of (zip fieldnames (Some <$> row)) in
  let lf := length fieldnames in
  let lr := length row in
  if bool_decide (lf < lr)%nat then CsvRow d (Some (drop lf row))
  else CsvRow (foldl (fun d key => dict_set key None d) d (drop lr fieldnames)) None.

(** [list(csv.DictReader(...))] over the records [csv.reader] yields: the
    first record is the header, empty records after it are skipped. *)
Definition DictReader (records : list (list string)) : list csvrow :=
  match records with
  | [] => []
  | fieldnames :: records' =>
      make_row fieldnames <$> filter (fun r => r <> []) records'
  end.

(** How [csv.writer] renders one field. *)
Definition field_text (v : pyval) : string :=
  match v with
  | VNone => EmptyString
  | VStr s => s
  | VInt z => Str.of_int z
  end.

(** [DictWriter._dict_to_list] with the default [extrasaction='raise'] and
    [restval=''] . *)
Definition dict_to_list (fieldnames : list string) (r : rowdict)
  : outcome (list pyval) :=
  if bool_decide (rest r = None)
     && forallb (fun k => bool_decide (k ∈ fieldnames)) (dict_keys (cols r))
  then Ok ((fun k => default (VStr EmptyString) (dict_get k (cols r))) <$> fieldnames)
  else Raise "ValueError".

End csv.

(** ** The operating system *)

(** A directory entry as [os.walk] classifies it: a directory it descends
    into; a directory it lists but does not enter ([DirLink]: a symbolic
    link to a directory, which is not followed, or a directory that cannot
    be listed, which is skipped silently); or anything else, listed with the
    files. *)
Inductive node :=
| File
| Dir (entries : list (string * node))
| DirLink.

(** What the program can ask of the system.  Each oracle answers for a
    path; an answer can be an exception ([FileNotFoundError],
    [PermissionError], ...).  [scandir top] is the tree [os.walk(top)]
    finds, [None] when [top] cannot be listed. *)
Record world := World {
  getcwd : string;
  scandir : string -> option (list (string * node));
  open_r : string -> outcome string;
  open_w : string -> outcome ();
  open_rb : string -> outcome (list Byte.byte);
  getmtime : string -> outcome Z;
  getsize : string -> outcome Z
}.

(** ** Effects

    A computation returns the events it caused, in order, and its result.
    The program never reads back what it wrote during a run (files are read
    through the [world]), so the events need not be threaded as a state.
    [ERow fh r] is a record [r] handed to the [csv] writer on [fh];
    [EMd5 f] marks a call of [md5sum]. *)

Inductive handle :=
| Stdout
| Outfile.

Inductive event :=
| EPrint (x : string)
| EOpen
| ERow (fh : handle) (record : list string)
| EMd5 (filepath : string).

Definition M (A : Type) : Type := list event * outcome A.

#[global] Instance M_ret : MRet M := fun A a => ([], Ok a).

#[global] Instance M_bind : MBind M := fun A B f m =>
  match m with
  | (t, Ok a) => let '(t', r) := f a in (t ++ t', r)
  | (t, Raise e) => (t, Raise e)
  end.

Definition lift {A} (o : outcome A) : M A := ([], o).

Definition emit (e : event) : M () := ([e], Ok ()).

(** [try: m  except cls: handler] *)
Definition try_except {A} (m : M A) (cls : exn) (handler : M A) : M A :=
  match m with
  | (t, Raise e) =>
      if decide (e = cls) then let '(t', r) := handler in (t ++ t', r)
      else (t, Raise e)
  | r => r
  end.

(** [print(x, end=e)] and [print(x)] *)
Definition print_end (x e : string) : M () := emit (EPrint (x +:+ e)).

Definition print (x : string) : M () := print_end x (String LF EmptyString).

(** [for x in l: body(x)] *)
Fixpoint for_each {A} (l : list A) (body : A -> M ()) : M () :=
  match l with
  | [] => mret ()
  | x :: l' => _ ← body x; for_each l' body
  end.

(** A loop that updates a local variable. *)
Fixpoint for_fold {A S} (l : list A) (body : S -> A -> M S) (acc : S) : M S :=
  match l with
  | [] => mret acc
  | x :: l' => acc' ← body acc x; for_fold l' body acc'
  end.

(** *** What the events leave on the streams *)

#[global] Instance handle_eq_dec : EqDecision handle.
Proof. solve_decision. Defined.

(** The text an event puts on [fh], if any. *)
Definition chunk_to `{PyLib} (fh : handle) (e : event) : option string :=
  match e with
  | EPrint x => if decide (fh = Stdout) then Some x else None
  | ERow h r => if decide (h = fh) then Some (csv_writerow r) else None
  | EOpen | EMd5 _ => None
  end.

(** The chunks written to [fh], in order. *)
Definition chunks `{PyLib} (fh : handle) (t : list event) : list string :=
  omap (chunk_to fh) t.

(** The chunks written to standard output. *)
Definition stdout `{PyLib} (t : list event) : list string := chunks Stdout t.

Definition is_open (e : event) : bool :=
  match e with
  | EOpen => true
  | _ => false
  end.

(** The chunks written to the destination file; [None] if it was never
    opened. *)
Definition outfile `{PyLib} (t : list event) : option (list string) :=
  if existsb is_open t then Some (chunks Outfile t) else None.

(** The content of the destination file after the run. *)
Definition file_text `{PyLib} (t : list event) : string :=
  String.concat EmptyString (chunks Outfile t).

(** The paths [md5sum] was called on. *)
Definition md5_calls (t : list event) : list string :=
  omap (fun e => match e with EMd5 f => Some f | _ => None end) t.

(** The records handed to the [csv] writer. *)
Definition csv_records (t : list event) : list (list string) :=
  omap (fun e => match e with ERow _ r => Some r | _ => None end) t.

(** ** os.walk *)

Definition is_dir (n : node) : bool :=
  match n with
  | File => false
  | _ => true
  end.

(** The names [os.walk] reports as [dirs] and as [files] for a directory. *)
Definition dirnames (entries : list (string * node)) : list string :=
  (filter (fun e => is_dir e.2) entries).*1.

Definition filenames (entries : list (string * node)) : list string :=
  (filter (fun e => negb (is_dir e.2)) entries).*1.

(** [os.walk(top)], top-down, over the tree [n] found at [top].  The caller
    prunes [dirs] in place before the walk goes on: [keep] is what it keeps.
    Each step yields [(root, dirs, files)] before the directories kept are
    walked, in order. *)
Fixpoint walk (keep : string -> bool) (top : string) (n : node)
  : list (string * list string * list string) :=
  match n with
  | Dir entries =>
      (top, dirnames entries, filenames entries)
      :: (entries ≫= fun e =>
            if keep e.1 then walk keep (posixpath.join top e.1) e.2 else [])
  | File | DirLink => []
  end.

(** A directory that cannot be listed is skipped silently ([onerror] is
    not given). *)
Definition os_walk (w : world) (keep : string -> bool) (top : string)
  : list (string * list string * list string) :=
  match scandir w top with
  | Some entries => walk keep top (Dir entries)
  | None => []
  end.

(** ** HELPER FUNCTIONS *)

Definition print_header (subcommand : string) : M () :=
  let title := "preserve.py " +:+ subcommand in
  let bar := Str.repeat "=" (String.length title) in
  _ ← print EmptyString;
  _ ← print title;
  print bar.

Definition chunk_size : nat := Z.to_nat 8192.

(** The loop of [md5sum]: read 8192 bytes, stop at an empty read, else feed
    the digest.  [m] is what the [hashlib] object has been fed so far. *)
Fixpoint md5_read_loop (fuel : nat) (m data : list Byte.byte) : list Byte.byte :=
  match fuel with
  | O => m
  | S fuel' =>
      match take chunk_size data with
      | [] => m
      | chunk => md5_read_loop fuel' (m ++ chunk) (drop chunk_size data)
      end
  end.

Definition md5sum `{PyLib} (w : world) (filepath : string) : M string :=
  _ ← emit (EMd5 filepath);
  data ← lift (open_rb w filepath);
  mret (md5_hexdigest (md5_read_loop (S (length data)) [] data)).

Definition hidden (name : string) : bool := Str.startswith "." name.

(** [list_files(path)]: the same text in preserve.py and in utils.py. *)
Definition list_files (w : world) (path : string) : list string :=
  foldl
    (fun result item =>
       let '(root, dirs, files) := item in
       result ++ (posixpath.join root <$> filter (fun f => negb (hidden f)) files))
    []
    (os_walk w (fun d => negb (hidden d)) path).

(** [os.path.join(row['Directory'], row['Filename'])]: a missing column is
    a [KeyError], a [None] value a [TypeError]. *)
Definition row_filepath (row : csvrow) : outcome string :=
  obind (dict_item "Directory" (ccols row)) (fun d =>
  obind (dict_item "Filename" (ccols row)) (fun f =>
  match d, f with
  | Some d, Some f => Ok (posixpath.join d f)
  | _, _ => Raise "TypeError"
  end)).

(** The loop of [read_inventory] over the rows. *)
Fixpoint read_rows (rows : list csvrow) (result : dict csvrow)
  : outcome (dict csvrow) :=
  match rows with
  | [] => Ok result
  | row :: rows' =>
      obind (row_filepath row)
            (fun filepath => read_rows rows' (dict_set filepath row result))
  end.

(** The rows [csv.DictReader(f)] yields for a file with this text. *)
Definition inventory_rows `{PyLib} (text : string) : list csvrow :=
  csv.DictReader (csv_reader "," (readlines text)).

Definition read_inventory `{PyLib} (w : world) (path : string)
  : M (dict csvrow) :=
  text ← lift (open_r w path);
  lift (read_rows (inventory_rows text) []).

(** ** SUBCOMMAND compare *)

(** An extracted value: a string, or [None] when a record is too short to
    have the identifying column. *)
Definition entry : Type := option string.

Definition backslash : ascii := "092"%char.

(** The pattern [([^\\]+) \[Sent\]]: [sent_search line] is
    [p.search(line).group(1)], [None] when nothing matches.  The search
    tries each start from the left; at a start the group takes the longest
    run free of backslashes and gives characters back until " [Sent]"
    follows. *)
Fixpoint run_length (s : string) : nat :=
  match s with
  | EmptyString => O
  | String a s' => if decide (a = backslash) then O else S (run_length s')
  end.

Fixpoint sent_match_at (s : string) (k : nat) : option string :=
  match k with
  | O => None
  | S k' =>
      if Str.startswith " [Sent]" (Str.drop k s) then Some (Str.take k s)
      else sent_match_at s k'
  end.

Fixpoint sent_search (s : string) : option string :=
  match sent_match_at s (run_length s) with
  | Some g => Some g
  | None =>
      match s with
      | EmptyString => None
      | String _ s' => sent_search s'
      end
  end.

(** The Tivoli branch: the lines with the marker whose path matches. *)
Definition parse_tivoli (rawlines : list string) : list entry :=
  rawlines ≫= fun line =>
    if Str.contains "Normal File-->" line then
      match sent_search line with
      | Some g => [Some g]
      | None => []
      end
    else [].

(** [[l[filenamecol] for l in reader]], which stops at the first
    [KeyError]. *)
Fixpoint column (filenamecol : string) (reader : list csvrow)
  : outcome (list entry) :=
  match reader with
  | [] => Ok []
  | l :: reader' =>
      obind (dict_item filenamecol (ccols l))
            (fun v => obind (column filenamecol reader') (fun vs => Ok (v :: vs)))
  end.

(** The inventory branch, after its messages are printed. *)
Definition parse_dpi `{PyLib} (first : string) (rawlines : list string)
  : outcome (list entry) :=
  let delimiter := if Str.has_char TAB first then TAB else ","%char in
  let reader := csv.DictReader (csv_reader delimiter rawlines) in
  let filenamecol := if Str.contains "Key" first then "Key" else "Filename" in
  column filenamecol reader.

(** The body of the [with] block up to the classification of the file. *)
Definition extract `{PyLib} (rawlines : list string) : M (list entry) :=
  match rawlines with
  | [] => lift (Raise "IndexError")
  | first :: _ =>
      if bool_decide (first = "IBM Tivoli Storage Manager") then
        _ ← print "Parsing Tivoli output file...";
        mret (parse_tivoli rawlines)
      else if Str.contains "Key" first || Str.contains "Filename" first then
        _ ← print_end "Parsing DPI inventory file => " EmptyString;
        _ ← (if Str.has_char TAB first then print "tab delimited..."
             else print "comma delimited...");
        lift (parse_dpi first rawlines)
      else
        _ ← print "Unrecognized file type ...";
        mret []
  end.

(** One turn of the loop over [all_files]. *)
Definition parse_file `{PyLib} (w : world) (filelists : dict (list entry))
    (filepath : string) : M (dict (list entry)) :=
  text ← lift (open_r w filepath);
  let rawlines := Str.strip LF <$> readlines text in
  result ← extract rawlines;
  match result with
  | _ :: _ =>
      _ ← print (" > " +:+ filepath +:+ " : "
                 +:+ Str.of_int (Z.of_nat (length result)) +:+ " files");
      mret (dict_set filepath result filelists)
  | [] =>
      _ ← print (" > File " +:+ filepath +:+ " has not been parsed.");
      mret filelists
  end.

(** [set.intersection] applied to the unpacked [all_lists]: the unbound
    method needs at least its first argument. *)
Definition set_intersection (all_lists : list (gset entry))
  : outcome (gset entry) :=
  match all_lists with
  | [] => Raise "TypeError"
  | s :: others => Ok (foldl (fun acc t => acc ∩ t) s others)
  end.

(** [sorted(unique)]: strings are ordered by code point; [None] cannot be
    compared with anything, so a set holding it and another value raises. *)
Fixpoint strings_of (l : list entry) : outcome (list string) :=
  match l with
  | [] => Ok []
  | Some x :: l' => obind (strings_of l') (fun xs => Ok (x :: xs))
  | None :: _ => Raise "TypeError"
  end.

Definition sorted (s : gset entry) : outcome (list entry) :=
  match elements s with
  | [None] => Ok [None]
  | l => obind (strings_of l) (fun xs => Ok (Some <$> merge_sort String.le xs))
  end.

(** [enumerate(l)] *)
Definition enumerate {A} (l : list A) : list (nat * A) :=
  zip (seq 0 (length l)) l.

(** [str(x)] inside [format] *)
Definition entry_text (x : entry) : string := default "None" x.

Definition bullet : string :=
  String "226" (String "128" (String "162" EmptyString)).

(** The three messages of the report. *)
Definition common_message (count : nat) : string :=
  Str.of_int (Z.of_nat count) +:+ " values are common to all the supplied files.".

Definition unique_message (n count : nat) (filelist : string) : string :=
  " " +:+ bullet +:+ " File " +:+ Str.of_int (Z.of_nat n + 1) +:+ ": "
  +:+ Str.of_int (Z.of_nat count) +:+ " values are unique to " +:+ filelist.

Definition entry_message (fnum : nat) (fname : entry) : string :=
  String TAB "(" +:+ Str.of_int (Z.of_nat fnum + 1) +:+ ") " +:+ entry_text fname.

(** The body of the second loop, for the input [filelist] at position [n]. *)
Definition report_unique (common : gset entry) (n : nat) (filelist : string)
    (values : list entry) : M () :=
  let unique : gset entry := list_to_set values ∖ common in
  _ ← print (unique_message n (size unique) filelist);
  sorted_files ← lift (sorted unique);
  for_each (enumerate sorted_files)
    (fun '(fnum, fname) => print (entry_message fnum fname)).

(** The part of [compare] after the files are read. *)
Definition report (filelists : dict (list entry)) : M () :=
  let all_lists : list (gset entry) := (fun kv => list_to_set kv.2) <$> filelists in
  common ← lift (set_intersection all_lists);
  _ ← print (common_message (size common));
  for_each (enumerate filelists)
    (fun '(n, (filelist, values)) => report_unique common n filelist values).

(** The first loop of [compare]. *)
Definition parse_all `{PyLib} (w : world) (all_files : list string)
  : M (dict (list entry)) :=
  for_fold all_files (parse_file w) [].

Definition compare `{PyLib} (w : world) (first : string) (other : list string)
  : M () :=
  _ ← print_header "file checker";
  let all_files := [first] ++ other in
  filelists ← parse_all w all_files;
  report filelists.

(** ** SUBCOMMAND bytecount *)

(** [os.path.splitext(f)[1].lstrip('.').upper()] *)
Definition extension_of `{PyLib} (f : string) : string :=
  str_upper (Str.lstrip "." (posixpath.splitext f).2).

(** [if ext in extensions: extensions[ext] += 1], [else: extensions[ext] = 1] *)
Definition count_extension (extensions : dict Z) (ext : string) : dict Z :=
  match dict_get ext extensions with
  | Some num => dict_set ext (num + 1) extensions
  | None => dict_set ext 1 extensions
  end.

(** One turn of the loop over [all_files]; the state is
    [(totalbytes, extensions)]. *)
Definition count_file `{PyLib} (w : world) (acc : Z * dict Z) (f : string)
  : M (Z * dict Z) :=
  size ← lift (getsize w f);
  mret (acc.1 + size, count_extension acc.2 (extension_of f)).

Definition exts_summary (extensions : dict Z) : list string :=
  (fun '(type, num) => type +:+ ":" +:+ Str.of_int num) <$> extensions.

Definition bytecount `{PyLib} (w : world) (args_path : string) : M () :=
  _ ← print_header "bytecount";
  let all_files := list_files w args_path in
  '(totalbytes, extensions) ← for_fold all_files (count_file w) (0, []);
  _ ← print (Str.of_int totalbytes +:+ " bytes for "
             +:+ Str.of_int (Z.of_nat (length all_files)) +:+ " files.");
  _ ← print ("(" +:+ Str.join ", " (exts_summary extensions) +:+ ")");
  print EmptyString.

(** ** SUBCOMMAND inventory *)

Definition FIELDNAMES : list string :=
  ["Directory"; "Filename"; "Extension"; "Bytes"; "MTime"; "Moddate"; "MD5"].

(** The record [writer.writerow(r)] hands to the [csv] writer, for
    [writer = csv.DictWriter(fh, fieldnames=FIELDNAMES)]. *)
Definition record_of (r : rowdict) : outcome (list string) :=
  obind (csv.dict_to_list FIELDNAMES r) (fun vs => Ok (csv.field_text <$> vs)).

Definition writerow (fh : handle) (r : rowdict) : M () :=
  record ← lift (record_of r);
  emit (ERow fh record).

(** [writer.writeheader()] *)
Definition writeheader (fh : handle) : M () := emit (ERow fh FIELDNAMES).

(** [open(path, 'w+')]: the file is created or truncated. *)
Definition open_w_plus (w : world) (path : string) : M handle :=
  _ ← lift (open_w w path);
  _ ← emit EOpen;
  mret Outfile.

(** The [metadata] dictionary of a file.  [getmtime w f] stands for
    [int(os.path.getmtime(f))]; it is asked first.  The values of the
    dictionary are evaluated in the order in which they are written: the
    date is formatted before the size is asked and the checksum computed. *)
Definition metadata `{PyLib} (w : world) (f : string) : M rowdict :=
  tstamp ← lift (getmtime w f);
  moddate ← lift (strftime_local tstamp);
  size ← lift (getsize w f);
  md5 ← md5sum w f;
  mret (RowDict
          [("Directory", VStr (posixpath.dirname (posixpath.abspath (getcwd w) f)));
           ("Filename", VStr (posixpath.basename f));
           ("MTime", VInt tstamp);
           ("Moddate", VStr moddate);
           ("Extension", VStr (str_upper (Str.lstrip "." (posixpath.splitext f).2)));
           ("Bytes", VInt size);
           ("MD5", VStr md5)]
          None).

(** The first loop: write out already completed items. *)
Definition copy_item (fh : handle) (count : Z) (item : string * csvrow) : M Z :=
  _ ← writerow fh (rowdict_of item.2);
  mret (count + 1).

(** The text of the running counter. *)
Definition progress (count total : Z) : string :=
  "Files checked: " +:+ Str.of_int count +:+ "/" +:+ Str.of_int total
  +:+ String CR EmptyString.

(** The second loop: check each remaining file and generate metadata. *)
Definition check_file `{PyLib} (w : world) (fh : handle) (total : Z) (count : Z)
    (f : string) : M Z :=
  md ← metadata w f;
  _ ← writerow fh md;
  let count := count + 1 in
  _ ← emit (EPrint (progress count total));
  mret count.

(** The [try] block that resumes from an existing output file. *)
Definition resume `{PyLib} (w : world) (OUTFILE : string) (all_files : list string)
  : M (dict csvrow * list string) :=
  try_except
    (complete_list ← read_inventory w OUTFILE;
     let already_done := dict_keys complete_list in
     let files_to_check : gset string :=
       list_to_set all_files ∖ list_to_set already_done in
     mret (complete_list, set_iter files_to_check))
    "FileNotFoundError"
    (mret ([], all_files)).

(** [if OUTFILE:] holds for a string that is not empty. *)
Definition truthy (x : option string) : option string :=
  match x with
  | Some s => if bool_decide (s = EmptyString) then None else Some s
  | None => None
  end.

Definition SEARCHROOT (w : world) (args_path : string) : string :=
  posixpath.abspath (getcwd w) args_path.

Definition OUTFILE (w : world) (args_outfile : option string) : option string :=
  posixpath.abspath (getcwd w) <$> args_outfile.

(** The first part of [inventory]: the scan, and where and from what the
    inventory is written. *)
Definition setup `{PyLib} (w : world) (args_path : string)
    (args_outfile : option string)
  : M (list string * dict csvrow * list string * handle) :=
  _ ← print_header "inventory";
  let all_files := list_files w (SEARCHROOT w args_path) in
  _ ← print ("Checking path: " +:+ SEARCHROOT w args_path);
  match truthy (OUTFILE w args_outfile) with
  | Some OUTFILE =>
      _ ← print ("Writing inventory to file " +:+ OUTFILE);
      '(complete_list, files_to_check) ← resume w OUTFILE all_files;
      fh ← open_w_plus w OUTFILE;
      mret (all_files, complete_list, files_to_check, fh)
  | None =>
      _ ← print "Writing inventory to stdout";
      mret (all_files, [], all_files, Stdout)
  end.

(** The second part: the header, the two loops and the closing messages. *)
Definition write_inventory `{PyLib} (w : world) (all_files : list string)
    (complete_list : dict csvrow) (files_to_check : list string) (fh : handle)
  : M () :=
  _ ← writeheader fh;
  let total := Z.of_nat (length all_files) in
  count ← for_fold complete_list (copy_item fh) 0;
  _ ← for_fold files_to_check (check_file w fh total) count;
  _ ← print EmptyString;
  _ ← print "Inventory complete!";
  print EmptyString.

Definition inventory `{PyLib} (w : world) (args_path : string)
    (args_outfile : option string) : M () :=
  '(all_files, complete_list, files_to_check, fh) ← setup w args_path args_outfile;
  write_inventory w all_files complete_list files_to_check fh.

(** ** SUBCOMMAND verify *)

(** What [os.path.isfile] and [os.path.isdir] answer for a path. *)
Record kinds := Kinds {
  isfile : string -> bool;
  isdir : string -> bool
}.

(** A value of [inventories]: what [read_inventory] or [list_files]
    returned. *)
Inductive listing :=
| Loaded (rows : dict csvrow)
| Listed (files : list string).

(** One turn of the loop over [all_paths]. *)
Definition resolve `{PyLib} (k : kinds) (w : world) (inventories : dict listing)
    (p : string) : M (dict listing) :=
  if isfile k p then
    _ ← print (p +:+ " is a file!");
    rows ← read_inventory w p;
    mret (dict_set p (Loaded rows) inventories)
  else if isdir k p then
    _ ← print (p +:+ " is a directory!");
    mret (dict_set p (Listed (list_files w p)) inventories)
  else
    _ ← print (p +:+ " could not be found!");
    mret inventories.

(** [repr] is [str] of the dictionary, which [print] applies: library
    code. *)
Definition verify `{PyLib} (repr : dict listing -> string) (k : kinds) (w : world)
    (first second : string) : M () :=
  inventories ← for_fold [first; second] (resolve k w) [];
  print (repr inventories).

(** ** A concrete library, for running the model

    The csv module restricted to fields without delimiter, quote or line
    break: a record is its fields joined by the delimiter, the writer ends
    it with "\r\n".  The digest, the date and [upper] are stand-ins (a
    digest that depends on the content, a date that depends on the time and
    is refused outside the years 1 to 9999). *)

Definition plain_reader (d : ascii) (lines : list string) : list (list string) :=
  (fun line =>
     let l := Str.rstrip CR (Str.rstrip LF line) in
     if bool_decide (l = EmptyString) then [] else Str.split d l) <$> lines.

Definition plain_writerow (fields : list string) : string :=
  Str.join "," fields +:+ String CR (String LF EmptyString).

Definition ascii_upper (c : ascii) : ascii :=
  let n := nat_of_ascii c in
  if bool_decide (97 <= n <= 122)%nat then ascii_of_nat (n - 32) else c.

Fixpoint plain_upper (s : string) : string :=
  match s with
  | EmptyString => EmptyString
  | String a s' => String (ascii_upper a) (plain_upper s')
  end.

Definition plain_lib : PyLib := {|
  csv_reader := plain_reader;
  csv_writerow := plain_writerow;
  str_upper := plain_upper;
  strftime_local := fun t =>
    if bool_decide (-62135596800 <= t <= 253402300799) then Ok ("T" +:+ Str.of_int t)
    else Raise "ValueError";
  md5_hexdigest := fun data => "md5-" +:+ Str.of_int (Z.of_nat (length data));
  set_iter := elements;
  set_iter_perm := fun s => Permutation_refl (elements s)
|}.

(** ** The csv module with quoting

    The writer and the reader of the [csv] module for the default dialect
    (the delimiter as given, the double quote as quote character, quotes
    doubled inside a field, minimal quoting, CR LF as line terminator, not
    strict). *)






(** The states of the reader. *)
Inductive reader_state :=
| StartRecord
| StartField
| InField
| InQuotedField
| QuoteInQuotedField
| EatCRNL.

#[global] Instance reader_state_eq_dec : EqDecision reader_state.
Proof. solve_decision. Defined.

(** The reader between two characters: its state, the field it is reading
    and the fields of the record read so far. *)
Record reader := Reader {
  rstate : reader_state;
  rfield : string;
  rfields : list string
}.












(** ** Vocabulary of the statements *)

(** [join_chain top [n1; ...; nk]] is [top/n1/.../nk] as [os.path.join]
    builds it, one name at a time. *)
Definition join_chain (top : string) (chain : list string) : string :=
  foldl posixpath.join top chain.

(** [tree_file entries chain]: following the names of [chain] from a
    directory with these entries leads through directories to an entry that
    is not a directory. *)
Inductive tree_file : list (string * node) -> list string -> Prop :=
| tree_file_here entries name n :
    (name, n) ∈ entries -> is_dir n = false -> tree_file entries [name]
| tree_file_below entries name sub chain :
    (name, Dir sub) ∈ entries -> tree_file sub chain ->
    tree_file entries (name :: chain).

(** A name that does not begin with a dot. *)
Definition visible (name : string) : Prop := hidden name = false.

#[global] Instance visible_dec name : Decision (visible name).
Proof. unfold visible. apply _. Defined.

(** The record written for a file that is examined afresh, or the
    exception that examining it raises. *)
Definition fresh_record `{PyLib} (w : world) (f : string) : outcome (list string) :=
  obind (metadata w f).2 record_of.

(** The record written for a row copied from the existing inventory. *)
Definition copied_record (row : csvrow) : outcome (list string) :=
  record_of (rowdict_of row).

(** The events of the second loop for files examined without error:
    [count] is the counter before the loop, [done] pairs each file with its
    record. *)
Fixpoint check_events (fh : handle) (total count : Z)
    (done : list (string * list string)) : list event :=
  match done with
  | [] => []
  | (f, record) :: done' =>
      EMd5 f :: ERow fh record :: EPrint (progress (count + 1) total)
      :: check_events fh total (count + 1) done'
  end.

(** The texts of the running counter from [count + 1] on, [n] of them. *)
Fixpoint progress_texts (total count : Z) (n : nat) : list string :=
  match n with
  | O => []
  | S n' => progress (count + 1) total :: progress_texts total (count + 1) n'
  end.

(** Rows and counter texts as they alternate on one stream. *)
Fixpoint interleaved `{PyLib} (total count : Z) (records : list (list string))
  : list string :=
  match records with
  | [] => []
  | record :: records' =>
      csv_writerow record :: progress (count + 1) total
      :: interleaved total (count + 1) records'
  end.

(** The messages around the inventory. *)
Definition banner (w : world) (args_path : string) (dest : string) : list string :=
  [String LF EmptyString;
   "preserve.py inventory" +:+ String LF EmptyString;
   "=====================" +:+ String LF EmptyString;
   "Checking path: " +:+ SEARCHROOT w args_path +:+ String LF EmptyString;
   dest +:+ String LF EmptyString].

Definition closing : list string :=
  [String LF EmptyString;
   "Inventory complete!" +:+ String LF EmptyString;
   String LF EmptyString].

(** A name a directory entry can have, as far as paths are concerned: not
    empty, no slash. *)
Definition proper_name (n : string) : bool :=
  negb (bool_decide (n = EmptyString)) && negb (Str.has_char "/" n).

(** A component that [normpath] keeps as it is. *)
Definition normal_comp (n : string) : Prop :=
  proper_name n = true /\ n <> "." /\ n <> "..".

(** The path with [k] leading slashes and the components [comps]. *)
Definition rooted (k : nat) (comps : list string) : string :=
  Str.repeat "/" k +:+ Str.join "/" comps.

(** A tree as a file system has it: names are proper and differ within a
    directory. *)
Fixpoint wf_node (n : node) : bool :=
  match n with
  | Dir entries =>
      bool_decide (NoDup entries.*1)
      && forallb (fun e => proper_name e.1 && wf_node e.2) entries
  | File | DirLink => true
  end.

Definition wf_root (w : world) (top : string) : bool :=
  match scandir w top with
  | Some entries => wf_node (Dir entries)
  | None => true
  end.

(** The chains of visible names that lead to the files of a tree, files of
    a directory first, as [os.walk] visits them. *)
Fixpoint visible_chains (n : node) : list (list string) :=
  match n with
  | Dir entries =>
      ((fun f => [f]) <$> filter visible (filenames entries))
      ++ (entries ≫= fun e =>
            if negb (hidden e.1) then (cons e.1) <$> visible_chains e.2 else [])
  | File | DirLink => []
  end.

(** The rows of a list whose joined path is [k]. *)
Definition rows_at (k : string) (rows : list csvrow) : list csvrow :=
  filter (fun row => row_filepath row = Ok k) rows.

(** The event of [print(x)]. *)
Definition line (x : string) : event := EPrint (x +:+ String LF EmptyString).

(** The events of [print_header('file checker')]. *)
Definition header_events : list event :=
  [line EmptyString; line "preserve.py file checker"; line "========================"].

(** The strings of a set of extracted values, in the order [sorted] gives. *)
Definition sorted_strings (s : gset entry) : list string :=
  merge_sort String.le (omap id (elements s)).

(** What the second loop prints for the input at position [n] whose unique
    values, sorted, are [u]. *)
Definition unique_events (n : nat) (filelist : string) (u : list string)
  : list event :=
  line (unique_message n (length u) filelist)
  :: ((fun '(fnum, fname) => line (entry_message fnum (Some fname))) <$> enumerate u).

(** The paths [list_files] collects from the steps of a walk. *)
Definition files_of (items : list (string * list string * list string))
  : list string :=
  items ≫= fun item => posixpath.join item.1.1 <$> filter visible item.2.

(** [total = len(all_files)] *)
Definition total_of (all_files : list string) : Z := Z.of_nat (length all_files).

(** The events of the first part of a run that writes to a file. *)
Definition file_banner (w : world) (args_path out : string) : list event :=
  (EPrint <$> banner w args_path
     ("Writing inventory to file " +:+ posixpath.abspath (getcwd w) out))
  ++ [EOpen].

(** The events of a run that ends normally. *)
Definition run_events (t0 : list event) (fh : handle) (total count : Z)
    (olds : list (list string)) (done : list (string * list string))
  : list event :=
  t0 ++ ERow fh FIELDNAMES :: (ERow fh <$> olds)
  ++ check_events fh total count done ++ (EPrint <$> closing).

(** What reading a record back yields, as the second run needs it. *)
Definition rereads (record : list string) (k : string) : Prop :=
  row_filepath (csv.make_row FIELDNAMES record) = Ok k
  /\ copied_record (csv.make_row FIELDNAMES record) = Ok record
  /\ record <> [].

(** The keys of [l] in the order of their first occurrence, those in [seen]
    left out. *)
Fixpoint first_occurrences (seen l : list string) : list string :=
  match l with
  | [] => []
  | k :: l' =>
      if decide (k ∈ seen) then first_occurrences seen l'
      else k :: first_occurrences (seen ++ [k]) l'
  end.

(** The extensions counted, from the extensions of the files in order. *)
Definition tally (exts : list string) : dict Z := foldl count_extension [] exts.

(** [sum] of a list of integers. *)
Definition sum_of (l : list Z) : Z := foldr Z.add 0 l.

(** The events of [print_header('bytecount')]. *)
Definition bytecount_header : list event :=
  [line EmptyString; line "preserve.py bytecount"; line "====================="].

(** The report of [bytecount]. *)
Definition bytecount_report (totalbytes : Z) (files : nat) (extensions : dict Z)
  : list event :=
  [line (Str.of_int totalbytes +:+ " bytes for " +:+ Str.of_int (Z.of_nat files)
         +:+ " files.");
   line ("(" +:+ Str.join ", " (exts_summary extensions) +:+ ")");
   line EmptyString].

Definition is_print (e : event) : bool :=
  match e with
  | EPrint _ => true
  | _ => false
  end.

(** What one turn of the first loop of [compare] extracts from [filepath],
    or the exception that ends the turn. *)
Definition extracted `{PyLib} (w : world) (filepath : string) : outcome (list entry) :=
  (text ← lift (open_r w filepath);
   extract (Str.strip LF <$> readlines text)).2.

(** An input that the loop stores: its extraction is not empty. *)
Definition is_parsed `{PyLib} (w : world) (filepath : string) : bool :=
  match extracted w filepath with
  | Ok (_ :: _) => true
  | _ => false
  end.

(** ** Concrete worlds *)

(** [unlines l]: the lines of [l], each ended by a newline. *)
Definition unlines (l : list string) : string :=
  String.concat EmptyString ((fun x => x +:+ String LF EmptyString) <$> l).

(** A small tree at /data: two visible files, one in a subdirectory, and
    hidden entries at both levels. *)
Definition demo_tree : list (string * node) :=
  [("a.txt", File);
   (".hidden", File);
   ("sub", Dir [("b.TXT", File); (".git", Dir [("config", File)])]);
   (".cache", Dir [("x", File)]);
   ("lnk", DirLink)].

(** A world with that tree, the text files [texts] (any other path is
    missing) and the files [gone] vanished since the scan. *)
Definition demo_world (texts : dict string) (gone : list string) : world := {|
  getcwd := "/home/u";
  scandir := fun p => if decide (p = "/data") then Some demo_tree else None;
  open_r := fun p =>
    match dict_get p texts with
    | Some text => Ok text
    | None => Raise "FileNotFoundError"
    end;
  open_w := fun _ => Ok ();
  open_rb := fun p =>
    if decide (p ∈ gone) then Raise "FileNotFoundError" else Ok [];
  getmtime := fun p =>
    if decide (p ∈ gone) then Raise "FileNotFoundError" else Ok 100;
  getsize := fun p =>
    if decide (p ∈ gone) then Raise "FileNotFoundError" else Ok 10
|}.

(** An inventory left by an earlier run; /data/gone.txt has been deleted
    since. *)
Definition stale_inventory : string :=
  unlines ["Directory,Filename,Extension,Bytes,MTime,Moddate,MD5";
           "/data,gone.txt,TXT,5,50,T50,md5-5";
           "/data,a.txt,TXT,10,100,T100,md5-0"].

Definition stale_world : world :=
  demo_world [("/home/u/out.csv", stale_inventory)] [].

(** An inventory in which one path is recorded twice. *)
Definition repeated_inventory : string :=
  unlines ["Directory,Filename,Extension,Bytes,MTime,Moddate,MD5";
           "/data,a.txt,TXT,1,1,T1,old";
           "/data,b.txt,TXT,2,2,T2,other";
           "/data,a.txt,TXT,3,3,T3,new"].

Definition repeated_world : world :=
  demo_world [("/home/u/inv.csv", repeated_inventory)] [].

(** Inputs of [compare]: two listings, a file of no known format, and an
    inventory that has only its header. *)
Definition compare_world : world :=
  demo_world
    [("f1.csv", unlines ["Filename,Size"; "x,1"; "y,2"; "z,3"]);
     ("f2.csv", unlines ["Key,Size"; "y,1"; "z,2"; "w,3"]);
     ("junk", unlines ["hello"]);
     ("header.csv", unlines ["Filename,Size"])]
    [].

(** The events of a first run over the tree, and the world a second run
    finds: the same tree, and the file the first run wrote. *)
Definition first_run : list event :=
  Eval vm_compute in
    (@inventory plain_lib (demo_world [] []) "/data" (Some "out.csv")).1.

Definition second_world : world :=
  demo_world [("/home/u/out.csv", @file_text plain_lib first_run)] [].

(** The same tree, /data/a.txt having vanished since the scan. *)
Definition gone_world : world := demo_world [] ["/data/a.txt"].

(** The records of the two visible files of the tree. *)
Definition demo_records : list (list string) :=
  [["/data"; "a.txt"; "TXT"; "10"; "100"; "T100"; "md5-0"];
   ["/data/sub"; "b.TXT"; "TXT"; "10"; "100"; "T100"; "md5-0"]].

(** What [read_inventory] loads from [stale_inventory]. *)
Definition stale_loaded : dict csvrow :=
  Eval vm_compute in
    match read_rows (@inventory_rows plain_lib stale_inventory) [] with
    | Ok d => d
    | Raise _ => []
    end.

(** A Tivoli report: one file sent, a directory, and a file not sent. *)
Definition tivoli_report : list string :=
  ["IBM Tivoli Storage Manager";
   "Normal File-->  1,024 \\srv\share\a.txt [Sent]";
   "Directory-->  0 \\srv\share [Sent]";
   "Normal File-->  9 \\srv\share\b.txt  ** Unsuccessful **"].

(** A listing whose header has "Key" only inside another name. *)
Definition keyword_world : world :=
  demo_world [("kw.csv", unlines ["Keywords,Filename"; "k1,a.txt"])] [].

(** What [read_inventory] loads from [repeated_inventory]. *)
Definition repeated_loaded : dict csvrow :=
  Eval vm_compute in
    match read_rows (@inventory_rows plain_lib repeated_inventory) [] with
    | Ok d => d
    | Raise _ => []
    end.

(** A destination that holds a listing which is not an inventory. *)
Definition foreign_world : world :=
  demo_world [("/home/u/out.csv", unlines ["Filename,Size"; "x,1"])] [].

(** An inventory whose second row has one field more than the header. *)
Definition surplus_inventory : string :=
  unlines ["Directory,Filename,Extension,Bytes,MTime,Moddate,MD5";
           "/data,a.txt,TXT,10,100,T100,md5-0";
           "/data/sub,b.TXT,TXT,10,100,T100,md5-0,checked"].

Definition surplus_world : world :=
  demo_world [("/home/u/out.csv", surplus_inventory)] [].

Definition fit_row : csvrow :=
  Eval vm_compute in
    csv.make_row FIELDNAMES ["/data"; "a.txt"; "TXT"; "10"; "100"; "T100"; "md5-0"].

Definition surplus_row : csvrow :=
  Eval vm_compute in
    csv.make_row FIELDNAMES
      ["/data/sub"; "b.TXT"; "TXT"; "10"; "100"; "T100"; "md5-0"; "checked"].

(** The tree of the example of [bytecount]: a.txt has 10 bytes, .hidden 5
    and sub/b.TXT 20. *)
Definition sized_world : world := {|
  getcwd := "/home/u";
  scandir := fun p =>
    if decide (p = "/data")
    then Some [("a.txt", File); (".hidden", File); ("sub", Dir [("b.TXT", File)])]
    else None;
  open_r := fun _ => Raise "FileNotFoundError";
  open_w := fun _ => Ok ();
  open_rb := fun _ => Ok [];
  getmtime := fun _ => Ok 100;
  getsize := fun p =>
    match dict_get p [("/data/a.txt", 10); ("/data/.hidden", 5); ("/data/sub/b.TXT", 20)] with
    | Some size => Ok size
    | None => Raise "FileNotFoundError"
    end
|}.

(** Nothing is a file and nothing is a directory. *)
Definition no_kinds : kinds := {| isfile := fun _ => false; isdir := fun _ => false |}.

(** /data is a directory and f1.csv a file. *)
Definition demo_kinds : kinds := {|
  isfile := fun p => bool_decide (p = "f1.csv");
  isdir := fun p => bool_decide (p = "/data")
|}.

(** The small tree, with /data/.cache also looked at as a root of its own. *)
Definition nested_world (texts : dict string) : world := {|
  getcwd := "/home/u";
  scandir := fun p =>
    if decide (p = "/data") then Some demo_tree
    else if decide (p = "/data/.cache") then Some [("x", File)]
    else None;
  open_r := fun p =>
    match dict_get p texts with
    | Some text => Ok text
    | None => Raise "FileNotFoundError"
    end;
  open_w := fun _ => Ok ();
  open_rb := fun _ => Ok [];
  getmtime := fun _ => Ok 100;
  getsize := fun _ => Ok 10
|}.

(** The events of a run over /data/.cache into out.csv, and the world a
    later run finds. *)
Definition cache_run : list event :=
  Eval vm_compute in
    (@inventory plain_lib (nested_world []) "/data/.cache" (Some "out.csv")).1.

Definition after_cache_world : world :=
  nested_world [("/home/u/out.csv", @file_text plain_lib cache_run)].






(** * Properties *)

(** ** Dictionaries *)

Section dict_facts.
Context {V : Type}.
Implicit Types (d : dict V) (k : string) (v : V).

Lemma dict_get_set k k' v d :
  dict_get k' (dict_set k v d) = if decide (k = k') then Some v else dict_get k' d.
Proof.
  induction d as [|[k0 v0] d IH]; simpl.
  - repeat case_decide; congruence.
  - destruct (decide (k0 = k)) as [->|Hne]; simpl.
    + repeat case_decide; congruence.
    + rewrite IH. repeat case_decide; congruence.
Qed.

Lemma dict_get_set_eq k v d : dict_get k (dict_set k v d) = Some v.
Proof. rewrite dict_get_set. by case_decide. Qed.

Lemma dict_get_set_ne k k' v d :
  k <> k' -> dict_get k' (dict_set k v d) = dict_get k' d.
Proof. intros. rewrite dict_get_set. by case_decide. Qed.

Lemma dict_keys_set k v d :
  dict_keys (dict_set k v d)
  = if decide (k ∈ dict_keys d) then dict_keys d else dict_keys d ++ [k].
Proof.
  unfold dict_keys. induction d as [|[k0 v0] d IH]; csimpl.
  - done.
  - destruct (decide (k0 = k)) as [->|Hne]; csimpl.
    + rewrite decide_True; [done | by left].
    + rewrite IH. destruct (decide (k ∈ d.*1)) as [Hin|Hin].
      * rewrite decide_True; [done | by right].
      * rewrite decide_False; [done |].
        intros [?|?]%elem_of_cons; congruence.
Qed.

Lemma dict_keys_set_NoDup k v d :
  NoDup (dict_keys d) -> NoDup (dict_keys (dict_set k v d)).
Proof.
  intros Hd. rewrite dict_keys_set. case_decide; [done |].
  apply NoDup_app. split_and!; [done | | apply NoDup_singleton].
  intros x Hx ->%list_elem_of_singleton. done.
Qed.

Lemma dict_get_Some_keys k d : is_Some (dict_get k d) <-> k ∈ dict_keys d.
Proof.
  unfold dict_keys. induction d as [|[k0 v0] d IH]; csimpl.
  - split; [by intros [? ?] | by intros ?%elem_of_nil].
  - case_decide; subst.
    + split; [intros _; by left | eauto].
    + rewrite IH. split; [by right |].
      intros [?|?]%elem_of_cons; [congruence | done].
Qed.

Lemma dict_get_elem_of k v d : dict_get k d = Some v -> (k, v) ∈ d.
Proof.
  induction d as [|[k0 v0] d IH]; simpl; [done |].
  case_decide; subst.
  - intros [= ->]. by left.
  - intros. right. auto.
Qed.

Lemma dict_get_NoDup k v d :
  NoDup (dict_keys d) -> (k, v) ∈ d -> dict_get k d = Some v.
Proof.
  unfold dict_keys. induction d as [|[k0 v0] d IH]; csimpl.
  - by intros _ ?%elem_of_nil.
  - intros [Hk0 Hd]%NoDup_cons [Heq|Hin]%elem_of_cons.
    + injection Heq as -> ->. by rewrite decide_True.
    + case_decide; subst; [| auto].
      exfalso. apply Hk0. apply list_elem_of_fmap. by exists (k, v).
Qed.

End dict_facts.

(** ** read_inventory *)

Section read_inventory_facts.
Context `{PyLib}.

Lemma read_rows_spec rows : forall acc d,
  read_rows rows acc = Ok d ->
  NoDup (dict_keys acc) ->
  NoDup (dict_keys d) /\
  forall k, dict_get k d
            = match last (rows_at k rows) with
              | Some row => Some row
              | None => dict_get k acc
              end.
Proof.
  induction rows as [|row rows IH]; simpl; intros acc d Hd Hacc.
  - injection Hd as <-. done.
  - destruct (row_filepath row) as [fp|e] eqn:Hfp; simpl in Hd; [| done].
    apply IH in Hd as [Hnd Hget]; [| by apply dict_keys_set_NoDup].
    split; [done |]. intros k. rewrite Hget. unfold rows_at.
    rewrite filter_cons. destruct (decide (row_filepath row = Ok k)) as [Hk|Hk].
    + assert (fp = k) as -> by congruence.
      rewrite last_cons. destruct (last _); [done |].
      by rewrite dict_get_set_eq.
    + destruct (last _); [done |].
      rewrite dict_get_set_ne; [done | congruence].
Qed.

(** C9. For an inventory that [read_inventory] reads without error, the
    result is keyed by [os.path.join(Directory, Filename)]: its keys are
    the joined paths of the rows, each key occurs once, and the value under
    a key is the last row of the file with that joined path (earlier rows
    with the same key are overwritten). *)
Theorem read_inventory_last_row_wins (w : world) (path text : string)
    (t : list event) (d : dict csvrow) :
  open_r w path = Ok text ->
  read_inventory w path = (t, Ok d) ->
  NoDup (dict_keys d)
  /\ (forall k, k ∈ dict_keys d
                <-> exists row, row ∈ inventory_rows text /\ row_filepath row = Ok k)
  /\ (forall k, dict_get k d = last (rows_at k (inventory_rows text))).
Proof.
  intros Htext Hread. unfold read_inventory in Hread.
  rewrite Htext in Hread. simpl in Hread.
  destruct (read_rows _ _) as [d'|e] eqn:Hrows; simpl in Hread; [| done].
  injection Hread as <- <-.
  apply read_rows_spec in Hrows as [Hnd Hget]; [| apply NoDup_nil_2].
  assert (Hlast : forall k, dict_get k d' = last (rows_at k (inventory_rows text))).
  { intros k. rewrite Hget. by destruct (last _). }
  split_and!; [done | | done].
  intros k. rewrite <- dict_get_Some_keys, Hlast. split.
  - intros [row Hrow]. exists row.
    apply last_Some_elem_of in Hrow. unfold rows_at in Hrow.
    by apply list_elem_of_filter in Hrow as [? ?].
  - intros (row & Hin & Hk).
    assert (Hin' : row ∈ rows_at k (inventory_rows text))
      by (apply list_elem_of_filter; done).
    destruct (rows_at k _) as [|r0 l] eqn:E using rev_ind; [by apply elem_of_nil in Hin' |].
    rewrite last_snoc. eauto.
Qed.

End read_inventory_facts.

(** ** Running computations *)

Lemma bind_Ok {A B} (m : M A) (f : A -> M B) t a :
  m = (t, Ok a) -> m ≫= f = (t ++ (f a).1, (f a).2).
Proof. intros ->. unfold mbind, M_bind. by destruct (f a). Qed.

Lemma bind_Raise {A B} (m : M A) (f : A -> M B) t e :
  m = (t, Raise e) -> m ≫= f = (t, Raise e).
Proof. by intros ->. Qed.

Lemma bind_Ok_inv {A B} (m : M A) (f : A -> M B) t b :
  m ≫= f = (t, Ok b) ->
  exists t1 a t2, m = (t1, Ok a) /\ f a = (t2, Ok b) /\ t = t1 ++ t2.
Proof.
  destruct m as [t1 [a|e]]; unfold mbind, M_bind; [| done].
  destruct (f a) as [t2 r] eqn:E. intros [= <- ->]. by exists t1, a, t2.
Qed.

Lemma for_each_events {A} (l : list A) (body : A -> M ()) (evs : A -> list event) :
  (forall x, x ∈ l -> body x = (evs x, Ok ())) ->
  for_each l body = (l ≫= evs, Ok ()).
Proof.
  induction l as [|x l IH]; intros Hbody; [done |]. simpl.
  rewrite (bind_Ok _ _ (evs x) ()); [| apply Hbody; by left].
  rewrite IH; [done |]. intros y Hy. apply Hbody. by right.
Qed.

Lemma for_fold_app {A S} (l1 l2 : list A) (body : S -> A -> M S) (acc : S) :
  for_fold (l1 ++ l2) body acc = acc' ← for_fold l1 body acc; for_fold l2 body acc'.
Proof.
  revert acc. induction l1 as [|x l1 IH]; intros acc; simpl.
  - unfold mbind, M_bind, mret, M_ret. by destruct (for_fold l2 body acc).
  - destruct (body acc x) as [t [acc'|e]]; unfold mbind, M_bind in *; [| done].
    rewrite IH. destruct (for_fold l1 body acc') as [t1 [a1|e1]]; [| done].
    destruct (for_fold l2 body a1) as [t2 r2]. by rewrite app_assoc.
Qed.

(** ** compare *)

Section compare_facts.
Context `{PyLib}.

Lemma print_header_file_checker :
  print_header "file checker" = (header_events, Ok ()).
Proof. reflexivity. Qed.

(** C2 (as the code has it). When the loop over the inputs ends with no
    file parsed, [set.intersection] is called without an argument and
    [compare] ends in an uncaught [TypeError]; nothing is reported after the
    messages of the loop. *)
Theorem compare_nothing_parsed_TypeError (w : world) (first : string)
    (other : list string) (t : list event) :
  parse_all w (first :: other) = (t, Ok []) ->
  compare w first other = (header_events ++ t, Raise "TypeError").
Proof.
  intros Hparse. unfold compare.
  rewrite (bind_Ok _ _ _ _ print_header_file_checker). simpl.
  change (first :: other) with ([first] ++ other) in Hparse.
  by rewrite (bind_Ok _ _ _ _ Hparse), app_nil_r.
Qed.

(** C10. A file from which nothing is extracted, whether its format was
    recognized or not, is reported as not parsed and [filelists] is left as
    it was; the dictionary the loop builds is the same with and without
    such an input, so it takes no part in the intersection. *)
Theorem empty_extraction_not_parsed (w : world) (filelists : dict (list entry))
    (filepath text : string) (t : list event) :
  open_r w filepath = Ok text ->
  extract (Str.strip LF <$> readlines text) = (t, Ok []) ->
  parse_file w filelists filepath
  = (t ++ [line (" > File " +:+ filepath +:+ " has not been parsed.")], Ok filelists)
  /\ forall before after,
       (parse_all w (before ++ filepath :: after)).2
       = (parse_all w (before ++ after)).2.
Proof.
  intros Htext Hextract.
  assert (Hstep : forall fl,
    parse_file w fl filepath
    = (t ++ [line (" > File " +:+ filepath +:+ " has not been parsed.")], Ok fl)).
  { intros fl. unfold parse_file. rewrite Htext. simpl.
    by rewrite (bind_Ok _ _ _ _ Hextract). }
  split; [apply Hstep |].
  intros before after. unfold parse_all. rewrite !for_fold_app.
  destruct (for_fold before (parse_file w) []) as [t1 [fl1|e1]]; [| done].
  rewrite !(bind_Ok _ _ t1 fl1 eq_refl). simpl.
  rewrite (bind_Ok _ _ _ _ (Hstep fl1)). done.
Qed.

(** *** The report *)

Lemma elem_of_foldl_intersection (s : gset entry) (others : list (gset entry)) x :
  x ∈ foldl (fun acc t => acc ∩ t) s others <-> x ∈ s /\ forall t, t ∈ others -> x ∈ t.
Proof.
  revert s. induction others as [|t others IH]; intros s; simpl.
  - split; [intros ?; split; [done | by intros ? ?%elem_of_nil] | by intros [? _]].
  - rewrite IH, elem_of_intersection. split.
    + intros [[? ?] Hall]. split; [done |].
      intros t' [->|?]%elem_of_cons; auto.
    + intros [? Hall]. split_and!; [done | apply Hall; by left |].
      intros t' ?. apply Hall. by right.
Qed.

Lemma set_intersection_spec (all_lists : list (gset entry)) :
  all_lists <> [] ->
  exists common, set_intersection all_lists = Ok common
                 /\ forall x, x ∈ common <-> forall t, t ∈ all_lists -> x ∈ t.
Proof.
  destruct all_lists as [|s others]; [done |]. intros _.
  eexists. split; [reflexivity |]. intros x.
  rewrite elem_of_foldl_intersection. split.
  - intros [? Hall] t [->|?]%elem_of_cons; auto.
  - intros Hall. split; [apply Hall; by left |]. intros t ?. apply Hall. by right.
Qed.

Lemma strings_of_Some (l : list entry) :
  Forall is_Some l -> strings_of l = Ok (omap id l) /\ l = Some <$> omap id l.
Proof.
  induction 1 as [|x l [y ->] _ [IH1 IH2]]; [done |]. simpl.
  rewrite IH1. simpl. split; [done | by f_equal].
Qed.

Lemma sorted_all_strings (s : gset entry) :
  (forall x, x ∈ s -> is_Some x) ->
  sorted s = Ok (Some <$> sorted_strings s)
  /\ length (sorted_strings s) = size s
  /\ StronglySorted String.le (sorted_strings s)
  /\ NoDup (sorted_strings s)
  /\ forall x, x ∈ sorted_strings s <-> Some x ∈ s.
Proof.
  intros Hs.
  assert (Hall : Forall is_Some (elements s)).
  { apply Forall_forall. intros x Hx. apply Hs. by apply elem_of_elements. }
  destruct (strings_of_Some _ Hall) as [Hstr Hel].
  assert (Hperm : sorted_strings s ≡ₚ omap id (elements s))
    by apply merge_sort_Permutation.
  split_and!.
  - unfold sorted, sorted_strings. clear Hel Hperm.
    destruct (elements s) as [|[x|] l]; [done | |].
    { change (obind (strings_of (Some x :: l))
                (fun xs => Ok (Some <$> merge_sort String.le xs))
              = Ok (Some <$> merge_sort String.le (omap id (Some x :: l)))).
      by rewrite Hstr. }
    by apply Forall_cons in Hall as [[? [=]] _].
  - rewrite Hperm. unfold size, set_size. simpl.
    rewrite <- (length_fmap Some (omap id (elements s))). by rewrite <- Hel.
  - apply StronglySorted_merge_sort; apply _.
  - rewrite Hperm. apply (NoDup_fmap_1 Some). rewrite <- Hel. apply NoDup_elements.
  - intros x. rewrite Hperm, <- elem_of_elements.
    set (l := omap id (elements s)) in *. clearbody l. rewrite Hel.
    rewrite list_elem_of_fmap. split; [intros ?; by exists x |].
    by intros (y & [= ->] & ?).
Qed.

Lemma enumerate_fmap {A B} (f : A -> B) (l : list A) :
  enumerate (f <$> l) = prod_map id f <$> enumerate l.
Proof.
  unfold enumerate. rewrite length_fmap. generalize 0%nat.
  induction l as [|x l IH]; intros n; [done |]. simpl. by rewrite IH.
Qed.

Lemma report_unique_strings (common : gset entry) (n : nat) (filelist : string)
    (values : list entry) :
  Forall is_Some values ->
  report_unique common n filelist values
  = (unique_events n filelist (sorted_strings (list_to_set values ∖ common)), Ok ()).
Proof.
  intros Hvalues. unfold report_unique.
  set (unique := list_to_set values ∖ common).
  destruct (sorted_all_strings unique) as (Hsorted & Hlen & _).
  { intros x [Hx _]%elem_of_difference. apply elem_of_list_to_set in Hx.
    by eapply Forall_forall in Hvalues. }
  unfold print at 1, print_end, emit. simpl. rewrite Hsorted. simpl.
  rewrite enumerate_fmap.
  erewrite (for_each_events _ _
    (fun p => [line (entry_message p.1 p.2)])); last by intros [? ?].
  unfold unique_events. rewrite Hlen. f_equal. f_equal.
  induction (enumerate _) as [|[i x] l IH]; [done |]. csimpl. by rewrite IH.
Qed.

Lemma report_strings (filelists : dict (list entry)) (common : gset entry) :
  set_intersection ((fun kv => list_to_set kv.2) <$> filelists) = Ok common ->
  Forall (fun fv => Forall is_Some fv.2) filelists ->
  report filelists
  = (line (common_message (size common))
     :: concat (zip_with (fun nf u => unique_events nf.1 nf.2.1 u)
                         (enumerate filelists)
                         ((fun fv => sorted_strings (list_to_set fv.2 ∖ common))
                            <$> filelists)),
     Ok ()).
Proof.
  intros Hcommon Hstr. unfold report. rewrite Hcommon. simpl.
  erewrite (for_each_events _ _
    (fun p => unique_events p.1 p.2.1
                (sorted_strings (list_to_set p.2.2 ∖ common)))).
  - f_equal. unfold line at 1. f_equal.
    unfold enumerate. generalize 0%nat. clear Hcommon Hstr.
    induction filelists as [|fv l IH]; intros n; [done |]. csimpl.
    by rewrite IH.
  - intros [n [f vals]] Hp. apply report_unique_strings.
    unfold enumerate in Hp. apply elem_of_zip_r in Hp.
    by eapply Forall_forall in Hstr.
Qed.


End compare_facts.

(** ** The file walker *)

Section walker_facts.

Lemma node_ind' (P : node -> Prop) :
  P File -> P DirLink ->
  (forall entries, Forall (fun e => P e.2) entries -> P (Dir entries)) ->
  forall n, P n.
Proof.
  intros HF HL HD. fix IH 1. intros [|entries|]; [exact HF | | exact HL].
  apply HD. induction entries as [|[name n] entries IHentries]; constructor.
  - apply IH.
  - exact IHentries.
Qed.

Lemma list_files_files_of (w : world) (path : string) :
  list_files w path = files_of (os_walk w (fun d => negb (hidden d)) path).
Proof.
  unfold list_files, files_of.
  generalize (os_walk w (fun d => negb (hidden d)) path). intros items.
  rewrite <- (app_nil_l (items ≫= _)). generalize (@nil string).
  induction items as [|[[root dirs] files] items IH]; intros acc; simpl.
  - by rewrite app_nil_r.
  - rewrite IH, app_assoc. do 2 f_equal. f_equal.
    apply list_filter_iff. intros f. unfold visible.
    destruct (hidden f); simpl; intuition congruence.
Qed.

Lemma elem_of_filenames (entries : list (string * node)) (name : string) :
  name ∈ filenames entries <-> exists n, (name, n) ∈ entries /\ is_dir n = false.
Proof.
  unfold filenames. rewrite list_elem_of_fmap. split.
  - intros ([name' n] & -> & [Hd ?]%list_elem_of_filter). exists n.
    split; [done |]. simpl in Hd. by destruct (is_dir n).
  - intros (n & ? & Hd). exists (name, n). split; [done |].
    apply list_elem_of_filter. split; [| done]. simpl. by rewrite Hd.
Qed.

Lemma walk_files (n : node) : forall (top p : string) (entries : list (string * node)),
  n = Dir entries ->
  p ∈ files_of (walk (fun d => negb (hidden d)) top n)
  <-> exists chain, tree_file entries chain /\ Forall visible chain
                    /\ p = join_chain top chain.
Proof.
  induction n as [| |entries0 IH] using node_ind'; intros top p entries [=]. subst entries0.
  cbn [walk]. unfold files_of. rewrite bind_cons. fold files_of.
  rewrite elem_of_app. cbn [fst snd]. split.
  - intros [Hfile|Hsub].
    + apply list_elem_of_fmap in Hfile as (name & -> & [Hvis Hin]%list_elem_of_filter).
      apply elem_of_filenames in Hin as (n & Hin & Hd).
      exists [name]. split_and!; [by econstructor | by constructor | done].
    + apply list_elem_of_bind in Hsub as (item & Hp & Hitem).
      apply list_elem_of_bind in Hitem as ([name n] & Hitem & Hin).
      cbn [fst snd] in Hitem. destruct (negb (hidden name)) eqn:Hvis; [| by apply elem_of_nil in Hitem].
      eapply Forall_forall in IH; [| exact Hin]. cbn [snd] in IH.
      destruct n as [|sub|]; [by apply elem_of_nil in Hitem | | by apply elem_of_nil in Hitem].
      destruct (IH (posixpath.join top name) p sub eq_refl) as [(chain & Hchain & Hall & ->) _].
      { unfold files_of. apply list_elem_of_bind. eauto. }
      exists (name :: chain). split_and!; [by econstructor | | done].
      constructor; [| done]. unfold visible. by destruct (hidden name).
  - intros (chain & Hchain & Hall & ->).
    destruct Hchain as [entries name n Hin Hd|entries name sub chain Hin Hchain].
    + left. apply list_elem_of_fmap. exists name. split; [done |].
      apply list_elem_of_filter. split; [by apply Forall_inv in Hall |].
      apply elem_of_filenames. eauto.
    + right. apply Forall_cons in Hall as [Hvis Hall].
      eapply Forall_forall in IH; [| exact Hin]. cbn [snd] in IH.
      destruct (IH (posixpath.join top name) (join_chain top (name :: chain)) sub eq_refl)
        as [_ Hback].
      specialize (Hback (ex_intro _ chain (conj Hchain (conj Hall eq_refl)))).
      apply list_elem_of_bind in Hback as (item & Hp & Hitem).
      apply list_elem_of_bind. exists item. split; [done |].
      apply list_elem_of_bind. exists (name, Dir sub). split; [| done].
      cbn [fst snd]. unfold visible in Hvis. by rewrite Hvis.
Qed.

Lemma list_files_chains (w : world) (top p : string) :
  p ∈ list_files w top
  <-> exists entries chain,
        scandir w top = Some entries /\ tree_file entries chain
        /\ Forall visible chain /\ p = join_chain top chain.
Proof.
  rewrite list_files_files_of. unfold os_walk.
  destruct (scandir w top) as [entries|].
  - rewrite (walk_files _ top p entries eq_refl). split.
    + intros (chain & ? & ? & ?). by exists entries, chain.
    + intros (? & chain & [= <-] & ? & ? & ?). by exists chain.
  - split; [by intros ?%elem_of_nil | by intros (? & ? & [=] & _)].
Qed.

(** The read loop of [md5sum] ends, having fed the digest the whole file. *)
Lemma md5_read_loop_all (fuel : nat) : forall (m data : list Byte.byte),
  (length data < fuel)%nat -> md5_read_loop fuel m data = m ++ data.
Proof.
  assert (Hpos : (0 < chunk_size)%nat) by (unfold chunk_size; lia).
  induction fuel as [|fuel IH]; intros m data Hlen; [lia |].
  cbn [md5_read_loop]. destruct data as [|b data]; [by rewrite take_nil, app_nil_r |].
  destruct chunk_size as [|n] eqn:Hn; [lia |].
  cbn [take drop]. rewrite IH.
  - rewrite <- app_assoc. f_equal. cbn [app]. f_equal. apply take_drop.
  - rewrite length_drop. simpl in Hlen. lia.
Qed.

End walker_facts.

(** ** inventory *)

Section inventory_facts.
Context `{PyLib}.

(** [md5sum] returns the digest of the whole content, whatever its length. *)
Lemma md5sum_whole_file (w : world) (filepath : string) (data : list Byte.byte) :
  open_rb w filepath = Ok data ->
  md5sum w filepath = ([EMd5 filepath], Ok (md5_hexdigest data)).
Proof.
  intros Hdata. unfold md5sum. rewrite Hdata.
  unfold mbind, M_bind, mret, M_ret, emit, lift.
  rewrite (md5_read_loop_all (S (length data)) [] data) by lia. done.
Qed.

(** *** The two loops *)

Lemma copy_item_ok (fh : handle) (count : Z) (item : string * csvrow) record :
  copied_record item.2 = Ok record ->
  copy_item fh count item = ([ERow fh record], Ok (count + 1)).
Proof.
  intros Hrec. unfold copy_item, writerow. unfold copied_record in Hrec.
  by rewrite Hrec.
Qed.

Lemma copy_item_inv (fh : handle) (count : Z) (item : string * csvrow) t count' :
  copy_item fh count item = (t, Ok count') ->
  exists record, copied_record item.2 = Ok record
                 /\ t = [ERow fh record] /\ count' = count + 1.
Proof.
  unfold copy_item, writerow, copied_record.
  destruct (record_of _) as [record|e]; [| done].
  intros [= <- <-]. by exists record.
Qed.

Lemma copy_loop_ok (fh : handle) (cl : dict csvrow) (olds : list (list string)) :
  Forall2 (fun item record => copied_record item.2 = Ok record) cl olds ->
  forall count,
  for_fold cl (copy_item fh) count
  = (ERow fh <$> olds, Ok (count + Z.of_nat (length cl))).
Proof.
  induction 1 as [|item record cl olds Hrec _ IH]; intros count; simpl.
  - unfold mret, M_ret. do 2 f_equal. lia.
  - rewrite (bind_Ok _ _ _ _ (copy_item_ok fh count item record Hrec)).
    rewrite IH. csimpl. do 2 f_equal. lia.
Qed.

Lemma copy_loop_inv (fh : handle) (cl : dict csvrow) :
  forall count t count',
  for_fold cl (copy_item fh) count = (t, Ok count') ->
  exists olds,
    Forall2 (fun item record => copied_record item.2 = Ok record) cl olds.
Proof.
  induction cl as [|item cl IH]; intros count t count' Hrun.
  - by exists [].
  - simpl in Hrun. apply bind_Ok_inv in Hrun as (t1 & c1 & t2 & Hitem & Hrest & _).
    apply copy_item_inv in Hitem as (record & Hrec & _).
    apply IH in Hrest as (olds & Holds). exists (record :: olds). by constructor.
Qed.

(** Examining a file calls [md5sum] once; the dictionary it builds always
    fits the header. *)
Lemma metadata_Ok (w : world) (f : string) t md :
  metadata w f = (t, Ok md) ->
  t = [EMd5 f] /\ exists record, record_of md = Ok record.
Proof.
  unfold metadata, md5sum.
  destruct (getmtime w f) as [tstamp|?]; [| done].
  unfold lift. cbn [mbind M_bind].
  destruct (strftime_local tstamp) as [moddate|?]; [| done].
  destruct (getsize w f) as [size|?]; [| done].
  destruct (open_rb w f) as [data|?]; [| done].
  intros [= <- <-]. split; [done |]. eexists. reflexivity.
Qed.

Lemma metadata_Raise (w : world) (f : string) t e :
  metadata w f = (t, Raise e) -> t = [] \/ t = [EMd5 f].
Proof.
  unfold metadata, md5sum.
  destruct (getmtime w f) as [tstamp|?]; [| intros [= <- _]; by left].
  unfold lift. cbn [mbind M_bind].
  destruct (strftime_local tstamp) as [moddate|?]; [| intros [= <- _]; by left].
  destruct (getsize w f) as [size|?]; [| intros [= <- _]; by left].
  destruct (open_rb w f) as [data|?]; [done | intros [= <- _]; by right].
Qed.

Lemma check_file_ok (w : world) (fh : handle) (total count : Z) (f : string) record :
  fresh_record w f = Ok record ->
  check_file w fh total count f
  = ([EMd5 f; ERow fh record; EPrint (progress (count + 1) total)], Ok (count + 1)).
Proof.
  unfold fresh_record, check_file, writerow.
  destruct (metadata w f) as [t [md|e]] eqn:Hmd; [| done].
  apply metadata_Ok in Hmd as [-> _]. simpl. intros ->. done.
Qed.

Lemma check_file_fail (w : world) (fh : handle) (total count : Z) (f : string) e :
  fresh_record w f = Raise e ->
  exists t, check_file w fh total count f = (t, Raise e)
            /\ (t = [] \/ t = [EMd5 f]).
Proof.
  unfold fresh_record, check_file, writerow.
  destruct (metadata w f) as [t [md|e']] eqn:Hmd; simpl.
  - apply metadata_Ok in Hmd as [-> [record Hrec]]. by rewrite Hrec.
  - intros [= <-]. apply metadata_Raise in Hmd. by exists t.
Qed.

Lemma check_file_inv (w : world) (fh : handle) (total count : Z) (f : string) t count' :
  check_file w fh total count f = (t, Ok count') ->
  exists record, fresh_record w f = Ok record.
Proof.
  unfold fresh_record, check_file, writerow.
  destruct (metadata w f) as [t0 [md|e']] eqn:Hmd; simpl; [| done].
  destruct (record_of md) as [record|e]; [| done]. by exists record.
Qed.

Lemma check_loop_ok (w : world) (fh : handle) (total : Z)
    (files : list string) (news : list (list string)) :
  Forall2 (fun f record => fresh_record w f = Ok record) files news ->
  forall count,
  for_fold files (check_file w fh total) count
  = (check_events fh total count (zip files news),
     Ok (count + Z.of_nat (length files))).
Proof.
  induction 1 as [|f record files news Hrec _ IH]; intros count; simpl.
  - unfold mret, M_ret. do 2 f_equal. lia.
  - rewrite (bind_Ok _ _ _ _ (check_file_ok w fh total count f record Hrec)).
    rewrite IH. csimpl. do 2 f_equal. lia.
Qed.

Lemma check_loop_inv (w : world) (fh : handle) (total : Z) (files : list string) :
  forall count t count',
  for_fold files (check_file w fh total) count = (t, Ok count') ->
  exists news, Forall2 (fun f record => fresh_record w f = Ok record) files news.
Proof.
  induction files as [|f files IH]; intros count t count' Hrun.
  - by exists [].
  - simpl in Hrun. apply bind_Ok_inv in Hrun as (t1 & c1 & t2 & Hf & Hrest & _).
    apply check_file_inv in Hf as (record & Hrec).
    apply IH in Hrest as (news & Hnews). exists (record :: news). by constructor.
Qed.

Lemma check_loop_fail (w : world) (fh : handle) (total : Z)
    (pre post : list string) (f : string) (news : list (list string)) e :
  Forall2 (fun f record => fresh_record w f = Ok record) pre news ->
  fresh_record w f = Raise e ->
  forall count,
  exists t,
    for_fold (pre ++ f :: post) (check_file w fh total) count
    = (check_events fh total count (zip pre news) ++ t, Raise e)
    /\ (t = [] \/ t = [EMd5 f]).
Proof.
  intros Hpre Hf count. rewrite for_fold_app.
  rewrite (bind_Ok _ _ _ _ (check_loop_ok w fh total pre news Hpre count)).
  simpl. destruct (check_file_fail w fh total (count + Z.of_nat (length pre)) f e Hf)
    as (t & Hrun & Ht).
  exists t. by rewrite (bind_Raise _ _ _ _ Hrun).
Qed.

(** *** What the events of the second loop leave on the streams *)

Lemma check_events_records (fh : handle) (total : Z) (files : list string)
    (news : list (list string)) :
  length files = length news ->
  forall count, csv_records (check_events fh total count (zip files news)) = news.
Proof.
  revert news. induction files as [|f files IH]; intros [|record news] [=] count;
    [done |]. simpl. f_equal. auto.
Qed.

Lemma check_events_md5_calls (fh : handle) (total : Z) (files : list string)
    (news : list (list string)) :
  length files = length news ->
  forall count, md5_calls (check_events fh total count (zip files news)) = files.
Proof.
  revert news. induction files as [|f files IH]; intros [|record news] [=] count;
    [done |]. simpl. f_equal. auto.
Qed.

Lemma check_events_outfile (total : Z) (files : list string)
    (news : list (list string)) :
  length files = length news ->
  forall count,
    chunks Outfile (check_events Outfile total count (zip files news))
    = csv_writerow <$> news.
Proof.
  unfold chunks. revert news. induction files as [|f files IH]; intros [|record news] [=] count;
    [done |]. simpl. f_equal. auto.
Qed.

Lemma check_events_progress (total : Z) (files : list string)
    (news : list (list string)) :
  length files = length news ->
  forall count,
    chunks Stdout (check_events Outfile total count (zip files news))
    = progress_texts total count (length news).
Proof.
  unfold chunks. revert news. induction files as [|f files IH]; intros [|record news] [=] count;
    [done |]. simpl. f_equal. auto.
Qed.

Lemma check_events_interleaved (total : Z) (files : list string)
    (news : list (list string)) :
  length files = length news ->
  forall count,
    chunks Stdout (check_events Stdout total count (zip files news))
    = interleaved total count news.
Proof.
  unfold chunks. revert news. induction files as [|f files IH]; intros [|record news] [=] count;
    [done |]. simpl. do 2 f_equal. auto.
Qed.

(** *** The second part of a run *)

Lemma write_inventory_ok (w : world) (all_files : list string) (cl : dict csvrow)
    (files : list string) (fh : handle) (olds news : list (list string)) :
  Forall2 (fun item record => copied_record item.2 = Ok record) cl olds ->
  Forall2 (fun f record => fresh_record w f = Ok record) files news ->
  write_inventory w all_files cl files fh
  = (ERow fh FIELDNAMES :: (ERow fh <$> olds)
     ++ check_events fh (total_of all_files) (Z.of_nat (length cl)) (zip files news)
     ++ (EPrint <$> closing),
     Ok ()).
Proof.
  intros Holds Hnews. unfold write_inventory, writeheader, emit. simpl.
  rewrite (bind_Ok _ _ _ _ (copy_loop_ok fh cl olds Holds 0)). simpl.
  rewrite (bind_Ok _ _ _ _ (check_loop_ok w fh _ files news Hnews _)). simpl.
  by rewrite Z.add_0_l.
Qed.

Lemma write_inventory_fail (w : world) (all_files : list string) (cl : dict csvrow)
    (pre post : list string) (f : string) (fh : handle)
    (olds news : list (list string)) e :
  Forall2 (fun item record => copied_record item.2 = Ok record) cl olds ->
  Forall2 (fun f record => fresh_record w f = Ok record) pre news ->
  fresh_record w f = Raise e ->
  exists t,
    write_inventory w all_files cl (pre ++ f :: post) fh
    = (ERow fh FIELDNAMES :: (ERow fh <$> olds)
       ++ check_events fh (total_of all_files) (Z.of_nat (length cl)) (zip pre news)
       ++ t,
       Raise e)
    /\ (t = [] \/ t = [EMd5 f]).
Proof.
  intros Holds Hnews Hf. unfold write_inventory, writeheader, emit. simpl.
  rewrite (bind_Ok _ _ _ _ (copy_loop_ok fh cl olds Holds 0)). simpl.
  destruct (check_loop_fail w fh (total_of all_files) pre post f news e Hnews Hf
              (Z.of_nat (length cl))) as (t & Hrun & Ht).
  exists t. split; [| done]. rewrite Z.add_0_l.
  unfold total_of in Hrun. by rewrite (bind_Raise _ _ _ _ Hrun).
Qed.

Lemma write_inventory_inv (w : world) (all_files : list string) (cl : dict csvrow)
    (files : list string) (fh : handle) t :
  write_inventory w all_files cl files fh = (t, Ok ()) ->
  exists olds news,
    Forall2 (fun item record => copied_record item.2 = Ok record) cl olds
    /\ Forall2 (fun f record => fresh_record w f = Ok record) files news.
Proof.
  unfold write_inventory, writeheader, emit. simpl.
  destruct (for_fold cl (copy_item fh) 0) as [t1 [c1|e1]] eqn:Hcopy; [| done].
  unfold mbind, M_bind.
  destruct (for_fold files (check_file w fh (Z.of_nat (length all_files))) c1)
    as [t2 [c2|e2]] eqn:Hcheck; [| done].
  intros _. apply copy_loop_inv in Hcopy as (olds & ?).
  apply check_loop_inv in Hcheck as (news & ?). by exists olds, news.
Qed.

(** *** The first part of a run *)

Lemma print_header_inventory :
  print_header "inventory"
  = ([line EmptyString; line "preserve.py inventory"; line "====================="],
     Ok ()).
Proof. reflexivity. Qed.

Lemma normpath_nonempty (path : string) : posixpath.normpath path <> EmptyString.
Proof.
  unfold posixpath.normpath. case_bool_decide; [done |].
  by case_bool_decide.
Qed.

Lemma truthy_OUTFILE (w : world) (out : string) :
  truthy (OUTFILE w (Some out)) = Some (posixpath.abspath (getcwd w) out).
Proof.
  unfold truthy, OUTFILE. simpl. rewrite bool_decide_eq_false_2; [done |].
  apply normpath_nonempty.
Qed.

Lemma setup_stdout (w : world) (args_path : string) :
  setup w args_path None
  = (EPrint <$> banner w args_path "Writing inventory to stdout",
     Ok (list_files w (SEARCHROOT w args_path), [],
         list_files w (SEARCHROOT w args_path), Stdout)).
Proof. unfold setup. rewrite (bind_Ok _ _ _ _ print_header_inventory). done. Qed.

Lemma read_rows_errors (rows : list csvrow) : forall acc e,
  read_rows rows acc = Raise e -> e = "KeyError" \/ e = "TypeError".
Proof.
  induction rows as [|row rows IH]; intros acc e; simpl; [done |].
  destruct (row_filepath row) as [fp|e'] eqn:Hfp; simpl; [by apply IH |].
  intros [= ->]. unfold row_filepath, dict_item in Hfp.
  destruct (dict_get "Directory" _) as [d|]; simpl in Hfp; [| left; congruence].
  destruct (dict_get "Filename" _) as [f|]; simpl in Hfp; [| left; congruence].
  destruct d, f; simpl in Hfp; try done; right; congruence.
Qed.

(** What [resume] returns, by what the destination holds. *)
Lemma resume_existing (w : world) (dest : string) (all_files : list string)
    (text : string) (cl : dict csvrow) :
  open_r w dest = Ok text ->
  read_rows (inventory_rows text) [] = Ok cl ->
  resume w dest all_files
  = ([], Ok (cl, set_iter (list_to_set all_files ∖ list_to_set (dict_keys cl)))).
Proof.
  intros Htext Hrows. unfold resume, read_inventory. rewrite Htext. simpl.
  by rewrite Hrows.
Qed.

Lemma resume_missing (w : world) (dest : string) (all_files : list string) :
  open_r w dest = Raise "FileNotFoundError" ->
  resume w dest all_files = ([], Ok ([], all_files)).
Proof. intros Htext. unfold resume, read_inventory. by rewrite Htext. Qed.

Lemma resume_inv (w : world) (dest : string) (all_files : list string) t cl files :
  resume w dest all_files = (t, Ok (cl, files)) ->
  t = []
  /\ ((exists text, open_r w dest = Ok text
                    /\ read_rows (inventory_rows text) [] = Ok cl
                    /\ files = set_iter (list_to_set all_files
                                         ∖ list_to_set (dict_keys cl)))
      \/ (open_r w dest = Raise "FileNotFoundError"
          /\ cl = [] /\ files = all_files)).
Proof.
  unfold resume, read_inventory.
  destruct (open_r w dest) as [text|e] eqn:Htext; simpl.
  - destruct (read_rows _ _) as [cl'|e] eqn:Hrows; simpl.
    + intros [= <- <- <-]. split; [done |]. left. by exists text.
    + apply read_rows_errors in Hrows as [->| ->]; by rewrite decide_False.
  - case_decide as He; [| done]. subst e. intros [= <- <- <-]. by split; [| right].
Qed.

Lemma setup_file (w : world) (args_path out : string) cl files :
  resume w (posixpath.abspath (getcwd w) out)
         (list_files w (SEARCHROOT w args_path)) = ([], Ok (cl, files)) ->
  open_w w (posixpath.abspath (getcwd w) out) = Ok () ->
  setup w args_path (Some out)
  = (file_banner w args_path out,
     Ok (list_files w (SEARCHROOT w args_path), cl, files, Outfile)).
Proof.
  intros Hresume Hopen. unfold setup.
  rewrite (bind_Ok _ _ _ _ print_header_inventory). rewrite truthy_OUTFILE.
  simpl. rewrite (bind_Ok _ _ _ _ Hresume). simpl.
  unfold open_w_plus. by rewrite Hopen.
Qed.

Lemma setup_file_inv (w : world) (args_path out : string) t all_files cl files fh :
  setup w args_path (Some out) = (t, Ok (all_files, cl, files, fh)) ->
  t = file_banner w args_path out
  /\ all_files = list_files w (SEARCHROOT w args_path)
  /\ fh = Outfile
  /\ open_w w (posixpath.abspath (getcwd w) out) = Ok ()
  /\ resume w (posixpath.abspath (getcwd w) out) all_files = ([], Ok (cl, files)).
Proof.
  unfold setup. rewrite (bind_Ok _ _ _ _ print_header_inventory).
  rewrite truthy_OUTFILE. simpl.
  destruct (resume _ _ _) as [t1 [[cl' files']|e]] eqn:Hresume; simpl; [| done].
  destruct (resume_inv _ _ _ _ _ _ Hresume) as [-> _].
  unfold open_w_plus. destruct (open_w w _) as [[]|e] eqn:Hopen; simpl; [| done].
  intros [= <- <- <- <- <-]. done.
Qed.

Lemma setup_events (w : world) (args_path : string) (args_outfile : option string)
    t all_files cl files fh :
  setup w args_path args_outfile = (t, Ok (all_files, cl, files, fh)) ->
  csv_records t = [] /\ md5_calls t = []
  /\ all_files = list_files w (SEARCHROOT w args_path).
Proof.
  destruct args_outfile as [out|].
  - intros (-> & -> & _)%setup_file_inv. done.
  - rewrite setup_stdout. intros [= <- <- _ _ _]. done.
Qed.

Lemma csv_records_app (t1 t2 : list event) :
  csv_records (t1 ++ t2) = csv_records t1 ++ csv_records t2.
Proof. apply omap_app. Qed.

Lemma md5_calls_app (t1 t2 : list event) :
  md5_calls (t1 ++ t2) = md5_calls t1 ++ md5_calls t2.
Proof. apply omap_app. Qed.

Lemma csv_records_rows (fh : handle) (records : list (list string)) :
  csv_records (ERow fh <$> records) = records.
Proof. induction records as [|r l IH]; [done |]. csimpl. by rewrite IH. Qed.

Lemma md5_calls_rows (fh : handle) (records : list (list string)) :
  md5_calls (ERow fh <$> records) = [].
Proof. induction records as [|r l IH]; [done |]. by csimpl. Qed.

Lemma csv_records_prints (l : list string) : csv_records (EPrint <$> l) = [].
Proof. induction l as [|x l IH]; [done |]. by csimpl. Qed.

Lemma md5_calls_prints (l : list string) : md5_calls (EPrint <$> l) = [].
Proof. induction l as [|x l IH]; [done |]. by csimpl. Qed.

Lemma chunks_app (fh : handle) (t1 t2 : list event) :
  chunks fh (t1 ++ t2) = chunks fh t1 ++ chunks fh t2.
Proof. apply omap_app. Qed.

Lemma chunks_rows (fh fh' : handle) (records : list (list string)) :
  chunks fh' (ERow fh <$> records)
  = if decide (fh = fh') then csv_writerow <$> records else [].
Proof.
  unfold chunks. induction records as [|r l IH]; csimpl; [by case_decide |].
  rewrite IH. by case_decide.
Qed.

Lemma chunks_prints (fh : handle) (l : list string) :
  chunks fh (EPrint <$> l) = if decide (fh = Stdout) then l else [].
Proof.
  unfold chunks. induction l as [|x l IH]; csimpl; [by case_decide |].
  rewrite IH. by case_decide.
Qed.

Lemma chunks_row (fh fh' : handle) (record : list string) (t : list event) :
  chunks fh' (ERow fh record :: t)
  = (if decide (fh = fh') then [csv_writerow record] else []) ++ chunks fh' t.
Proof. unfold chunks. csimpl. by case_decide. Qed.

Lemma chunks_open (fh : handle) (t : list event) :
  chunks fh (EOpen :: t) = chunks fh t.
Proof. done. Qed.

Lemma is_open_prints (l : list string) : existsb is_open (EPrint <$> l) = false.
Proof. induction l as [|x l IH]; [done |]. by csimpl. Qed.

Lemma is_open_rows (fh : handle) (records : list (list string)) :
  existsb is_open (ERow fh <$> records) = false.
Proof. induction records as [|x l IH]; [done |]. by csimpl. Qed.

Lemma is_open_check_events (fh : handle) (total : Z)
    (done : list (string * list string)) :
  forall count, existsb is_open (check_events fh total count done) = false.
Proof. induction done as [|[f r] l IH]; intros count; [done |]. simpl. apply IH. Qed.

Lemma inventory_ok (w : world) (args_path : string) (args_outfile : option string)
    t0 all_files cl files fh olds news :
  setup w args_path args_outfile = (t0, Ok (all_files, cl, files, fh)) ->
  Forall2 (fun item record => copied_record item.2 = Ok record) cl olds ->
  Forall2 (fun f record => fresh_record w f = Ok record) files news ->
  inventory w args_path args_outfile
  = (run_events t0 fh (total_of all_files) (Z.of_nat (length cl)) olds
       (zip files news), Ok ()).
Proof.
  intros Hsetup Holds Hnews. unfold inventory.
  rewrite (bind_Ok _ _ _ _ Hsetup). cbn [fst snd].
  by rewrite (write_inventory_ok w all_files cl files fh olds news Holds Hnews).
Qed.

Lemma run_events_records t0 fh total count olds files news :
  length files = length news ->
  csv_records t0 = [] ->
  csv_records (run_events t0 fh total count olds (zip files news))
  = FIELDNAMES :: olds ++ news.
Proof.
  intros Hlen H0. unfold run_events. rewrite csv_records_app, H0.
  change (csv_records (ERow fh FIELDNAMES :: ?t)) with (FIELDNAMES :: csv_records t).
  rewrite !csv_records_app, csv_records_rows, check_events_records by done.
  by rewrite csv_records_prints, app_nil_r.
Qed.

Lemma run_events_md5_calls t0 fh total count olds files news :
  length files = length news ->
  md5_calls t0 = [] ->
  md5_calls (run_events t0 fh total count olds (zip files news)) = files.
Proof.
  intros Hlen H0. unfold run_events. rewrite md5_calls_app, H0.
  change (md5_calls (ERow fh FIELDNAMES :: ?t)) with (md5_calls t).
  rewrite !md5_calls_app, md5_calls_rows, check_events_md5_calls by done.
  by rewrite md5_calls_prints, app_nil_r.
Qed.

Lemma run_events_not_opened t0 fh total count olds done :
  existsb is_open t0 = false ->
  outfile (run_events t0 fh total count olds done) = None.
Proof.
  intros H0. unfold outfile, run_events. rewrite existsb_app, H0.
  cbn [existsb is_open orb].
  by rewrite !existsb_app, is_open_rows, is_open_check_events, is_open_prints.
Qed.

Lemma file_banner_chunks (w : world) (args_path out : string) :
  chunks Outfile (file_banner w args_path out) = []
  /\ chunks Stdout (file_banner w args_path out)
     = banner w args_path
         ("Writing inventory to file " +:+ posixpath.abspath (getcwd w) out)
  /\ existsb is_open (file_banner w args_path out) = true.
Proof.
  unfold file_banner. rewrite !chunks_app, !chunks_prints, existsb_app.
  by repeat case_decide.
Qed.

Lemma run_events_outfile (w : world) (args_path out : string) total count olds
    files news :
  length files = length news ->
  outfile (run_events (file_banner w args_path out) Outfile total count olds
             (zip files news))
  = Some (csv_writerow <$> FIELDNAMES :: olds ++ news).
Proof.
  intros Hlen. destruct (file_banner_chunks w args_path out) as (Hb & _ & Hopen).
  unfold outfile, run_events. rewrite existsb_app, Hopen. cbn [orb]. f_equal.
  rewrite chunks_app, Hb, chunks_row, !chunks_app, chunks_rows, chunks_prints.
  rewrite check_events_outfile by done.
  repeat case_decide; try done.
  by rewrite app_nil_r, fmap_cons, fmap_app.
Qed.

Lemma run_events_stdout_file (w : world) (args_path out : string) total count olds
    files news :
  length files = length news ->
  stdout (run_events (file_banner w args_path out) Outfile total count olds
            (zip files news))
  = banner w args_path
      ("Writing inventory to file " +:+ posixpath.abspath (getcwd w) out)
    ++ progress_texts total count (length news) ++ closing.
Proof.
  intros Hlen. destruct (file_banner_chunks w args_path out) as (_ & Hb & _).
  unfold stdout, run_events.
  rewrite chunks_app, Hb, chunks_row, !chunks_app, chunks_rows, chunks_prints.
  rewrite check_events_progress by done.
  by repeat case_decide.
Qed.

(** C4 (as the code has it). A root that cannot be listed is not an error:
    [os.walk] yields nothing for it, so [list_files] returns the empty list,
    as it does for an empty directory, and the inventory written to standard
    output is the header alone; the run ends normally, with exit status 0. *)
Theorem missing_root_lists_nothing (w : world) (args_path : string) :
  scandir w (SEARCHROOT w args_path) = None
  \/ scandir w (SEARCHROOT w args_path) = Some [] ->
  list_files w (SEARCHROOT w args_path) = []
  /\ inventory w args_path None
     = ((EPrint <$> banner w args_path "Writing inventory to stdout")
        ++ ERow Stdout FIELDNAMES :: (EPrint <$> closing),
        Ok ())
  /\ exit_code (inventory w args_path None).2 = 0.
Proof.
  intros Hscan.
  assert (Hfiles : list_files w (SEARCHROOT w args_path) = []).
  { unfold list_files, os_walk. by destruct Hscan as [-> | ->]. }
  assert (Hrun : inventory w args_path None
     = ((EPrint <$> banner w args_path "Writing inventory to stdout")
        ++ ERow Stdout FIELDNAMES :: (EPrint <$> closing), Ok ())).
  { unfold inventory. rewrite (bind_Ok _ _ _ _ (setup_stdout w args_path)).
    rewrite Hfiles. done. }
  split_and!; [done | done |]. by rewrite Hrun.
Qed.

(** C6 (as the code has it). No exception is handled in the second loop:
    when examining a file raises [e] (the file vanished after the scan, or
    cannot be read), the run ends there with [e].  The records written are
    those of the files before it; no later file is examined. *)
Theorem inventory_aborts_at_failing_file (w : world) (args_path : string)
    (args_outfile : option string) (t0 : list event) (all_files : list string)
    (cl : dict csvrow) (pre post : list string) (f : string) (fh : handle)
    (olds news : list (list string)) (e : exn) :
  setup w args_path args_outfile = (t0, Ok (all_files, cl, pre ++ f :: post, fh)) ->
  Forall2 (fun item record => copied_record item.2 = Ok record) cl olds ->
  Forall2 (fun g record => fresh_record w g = Ok record) pre news ->
  fresh_record w f = Raise e ->
  exists t,
    inventory w args_path args_outfile = (t, Raise e)
    /\ csv_records t = FIELDNAMES :: olds ++ news
    /\ (md5_calls t = pre \/ md5_calls t = pre ++ [f]).
Proof.
  intros Hsetup Holds Hnews Hf.
  destruct (write_inventory_fail w all_files cl pre post f fh olds news e
              Holds Hnews Hf) as (t1 & Hrun & Ht1).
  destruct (setup_events _ _ _ _ _ _ _ _ Hsetup) as (Hrec0 & Hmd0 & _).
  pose proof (Forall2_length _ _ _ Hnews) as Hlen.
  eexists. split_and!.
  - unfold inventory. rewrite (bind_Ok _ _ _ _ Hsetup). simpl.
    rewrite Hrun. reflexivity.
  - rewrite csv_records_app, Hrec0. simpl. f_equal.
    rewrite !csv_records_app, csv_records_rows, check_events_records by done.
    destruct Ht1 as [-> | ->]; simpl; by rewrite app_nil_r.
  - rewrite md5_calls_app, Hmd0. simpl.
    rewrite !md5_calls_app, md5_calls_rows, check_events_md5_calls by done.
    destruct Ht1 as [-> | ->]; simpl; [left; by rewrite app_nil_r | by right].
Qed.

(** C8 (as the code has it). With a destination file, the file holds
    exactly the header row followed by the data rows (those copied, then
    those computed), and standard output holds the messages and the counter
    texts.  Without one, nothing is read back (every scanned file is
    examined, in scan order) and the rows are written to standard output,
    where each data row is followed by a counter text, between the opening
    and the closing messages. *)
Theorem inventory_rows_and_progress (w : world) (args_path : string) :
  (forall out t0 all_files cl files fh olds news,
     setup w args_path (Some out) = (t0, Ok (all_files, cl, files, fh)) ->
     Forall2 (fun item record => copied_record item.2 = Ok record) cl olds ->
     Forall2 (fun f record => fresh_record w f = Ok record) files news ->
     exists t,
       inventory w args_path (Some out) = (t, Ok ())
       /\ outfile t = Some (csv_writerow <$> FIELDNAMES :: olds ++ news)
       /\ stdout t
          = banner w args_path
              ("Writing inventory to file " +:+ posixpath.abspath (getcwd w) out)
            ++ progress_texts (total_of all_files) (Z.of_nat (length cl))
                              (length news)
            ++ closing)
  /\ (forall news,
        Forall2 (fun f record => fresh_record w f = Ok record)
                (list_files w (SEARCHROOT w args_path)) news ->
        exists t,
          inventory w args_path None = (t, Ok ())
          /\ outfile t = None
          /\ csv_records t = FIELDNAMES :: news
          /\ md5_calls t = list_files w (SEARCHROOT w args_path)
          /\ stdout t
             = banner w args_path "Writing inventory to stdout"
               ++ csv_writerow FIELDNAMES
               :: interleaved (total_of (list_files w (SEARCHROOT w args_path))) 0 news
               ++ closing).
Proof.
  split.
  - intros out t0 all_files cl files fh olds news Hsetup Holds Hnews.
    pose proof (Forall2_length _ _ _ Hnews) as Hlen.
    destruct (setup_file_inv _ _ _ _ _ _ _ _ Hsetup) as (-> & _ & -> & _).
    eexists. split_and!.
    + by apply inventory_ok.
    + by apply run_events_outfile.
    + by apply run_events_stdout_file.
  - intros news Hnews.
    pose proof (Forall2_length _ _ _ Hnews) as Hlen.
    eexists. split_and!.
    + eapply inventory_ok; [apply setup_stdout | apply Forall2_nil_2 | done].
    + apply run_events_not_opened, is_open_prints.
    + apply run_events_records; [done | apply csv_records_prints].
    + apply run_events_md5_calls; [done | apply md5_calls_prints].
    + unfold stdout, run_events.
      rewrite chunks_app, chunks_row, !chunks_app, !chunks_prints, chunks_rows.
      rewrite check_events_interleaved by done.
      by repeat case_decide.
Qed.

(** C1 (as the code has it). On resume, every entry of the loaded inventory
    is written back, in order, whether or not its path was found by the
    current scan; new records are computed exactly for the scanned paths
    that the loaded inventory does not have. *)
Theorem inventory_resume_copies_every_entry (w : world) (args_path out : string)
    (text : string) (cl : dict csvrow) (olds news : list (list string)) :
  let dest := posixpath.abspath (getcwd w) out in
  let all_files := list_files w (SEARCHROOT w args_path) in
  let files := set_iter (list_to_set all_files ∖ list_to_set (dict_keys cl)) in
  open_r w dest = Ok text ->
  read_rows (inventory_rows text) [] = Ok cl ->
  open_w w dest = Ok () ->
  Forall2 (fun item record => copied_record item.2 = Ok record) cl olds ->
  Forall2 (fun f record => fresh_record w f = Ok record) files news ->
  exists t,
    inventory w args_path (Some out) = (t, Ok ())
    /\ csv_records t = FIELDNAMES :: olds ++ news
    /\ outfile t = Some (csv_writerow <$> FIELDNAMES :: olds ++ news)
    /\ md5_calls t = files
    /\ (forall f, f ∈ files <-> f ∈ all_files /\ f ∉ dict_keys cl).
Proof.
  intros dest all_files files Htext Hrows Hopen Holds Hnews.
  pose proof (Forall2_length _ _ _ Hnews) as Hlen.
  pose proof (setup_file w args_path out cl files
                (resume_existing w dest all_files text cl Htext Hrows) Hopen)
    as Hsetup.
  destruct (setup_events _ _ _ _ _ _ _ _ Hsetup) as (Hrec0 & Hmd0 & _).
  eexists. split_and!.
  - by apply (inventory_ok _ _ _ _ _ _ _ _ olds news Hsetup).
  - by apply run_events_records.
  - by apply run_events_outfile.
  - by apply run_events_md5_calls.
  - intros f. unfold files. rewrite set_iter_perm, elem_of_elements.
    by rewrite elem_of_difference, !elem_of_list_to_set.
Qed.

Lemma inventory_Ok_inv (w : world) (args_path : string) (args_outfile : option string) t :
  inventory w args_path args_outfile = (t, Ok ()) ->
  exists t0 all_files cl files fh olds news,
    setup w args_path args_outfile = (t0, Ok (all_files, cl, files, fh))
    /\ Forall2 (fun item record => copied_record item.2 = Ok record) cl olds
    /\ Forall2 (fun f record => fresh_record w f = Ok record) files news
    /\ t = run_events t0 fh (total_of all_files) (Z.of_nat (length cl)) olds
             (zip files news).
Proof.
  intros Hrun. pose proof Hrun as Hrun'. unfold inventory in Hrun'.
  apply bind_Ok_inv in Hrun' as (t0 & [[[all_files cl] files] fh] & t1 & Hsetup & Hwrite & _).
  destruct (write_inventory_inv _ _ _ _ _ _ Hwrite) as (olds & news & Holds & Hnews).
  exists t0, all_files, cl, files, fh, olds, news. split_and!; [done | done | done |].
  rewrite (inventory_ok _ _ _ _ _ _ _ _ _ _ Hsetup Holds Hnews) in Hrun.
  by injection Hrun as <-.
Qed.

(** C3 (as the code has it). The paths [list_files] returns are exactly
    those reached from the root through names none of which begins with a
    dot: a hidden file is not listed, and nothing below a hidden directory
    is, at any depth (the root itself is not looked at).  The files a run of
    [inventory] examines are among those paths, and a run that loads no
    inventory (no destination, or a destination that does not exist yet)
    writes the rows of the listed files and no other.  Nothing is said of a
    run that resumes: the rows it loads are copied as they are. *)
Theorem list_files_prunes_hidden (w : world) :
  (forall top p,
     p ∈ list_files w top
     <-> exists entries chain,
           scandir w top = Some entries /\ tree_file entries chain
           /\ Forall visible chain /\ p = join_chain top chain)
  /\ (forall args_path args_outfile t0 all_files cl files fh,
        setup w args_path args_outfile = (t0, Ok (all_files, cl, files, fh)) ->
        forall f, f ∈ files -> f ∈ list_files w (SEARCHROOT w args_path))
  /\ (forall args_path args_outfile t,
        args_outfile = None
        \/ (exists out, args_outfile = Some out
                        /\ open_r w (posixpath.abspath (getcwd w) out)
                           = Raise "FileNotFoundError") ->
        inventory w args_path args_outfile = (t, Ok ()) ->
        exists news,
          csv_records t = FIELDNAMES :: news
          /\ Forall2 (fun f record => fresh_record w f = Ok record)
                     (list_files w (SEARCHROOT w args_path)) news).
Proof.
  split; [apply list_files_chains |]. split.
  - intros args_path [out|] t0 all_files cl files fh Hsetup f Hf.
    + destruct (setup_file_inv _ _ _ _ _ _ _ _ Hsetup) as (_ & -> & _ & _ & Hresume).
      destruct (resume_inv _ _ _ _ _ _ Hresume)
        as [_ [(text & _ & _ & ->)|(_ & _ & ->)]]; [| done].
      rewrite set_iter_perm, elem_of_elements, elem_of_difference in Hf.
      destruct Hf as [Hf _]. by apply elem_of_list_to_set in Hf.
    + rewrite setup_stdout in Hsetup. by injection Hsetup as _ _ _ <- _.
  - intros args_path args_outfile t Hfresh Hrun.
    destruct (inventory_Ok_inv _ _ _ _ Hrun)
      as (t0 & all_files & cl & files & fh & olds & news & Hsetup & Holds & Hnews & ->).
    assert (Hloaded : cl = [] /\ files = list_files w (SEARCHROOT w args_path)).
    { destruct Hfresh as [->|(out & -> & Hmissing)].
      - rewrite setup_stdout in Hsetup. by injection Hsetup as _ _ <- <- _.
      - destruct (setup_file_inv _ _ _ _ _ _ _ _ Hsetup) as (_ & -> & _ & _ & Hresume).
        rewrite (resume_missing _ _ _ Hmissing) in Hresume.
        by injection Hresume as <- <-. }
    destruct Hloaded as [-> ->]. apply Forall2_nil_inv_l in Holds as ->.
    exists news. split; [| done].
    destruct (setup_events _ _ _ _ _ _ _ _ Hsetup) as (Hrec0 & _ & _).
    rewrite run_events_records; [done | by eapply Forall2_length | done].
Qed.

End inventory_facts.

(** ** Strings *)

Section string_facts.
Implicit Types (s t : string) (c a : ascii).

Lemma app_cons_s a s t : String a s +:+ t = String a (s +:+ t).
Proof. reflexivity. Qed.

Lemma app_nil_l_s t : EmptyString +:+ t = t.
Proof. reflexivity. Qed.

Lemma app_assoc_s s1 s2 s3 : (s1 +:+ s2) +:+ s3 = s1 +:+ (s2 +:+ s3).
Proof.
  induction s1 as [|a s1 IH]; [done |]. rewrite !app_cons_s. by rewrite IH.
Qed.

Lemma app_nil_r_s s : s +:+ EmptyString = s.
Proof. induction s as [|a s IH]; [done |]. rewrite app_cons_s. by rewrite IH. Qed.

Lemma has_char_app c s t :
  Str.has_char c (s +:+ t) = Str.has_char c s || Str.has_char c t.
Proof.
  induction s as [|a s IH]; [done |]. rewrite app_cons_s. simpl.
  by case_decide.
Qed.

Lemma split_no_char c s : Str.has_char c s = false -> Str.split c s = [s].
Proof.
  induction s as [|a s IH]; simpl; [done |].
  case_decide; [done |]. intros Hs. by rewrite IH.
Qed.

Lemma split_app_sep c s t :
  Str.has_char c s = false ->
  Str.split c (s +:+ String c t) = s :: Str.split c t.
Proof.
  induction s as [|a s IH]; [| rewrite app_cons_s]; simpl.
  - intros _. by rewrite decide_True.
  - case_decide; [done |]. intros Hs. by rewrite IH.
Qed.

Lemma split_no_sep c s : Forall (fun x => Str.has_char c x = false) (Str.split c s).
Proof.
  induction s as [|a s IH]; simpl; [by repeat constructor |].
  case_decide; [by constructor |].
  destruct (Str.split c s) as [|f fs]; [repeat constructor; simpl; by rewrite decide_False |].
  apply Forall_cons in IH as [? ?]. constructor; [| done].
  simpl. by rewrite decide_False.
Qed.

Lemma rsplit_after_no_char c s :
  Str.has_char c s = false -> Str.rsplit_after c s = (EmptyString, s).
Proof.
  induction s as [|a s IH]; simpl; [done |].
  case_decide; [done |]. intros Hs. by rewrite IH, Hs.
Qed.

Lemma rsplit_after_app_sep c s t :
  Str.has_char c t = false ->
  Str.rsplit_after c (s +:+ String c t) = (s +:+ String c EmptyString, t).
Proof.
  intros Ht. induction s as [|a s IH]; [| rewrite !app_cons_s]; simpl.
  - rewrite rsplit_after_no_char, Ht by done. by rewrite decide_True.
  - rewrite IH, has_char_app. simpl. rewrite decide_True by done.
    by rewrite orb_true_r.
Qed.

Lemma repeat_snoc c n : Str.repeat c (S n) = Str.repeat c n +:+ String c EmptyString.
Proof.
  induction n as [|n IH]; [done |].
  change (Str.repeat c (S (S n))) with (String c (Str.repeat c (S n))).
  rewrite IH at 1. done.
Qed.

Lemma length_repeat c n : String.length (Str.repeat c n) = n.
Proof. induction n as [|n IH]; simpl; [done | by rewrite IH]. Qed.

Lemma length_app_s s t : String.length (s +:+ t) = (String.length s + String.length t)%nat.
Proof.
  induction s as [|a s IH]; [done |]. rewrite app_cons_s. simpl. by rewrite IH.
Qed.

Lemma app_eq_nil_s s t : s +:+ t = EmptyString -> s = EmptyString /\ t = EmptyString.
Proof. destruct s; [done | discriminate]. Qed.

Lemma ends_with_char_app c s t :
  t <> EmptyString -> Str.ends_with_char c (s +:+ t) = Str.ends_with_char c t.
Proof.
  intros Ht. induction s as [|a s IH]; [done |]. rewrite app_cons_s. simpl.
  rewrite IH. destruct (s +:+ t) eqn:E; [| done].
  by apply app_eq_nil_s in E as [_ ?].
Qed.

Lemma ends_with_char_has c s :
  Str.ends_with_char c s = true -> Str.has_char c s = true.
Proof.
  induction s as [|a s IH]; simpl; [done |].
  destruct s as [|b s].
  - intros ?%bool_decide_eq_true. by rewrite decide_True.
  - intros Hs. case_decide; [done |]. by apply IH.
Qed.

Lemma rstrip_not_ending c s :
  Str.ends_with_char c s = false -> Str.rstrip c s = s.
Proof.
  induction s as [|a s IH]; simpl; [done |].
  destruct s as [|b s].
  - intros ?%bool_decide_eq_false. simpl. by rewrite decide_False.
  - intros Hs. rewrite IH by done. done.
Qed.

Lemma rstrip_snoc c s :
  s <> EmptyString -> Str.ends_with_char c s = false ->
  Str.rstrip c (s +:+ String c EmptyString) = s.
Proof.
  induction s as [|a s IH]; [done |]. intros _ Hs.
  destruct s as [|b s].
  - simpl in *. apply bool_decide_eq_false in Hs.
    rewrite decide_True by done. by rewrite decide_False.
  - rewrite app_cons_s.
    change (Str.rstrip c (String a ?x))
      with (match Str.rstrip c x with
            | EmptyString => if decide (a = c) then EmptyString else String a EmptyString
            | r => String a r end).
    rewrite IH by done. done.
Qed.

End string_facts.

(** ** Paths *)

Section path_facts.
Implicit Types (s t n : string) (l cs chain : list string).

Lemma proper_name_spec n :
  proper_name n = true <-> n <> EmptyString /\ Str.has_char "/" n = false.
Proof.
  unfold proper_name. rewrite andb_true_iff, !negb_true_iff, bool_decide_eq_false.
  done.
Qed.

Lemma join_cons_cons n n' l :
  Str.join "/" (n :: n' :: l) = n +:+ "/" +:+ Str.join "/" (n' :: l).
Proof. reflexivity. Qed.

Lemma join_snoc l n :
  l <> [] -> Str.join "/" (l ++ [n]) = Str.join "/" l +:+ "/" +:+ n.
Proof.
  induction l as [|a l IH]; [done |]. intros _.
  destruct l as [|b l]; [done |].
  change ((a :: b :: l) ++ [n]) with (a :: b :: (l ++ [n])).
  rewrite !join_cons_cons.
  change (b :: l ++ [n]) with ((b :: l) ++ [n]). rewrite IH by done.
  by rewrite !app_assoc_s.
Qed.

Lemma startswith_char (c a : ascii) s :
  Str.startswith (String c EmptyString) (String a s) = bool_decide (c = a).
Proof.
  unfold Str.startswith.
  change (String.prefix (String c EmptyString) (String a s))
    with (if Ascii.ascii_dec c a then String.prefix EmptyString s else false).
  destruct (Ascii.ascii_dec c a).
  - rewrite bool_decide_eq_true_2 by done. by destruct s.
  - by rewrite bool_decide_eq_false_2.
Qed.

Lemma startswith_char_app (c : ascii) s t :
  s <> EmptyString ->
  Str.startswith (String c EmptyString) (s +:+ t)
  = Str.startswith (String c EmptyString) s.
Proof.
  destruct s as [|a s]; [done |]. intros _.
  by rewrite app_cons_s, !startswith_char.
Qed.

Lemma proper_not_slash_start n : proper_name n = true -> Str.startswith "/" n = false.
Proof.
  intros [Hne Hs]%proper_name_spec. destruct n as [|a n]; [done |].
  rewrite startswith_char. apply bool_decide_eq_false_2. intros <-.
  by simpl in Hs.
Qed.

Lemma proper_not_slash_end n : proper_name n = true -> Str.ends_with_char "/" n = false.
Proof.
  intros [Hne Hs]%proper_name_spec.
  destruct (Str.ends_with_char "/" n) eqn:E; [| done].
  apply ends_with_char_has in E. congruence.
Qed.

Lemma join_proper l :
  l <> [] -> Forall (fun n => proper_name n = true) l ->
  Str.join "/" l <> EmptyString
  /\ Str.ends_with_char "/" (Str.join "/" l) = false
  /\ Str.startswith "/" (Str.join "/" l) = false
  /\ Str.split "/" (Str.join "/" l) = l.
Proof.
  induction l as [|a l IH]; [done |]. intros _ [Ha Hl]%Forall_cons.
  pose proof Ha as [Hne Hs]%proper_name_spec.
  destruct l as [|b l].
  - split_and!; [done | by apply proper_not_slash_end
                 | by apply proper_not_slash_start | by apply split_no_char].
  - destruct (IH ltac:(done) Hl) as (Hj1 & Hj2 & Hj3 & Hj4).
    rewrite join_cons_cons. split_and!.
    + destruct a; [done | discriminate].
    + rewrite <- app_assoc_s. by rewrite ends_with_char_app.
    + rewrite startswith_char_app by done. by apply proper_not_slash_start.
    + change ("/" +:+ Str.join "/" (b :: l)) with (String "/" (Str.join "/" (b :: l))).
      rewrite split_app_sep by done. by rewrite Hj4.
Qed.

Lemma repeat_slash_facts k :
  (1 <= k)%nat ->
  Str.repeat "/" k <> EmptyString
  /\ Str.ends_with_char "/" (Str.repeat "/" k) = true
  /\ Str.startswith "/" (Str.repeat "/" k) = true.
Proof.
  destruct k as [|k]; [lia |]. intros _.
  split_and!; [done | | apply startswith_char].
  rewrite repeat_snoc. by rewrite ends_with_char_app.
Qed.

Lemma posix_join_proper a n :
  proper_name n = true -> a <> EmptyString ->
  posixpath.join a n
  = if Str.ends_with_char "/" a then a +:+ n else a +:+ "/" +:+ n.
Proof.
  intros Hn Ha. unfold posixpath.join.
  rewrite (proper_not_slash_start _ Hn), bool_decide_eq_false_2 by done.
  done.
Qed.

Lemma rooted_snoc k cs n :
  (1 <= k)%nat -> Forall (fun n => proper_name n = true) cs -> proper_name n = true ->
  posixpath.join (rooted k cs) n = rooted k (cs ++ [n]).
Proof.
  intros Hk Hcs Hn. destruct (repeat_slash_facts k Hk) as (Hr1 & Hr2 & Hr3).
  unfold rooted. destruct cs as [|c cs].
  - change (Str.join "/" []) with EmptyString. rewrite app_nil_r_s.
    rewrite posix_join_proper, Hr2 by done. done.
  - destruct (join_proper (c :: cs) ltac:(done) Hcs) as (Hj1 & Hj2 & _).
    rewrite posix_join_proper; [| done |].
    + rewrite ends_with_char_app, Hj2 by done.
      rewrite join_snoc by done. by rewrite !app_assoc_s.
    + intros [? ?]%app_eq_nil_s. done.
Qed.

Lemma join_chain_rooted k chain : forall cs,
  (1 <= k)%nat -> Forall (fun n => proper_name n = true) cs ->
  Forall (fun n => proper_name n = true) chain ->
  join_chain (rooted k cs) chain = rooted k (cs ++ chain).
Proof.
  induction chain as [|n chain IH]; intros cs Hk Hcs Hchain.
  - by rewrite app_nil_r.
  - apply Forall_cons in Hchain as [Hn Hchain]. unfold join_chain. simpl.
    rewrite rooted_snoc by done. fold (join_chain (rooted k (cs ++ [n])) chain).
    rewrite IH; [by rewrite <- app_assoc | done | | done].
    apply Forall_app. split; [done | by constructor].
Qed.

End path_facts.

Section normpath_facts.
Implicit Types (s t n : string) (l cs chain : list string).

Lemma startswith_cons (c a : ascii) p s :
  Str.startswith (String c p) (String a s)
  = bool_decide (c = a) && Str.startswith p s.
Proof.
  unfold Str.startswith.
  change (String.prefix (String c p) (String a s))
    with (if Ascii.ascii_dec c a then String.prefix p s else false).
  destruct (Ascii.ascii_dec c a).
  - by rewrite bool_decide_eq_true_2.
  - by rewrite bool_decide_eq_false_2.
Qed.

Lemma startswith_slash_join cs :
  Forall (fun n => proper_name n = true) cs ->
  Str.startswith "/" (Str.join "/" cs) = false.
Proof.
  intros Hcs. destruct cs as [|c cs]; [done |].
  by destruct (join_proper (c :: cs)) as (_ & _ & ? & _).
Qed.

Lemma normal_proper n : normal_comp n -> proper_name n = true.
Proof. by intros [? _]. Qed.

Lemma initial_slashes_rooted k cs :
  k = 1%nat \/ k = 2%nat -> Forall (fun n => proper_name n = true) cs ->
  posixpath.initial_slashes (rooted k cs) = k.
Proof.
  intros Hk Hcs. pose proof (startswith_slash_join cs Hcs) as Hj.
  unfold posixpath.initial_slashes, rooted.
  destruct Hk as [-> | ->].
  - change (Str.repeat "/" 1 +:+ ?x) with (String "/" x).
    rewrite startswith_char, bool_decide_eq_true_2 by done.
    rewrite startswith_cons, bool_decide_eq_true_2 by done.
    cbn [andb]. by rewrite Hj.
  - change (Str.repeat "/" 2 +:+ ?x) with (String "/" (String "/" x)).
    rewrite startswith_char, bool_decide_eq_true_2 by done.
    rewrite !startswith_cons, !bool_decide_eq_true_2 by done.
    cbn [andb]. rewrite Hj. by destruct (Str.join "/" cs).
Qed.

Lemma split_rooted k cs :
  Forall (fun n => proper_name n = true) cs ->
  Str.split "/" (rooted k cs)
  = replicate k EmptyString ++ (if decide (cs = []) then [EmptyString] else cs).
Proof.
  intros Hcs. unfold rooted. induction k as [|k IH].
  - change (Str.repeat "/" 0 +:+ ?x) with x. simpl.
    destruct cs as [|c cs]; [done |]. rewrite decide_False by done.
    by destruct (join_proper (c :: cs)) as (_ & _ & _ & ?).
  - change (Str.repeat "/" (S k) +:+ ?x) with (String "/" (Str.repeat "/" k +:+ x)).
    change (Str.split "/" (String "/" ?x)) with (EmptyString :: Str.split "/" x).
    by rewrite IH.
Qed.

Lemma norm_step_skip init acc : posixpath.norm_step init acc EmptyString = acc.
Proof. done. Qed.

Lemma norm_step_normal init acc n :
  normal_comp n -> posixpath.norm_step init acc n = acc ++ [n].
Proof.
  intros ([Hne _]%proper_name_spec & Hdot & Hdd). unfold posixpath.norm_step.
  rewrite !bool_decide_eq_false_2 by done. cbn [orb].
  by rewrite bool_decide_eq_true_2.
Qed.

Lemma foldl_norm_step_normal init cs : forall acc,
  Forall normal_comp cs -> foldl (posixpath.norm_step init) acc cs = acc ++ cs.
Proof.
  induction cs as [|c cs IH]; intros acc Hcs; simpl; [by rewrite app_nil_r |].
  apply Forall_cons in Hcs as [Hc Hcs]. rewrite norm_step_normal by done.
  rewrite IH by done. by rewrite <- app_assoc.
Qed.

Lemma foldl_norm_step_empties init k : forall acc,
  foldl (posixpath.norm_step init) acc (replicate k EmptyString) = acc.
Proof. induction k as [|k IH]; intros acc; [done |]. simpl. apply IH. Qed.

Lemma rooted_nonempty k cs : (1 <= k)%nat -> rooted k cs <> EmptyString.
Proof. destruct k; [lia |]. done. Qed.

Lemma normpath_rooted k cs :
  k = 1%nat \/ k = 2%nat -> Forall normal_comp cs ->
  posixpath.normpath (rooted k cs) = rooted k cs.
Proof.
  intros Hk Hcs.
  assert (Hp : Forall (fun n => proper_name n = true) cs)
    by (eapply Forall_impl; [done | apply normal_proper]).
  assert (Hne : rooted k cs <> EmptyString) by (apply rooted_nonempty; lia).
  unfold posixpath.normpath. rewrite bool_decide_eq_false_2 by done.
  rewrite initial_slashes_rooted, split_rooted by done.
  rewrite foldl_app, foldl_norm_step_empties.
  assert (Hfold : foldl (posixpath.norm_step k) []
                    (if decide (cs = []) then [EmptyString] else cs) = cs).
  { case_decide; [by subst |]. by rewrite foldl_norm_step_normal. }
  rewrite Hfold. fold (rooted k cs). by rewrite bool_decide_eq_false_2.
Qed.

Lemma last_normal acc : Forall normal_comp acc -> last acc <> Some "..".
Proof.
  intros Hacc Hlast. apply last_Some_elem_of in Hlast.
  eapply Forall_forall in Hacc; [| done]. by destruct Hacc as (_ & _ & ?).
Qed.

Lemma Forall_removelast {A} (P : A -> Prop) (l : list A) :
  Forall P l -> Forall P (removelast l).
Proof.
  induction 1 as [|x l Hx Hl IH]; [done |]. simpl.
  destruct l; [done |]. by constructor.
Qed.

Lemma norm_step_keeps_normal init acc comp :
  init <> 0%nat -> Str.has_char "/" comp = false -> Forall normal_comp acc ->
  Forall normal_comp (posixpath.norm_step init acc comp).
Proof.
  intros Hinit Hcomp Hacc. unfold posixpath.norm_step.
  destruct (bool_decide (comp = EmptyString)) eqn:E1; [done |].
  destruct (bool_decide (comp = ".")) eqn:E2; [done |]. cbn [orb].
  apply bool_decide_eq_false in E1, E2.
  destruct (bool_decide (comp <> "..")) eqn:E3; cbn [orb].
  - apply bool_decide_eq_true in E3. apply Forall_app. split; [done |].
    constructor; [| done]. split_and!; [| done | done].
    by apply proper_name_spec.
  - rewrite (bool_decide_eq_false_2 (init = 0%nat)) by done. cbn [andb orb].
    rewrite (bool_decide_eq_false_2 (last acc = Some "..")) by by apply last_normal.
    rewrite andb_false_r. by apply Forall_removelast.
Qed.

Lemma foldl_norm_step_keeps_normal init comps : forall acc,
  init <> 0%nat -> Forall (fun x => Str.has_char "/" x = false) comps ->
  Forall normal_comp acc ->
  Forall normal_comp (foldl (posixpath.norm_step init) acc comps).
Proof.
  induction comps as [|c comps IH]; intros acc Hinit Hcomps Hacc; [done |].
  apply Forall_cons in Hcomps as [Hc Hcomps]. simpl.
  apply IH; [done | done |]. by apply norm_step_keeps_normal.
Qed.

Lemma normpath_absolute p :
  Str.startswith "/" p = true ->
  exists k cs, (k = 1%nat \/ k = 2%nat) /\ Forall normal_comp cs
               /\ posixpath.normpath p = rooted k cs.
Proof.
  intros Hp. unfold posixpath.normpath.
  rewrite bool_decide_eq_false_2 by (intros ->; done).
  set (init := posixpath.initial_slashes p).
  assert (Hinit : init = 1%nat \/ init = 2%nat).
  { unfold init, posixpath.initial_slashes. rewrite Hp.
    destruct (_ && _); auto. }
  exists init, (foldl (posixpath.norm_step init) [] (Str.split posixpath.sep p)).
  split_and!; [done | |].
  - apply foldl_norm_step_keeps_normal; [lia | apply split_no_sep | done].
  - rewrite bool_decide_eq_false_2; [done |].
    apply (rooted_nonempty init). lia.
Qed.

Lemma abspath_form cwd p :
  posixpath.isabs cwd = true ->
  exists k cs, (k = 1%nat \/ k = 2%nat) /\ Forall normal_comp cs
               /\ posixpath.abspath cwd p = rooted k cs.
Proof.
  intros Hcwd. unfold posixpath.abspath. apply normpath_absolute.
  destruct (posixpath.isabs p) eqn:Hp; [done |].
  unfold posixpath.isabs in *. unfold posixpath.join. rewrite Hp.
  assert (cwd <> EmptyString) by (intros ->; done).
  destruct (_ || _); by rewrite startswith_char_app.
Qed.

Lemma not_all_slashes h m :
  h <> EmptyString -> Str.ends_with_char "/" h = false ->
  h +:+ "/" <> Str.repeat "/" m.
Proof.
  revert m. induction h as [|a h IH]; [done |]. intros m _ Hend.
  destruct m as [|m]; [done |]. rewrite app_cons_s. simpl. intros [= -> Heq].
  destruct h as [|b h]; [done |].
  by apply (IH m).
Qed.

Lemma rejoin_root k n :
  (1 <= k)%nat -> proper_name n = true ->
  let f := Str.repeat "/" k +:+ n in
  posixpath.join (posixpath.dirname f) (posixpath.basename f) = f.
Proof.
  intros Hk Hn f. pose proof Hn as [Hne Hs]%proper_name_spec.
  destruct k as [|k]; [lia |].
  assert (Hsplit : Str.rsplit_after posixpath.sep f = (Str.repeat "/" (S k), n)).
  { unfold f. rewrite repeat_snoc, app_assoc_s.
    change (String "/" EmptyString +:+ n) with (String "/" n).
    by rewrite rsplit_after_app_sep. }
  unfold posixpath.dirname, posixpath.basename. rewrite Hsplit. cbn [fst snd].
  rewrite length_repeat.
  rewrite (bool_decide_eq_false_2 (Str.repeat "/" (S k) <> Str.repeat posixpath.sep (S k)))
    by (intros Hx; by apply Hx).
  rewrite andb_false_r.
  destruct (repeat_slash_facts (S k)) as (? & Hend & _); [lia |].
  by rewrite posix_join_proper, Hend.
Qed.

Lemma rejoin_below h n :
  h <> EmptyString -> Str.ends_with_char "/" h = false -> proper_name n = true ->
  let f := h +:+ "/" +:+ n in
  posixpath.join (posixpath.dirname f) (posixpath.basename f) = f.
Proof.
  intros Hh Hend Hn f. pose proof Hn as [Hne Hs]%proper_name_spec.
  assert (Hsplit : Str.rsplit_after posixpath.sep f = (h +:+ "/", n)).
  { unfold f. change ("/" +:+ n) with (String "/" n).
    by rewrite rsplit_after_app_sep. }
  unfold posixpath.dirname, posixpath.basename. rewrite Hsplit. cbn [fst snd].
  rewrite !bool_decide_eq_true_2.
  - cbn [andb]. rewrite rstrip_snoc by done.
    by rewrite posix_join_proper, Hend.
  - by apply not_all_slashes.
  - by intros [_ ?]%app_eq_nil_s.
Qed.

Lemma rejoin_rooted k cs n :
  (1 <= k)%nat -> Forall (fun n => proper_name n = true) cs -> proper_name n = true ->
  let f := rooted k (cs ++ [n]) in
  posixpath.join (posixpath.dirname f) (posixpath.basename f) = f.
Proof.
  intros Hk Hcs Hn f. unfold f, rooted. destruct cs as [|c cs].
  - by apply rejoin_root.
  - rewrite join_snoc by done. rewrite <- app_assoc_s.
    destruct (join_proper (c :: cs) ltac:(done) Hcs) as (Hj1 & Hj2 & _).
    apply rejoin_below; [| | done].
    + by intros [_ ?]%app_eq_nil_s.
    + by rewrite ends_with_char_app.
Qed.

End normpath_facts.

(** ** The listing of a well-formed tree *)

Section listing_facts.

Lemma wf_node_Dir entries :
  wf_node (Dir entries) = true ->
  NoDup entries.*1
  /\ Forall (fun e => proper_name e.1 = true /\ wf_node e.2 = true) entries.
Proof.
  cbn [wf_node]. intros [Hnd Hall]%andb_true_iff. split.
  - by apply bool_decide_eq_true in Hnd.
  - apply Forall_forall. intros e He.
    rewrite forallb_forall in Hall. apply andb_true_iff, Hall.
    by apply list_elem_of_In.
Qed.

Lemma visible_proper_normal n :
  visible n -> proper_name n = true -> normal_comp n.
Proof. intros Hv Hp. split_and!; [done | by intros -> | by intros ->]. Qed.

Lemma tree_file_proper entries chain :
  tree_file entries chain -> wf_node (Dir entries) = true ->
  chain <> [] /\ Forall (fun n => proper_name n = true) chain.
Proof.
  induction 1 as [entries name n Hin Hd|entries name sub chain Hin _ IH];
    intros [_ Hall]%wf_node_Dir.
  - eapply Forall_forall in Hall as [? _]; [| done]. split; [done |].
    by repeat constructor.
  - eapply Forall_forall in Hall as [? ?]; [| done]. split; [done |].
    constructor; [done |]. by apply IH.
Qed.

(** The paths listed under a root in normal form. *)
Lemma listed_form (w : world) (k : nat) (cs : list string) (f : string) :
  k = 1%nat \/ k = 2%nat -> Forall normal_comp cs ->
  wf_root w (rooted k cs) = true ->
  f ∈ list_files w (rooted k cs) ->
  exists cs' n, Forall normal_comp cs' /\ normal_comp n /\ f = rooted k (cs' ++ [n]).
Proof.
  intros Hk Hcs Hwf Hf. rewrite list_files_files_of in Hf.
  unfold os_walk in Hf. unfold wf_root in Hwf.
  destruct (scandir w (rooted k cs)) as [entries|]; [| by apply elem_of_nil in Hf].
  apply (walk_files _ _ _ entries eq_refl) in Hf as (chain & Htree & Hvis & ->).
  destruct (tree_file_proper _ _ Htree Hwf) as [Hne Hproper].
  assert (Hnormal : Forall normal_comp chain).
  { apply Forall_forall. intros n Hn. apply visible_proper_normal.
    - by eapply Forall_forall in Hvis.
    - by eapply (Forall_forall (fun n => proper_name n = true)) in Hproper. }
  rewrite join_chain_rooted; [| lia | | done].
  - destruct chain as [|n chain _] using rev_ind; [done |].
    apply Forall_app in Hnormal as [Hchain [Hn _]%Forall_cons].
    exists (cs ++ chain), n. rewrite app_assoc. split_and!; [| done | done].
    apply Forall_app. done.
  - eapply Forall_impl; [done | apply normal_proper].
Qed.

(** The row written for a listed file gives its path back. *)
Lemma listed_key (w : world) (args_path f : string) :
  posixpath.isabs (getcwd w) = true ->
  wf_root w (SEARCHROOT w args_path) = true ->
  f ∈ list_files w (SEARCHROOT w args_path) ->
  posixpath.join (posixpath.dirname (posixpath.abspath (getcwd w) f))
                 (posixpath.basename f) = f.
Proof.
  intros Hcwd Hwf Hf. unfold SEARCHROOT in *.
  destruct (abspath_form (getcwd w) args_path Hcwd) as (k & cs & Hk & Hcs & Hroot).
  rewrite Hroot in Hwf, Hf.
  destruct (listed_form w k cs f Hk Hcs Hwf Hf) as (cs' & n & Hcs' & Hn & ->).
  assert (Hall : Forall normal_comp (cs' ++ [n])).
  { apply Forall_app. split; [done | by constructor]. }
  assert (Habs : posixpath.abspath (getcwd w) (rooted k (cs' ++ [n]))
                 = rooted k (cs' ++ [n])).
  { unfold posixpath.abspath, posixpath.isabs.
    assert (Hst : Str.startswith "/" (rooted k (cs' ++ [n])) = true).
    { unfold rooted. destruct (repeat_slash_facts k) as (? & _ & ?); [lia |].
      by rewrite startswith_char_app. }
    rewrite Hst. by apply normpath_rooted. }
  rewrite Habs. apply rejoin_rooted; [lia | | by apply normal_proper].
  eapply Forall_impl; [done | apply normal_proper].
Qed.

(** *** No path is listed twice *)

Lemma files_of_bind {A} (l : list A) (g : A -> list (string * list string * list string)) :
  files_of (l ≫= g) = l ≫= fun x => files_of (g x).
Proof.
  unfold files_of. induction l as [|x l IH]; [done |].
  by rewrite !bind_cons, bind_app, IH.
Qed.

Lemma files_of_walk (n : node) : forall top,
  files_of (walk (fun d => negb (hidden d)) top n)
  = join_chain top <$> visible_chains n.
Proof.
  induction n as [| |entries IH] using node_ind'; intros top;
    [reflexivity | reflexivity |].
  cbn [walk visible_chains]. unfold files_of at 1. rewrite bind_cons.
  fold (files_of (entries ≫= fun e =>
     if negb (hidden e.1)
     then walk (fun d => negb (hidden d)) (posixpath.join top e.1) e.2 else [])).
  cbn [fst snd]. rewrite fmap_app. f_equal.
  - rewrite <- list_fmap_compose. done.
  - rewrite files_of_bind. induction IH as [|e entries He _ IHentries]; [done |].
    rewrite !bind_cons, fmap_app, IHentries. f_equal.
    destruct (negb (hidden e.1)); [| done].
    rewrite He, <- list_fmap_compose. done.
Qed.

Lemma visible_chains_proper (n : node) : forall chain,
  wf_node n = true -> chain ∈ visible_chains n ->
  chain <> [] /\ Forall (fun n => proper_name n = true) chain.
Proof.
  induction n as [| |entries IH] using node_ind'; intros chain Hwf Hin;
    [by apply elem_of_nil in Hin | by apply elem_of_nil in Hin |].
  apply wf_node_Dir in Hwf as [_ Hall]. cbn [visible_chains] in Hin.
  apply elem_of_app in Hin as [Hin|Hin].
  - apply list_elem_of_fmap in Hin as (name & -> & [_ Hname]%list_elem_of_filter).
    apply elem_of_filenames in Hname as (n & Hn & _).
    eapply Forall_forall in Hall as [? _]; [| done].
    split; [done | by repeat constructor].
  - apply list_elem_of_bind in Hin as (e & Hin & He).
    destruct (negb (hidden e.1)); [| by apply elem_of_nil in Hin].
    apply list_elem_of_fmap in Hin as (chain' & -> & Hchain').
    eapply Forall_forall in Hall as [? ?]; [| done].
    eapply Forall_forall in IH; [| done].
    split; [done |]. constructor; [done |]. by apply IH.
Qed.

Lemma NoDup_filenames (entries : list (string * node)) :
  NoDup entries.*1 -> NoDup (filter visible (filenames entries)).
Proof.
  intros Hnd. apply NoDup_filter. unfold filenames.
  induction entries as [|[name n] entries IH]; [constructor |].
  apply NoDup_cons in Hnd as [Hname Hnd]. rewrite filter_cons.
  case_decide; [| by apply IH]. csimpl. apply NoDup_cons. split; [| by apply IH].
  intros (e & He & [_ Hin]%list_elem_of_filter)%list_elem_of_fmap.
  apply Hname. apply list_elem_of_fmap. by exists e.
Qed.

Lemma NoDup_visible_chains (n : node) :
  wf_node n = true -> NoDup (visible_chains n).
Proof.
  induction n as [| |entries IH] using node_ind'; intros Hwf;
    [constructor | constructor |].
  pose proof Hwf as [Hnd Hall]%wf_node_Dir. cbn [visible_chains].
  apply NoDup_app. split_and!.
  - apply NoDup_fmap; [by intros ?? [=] |]. by apply NoDup_filenames.
  - intros chain (name & -> & _)%list_elem_of_fmap
      (e & Hin & He)%list_elem_of_bind.
    destruct (negb (hidden e.1)); [| by apply elem_of_nil in Hin].
    apply list_elem_of_fmap in Hin as (chain' & [= _ Hnil] & Hchain').
    eapply Forall_forall in Hall as [_ Hsub]; [| done].
    destruct (visible_chains_proper _ _ Hsub Hchain') as [Hne _]. congruence.
  - clear Hwf. induction entries as [|e entries IHentries]; [constructor |].
    apply Forall_cons in IH as [IHe IH]. apply Forall_cons in Hall as [[_ He] Hall].
    csimpl in Hnd. apply NoDup_cons in Hnd as [Hname Hnd].
    rewrite bind_cons. apply NoDup_app. split_and!.
    + destruct (negb (hidden e.1)); [| constructor].
      apply NoDup_fmap; [by intros ?? [=] | by apply IHe].
    + intros chain Hin (e' & Hin' & He')%list_elem_of_bind.
      destruct (negb (hidden e.1)); [| by apply elem_of_nil in Hin].
      destruct (negb (hidden e'.1)); [| by apply elem_of_nil in Hin'].
      apply list_elem_of_fmap in Hin as (c1 & -> & _).
      apply list_elem_of_fmap in Hin' as (c2 & [= Heq _] & _).
      apply Hname. rewrite Heq. apply list_elem_of_fmap. by exists e'.
    + by apply IHentries.
Qed.

Lemma rooted_inj k l1 l2 :
  Forall (fun n => proper_name n = true) l1 ->
  Forall (fun n => proper_name n = true) l2 ->
  rooted k l1 = rooted k l2 -> l1 = l2.
Proof.
  intros H1 H2 Heq. unfold rooted in Heq. apply (inj _) in Heq.
  destruct l1 as [|a l1], l2 as [|b l2]; [done | | |].
  - destruct (join_proper (b :: l2)) as (Hne & _); [done | done |].
    by rewrite <- Heq in Hne.
  - destruct (join_proper (a :: l1)) as (Hne & _); [done | done |].
    by rewrite Heq in Hne.
  - destruct (join_proper (a :: l1)) as (_ & _ & _ & Hs1); [done | done |].
    destruct (join_proper (b :: l2)) as (_ & _ & _ & Hs2); [done | done |].
    by rewrite <- Hs1, <- Hs2, Heq.
Qed.

Lemma NoDup_list_files (w : world) (k : nat) (cs : list string) :
  k = 1%nat \/ k = 2%nat -> Forall normal_comp cs ->
  wf_root w (rooted k cs) = true ->
  NoDup (list_files w (rooted k cs)).
Proof.
  intros Hk Hcs Hwf. rewrite list_files_files_of. unfold os_walk, wf_root in *.
  destruct (scandir w (rooted k cs)) as [entries|]; [| constructor].
  rewrite files_of_walk.
  assert (Hp : Forall (fun n => proper_name n = true) cs)
    by (eapply Forall_impl; [done | apply normal_proper]).
  apply NoDup_fmap_2_strong; [| by apply NoDup_visible_chains].
  intros c1 c2 Hc1 Hc2.
  destruct (visible_chains_proper _ _ Hwf Hc1) as [_ Hp1].
  destruct (visible_chains_proper _ _ Hwf Hc2) as [_ Hp2].
  rewrite !join_chain_rooted by (done || lia).
  intros Heq%rooted_inj; [by apply (inj _) in Heq | |]; by apply Forall_app.
Qed.

End listing_facts.

(** ** Running inventory again *)

Section rerun_facts.
Context `{PyLib}.

Lemma dict_set_fresh {V} (k : string) (v : V) (d : dict V) :
  k ∉ dict_keys d -> dict_set k v d = d ++ [(k, v)].
Proof.
  unfold dict_keys. induction d as [|[k0 v0] d IH]; csimpl; [done |].
  intros Hk. apply not_elem_of_cons in Hk as [Hne Hk].
  rewrite decide_False by done. by rewrite IH.
Qed.


Lemma read_rows_fresh (rows : list csvrow) (keys : list string) : forall acc,
  Forall2 (fun row k => row_filepath row = Ok k) rows keys ->
  NoDup (dict_keys acc ++ keys) ->
  read_rows rows acc = Ok (acc ++ zip keys rows).
Proof.
  intros acc Hrows. revert acc.
  induction Hrows as [|row k rows keys Hrow _ IH]; intros acc Hnd; simpl.
  - by rewrite app_nil_r.
  - rewrite Hrow. simpl.
    assert (Hk : k ∉ dict_keys acc).
    { apply NoDup_app in Hnd as (_ & Hdis & _). intros Hin.
      apply (Hdis k Hin). by left. }
    rewrite dict_set_fresh by done. rewrite IH.
    + by rewrite <- app_assoc.
    + unfold dict_keys. rewrite fmap_app. csimpl. by rewrite <- app_assoc.
Qed.


(** Reading a record of seven fields under the header gives a row whose
    key joins the first two fields and which is written back as it was. *)
Lemma reread_key a1 a2 a3 a4 a5 a6 a7 :
  row_filepath (csv.make_row FIELDNAMES [a1; a2; a3; a4; a5; a6; a7])
  = Ok (posixpath.join a1 a2).
Proof. reflexivity. Qed.

Lemma reread_copy a1 a2 a3 a4 a5 a6 a7 :
  copied_record (csv.make_row FIELDNAMES [a1; a2; a3; a4; a5; a6; a7])
  = Ok [a1; a2; a3; a4; a5; a6; a7].
Proof. reflexivity. Qed.


Lemma fresh_record_shape (w : world) (f : string) (record : list string) :
  fresh_record w f = Ok record ->
  exists a3 a4 a5 a6 a7,
    record = [posixpath.dirname (posixpath.abspath (getcwd w) f);
              posixpath.basename f; a3; a4; a5; a6; a7].
Proof.
  unfold fresh_record, metadata, md5sum.
  destruct (getmtime w f) as [tstamp|?]; [| done].
  unfold lift. cbn [mbind M_bind].
  destruct (strftime_local tstamp) as [moddate|?]; [| done].
  destruct (getsize w f) as [size|?]; [| done].
  destruct (open_rb w f) as [data|?]; [| done].
  intros [= <-]. by eexists _, _, _, _, _.
Qed.

End rerun_facts.

Section rerun_theorem.
Context `{PyLib}.


Lemma fresh_rereads (w : world) (args_path : string) (files : list string)
    (news : list (list string)) :
  posixpath.isabs (getcwd w) = true ->
  wf_root w (SEARCHROOT w args_path) = true ->
  (forall f, f ∈ files -> f ∈ list_files w (SEARCHROOT w args_path)) ->
  Forall2 (fun f record => fresh_record w f = Ok record) files news ->
  Forall2 rereads news files.
Proof.
  intros Hcwd Hwf Hsub Hnews.
  induction Hnews as [|f record files news Hrec _ IH]; [constructor |].
  constructor.
  - destruct (fresh_record_shape w f record Hrec) as (? & ? & ? & ? & ? & ->).
    split_and!; [| apply reread_copy | done].
    rewrite reread_key. f_equal. apply (listed_key w args_path f); [done | done |].
    apply Hsub. by left.
  - apply IH. intros ??. apply Hsub. by right.
Qed.

Lemma DictReader_rereads (records : list (list string)) (keys : list string) :
  Forall2 rereads records keys ->
  Forall2 (fun row k => row_filepath row = Ok k)
          (csv.DictReader (FIELDNAMES :: records)) keys
  /\ csv.DictReader (FIELDNAMES :: records) = csv.make_row FIELDNAMES <$> records.
Proof.
  intros Hrec. unfold csv.DictReader.
  assert (Hfilter : filter (fun r : list string => r <> []) records = records).
  { induction Hrec as [|r k records keys (_ & _ & Hne) _ IH]; [done |].
    rewrite filter_cons, decide_True by done. by rewrite IH. }
  rewrite Hfilter. split; [| done].
  apply Forall2_fmap_l. eapply Forall2_impl; [done |]. by intros ?? (? & _).
Qed.




End rerun_theorem.

(** ** compare: the Tivoli pattern *)

Section tivoli_facts.
Implicit Types (s g : string).

Lemma prefix_app_iff p s :
  String.prefix p s = true <-> exists r, s = p +:+ r.
Proof.
  revert s. induction p as [|a p IH]; intros s.
  - split; [intros _; by exists s | by destruct s].
  - destruct s as [|b s]; [split; [done | by intros [? ?]] |].
    change (String.prefix (String a p) (String b s))
      with (if Ascii.ascii_dec a b then String.prefix p s else false).
    destruct (Ascii.ascii_dec a b) as [->|Hne].
    + rewrite IH. split; intros [r Hr]; exists r.
      * by rewrite app_cons_s, Hr.
      * rewrite app_cons_s in Hr. congruence.
    + split; [done |]. intros [r Hr]. rewrite app_cons_s in Hr. congruence.
Qed.

Lemma take_drop_s k s : Str.take k s +:+ Str.drop k s = s.
Proof.
  revert s. induction k as [|k IH]; intros [|a s]; try done.
  simpl. by rewrite app_cons_s, IH.
Qed.

Lemma take_run_no_backslash k s :
  (k <= run_length s)%nat -> Str.has_char backslash (Str.take k s) = false.
Proof.
  revert s. induction k as [|k IH]; intros [|a s]; try done.
  simpl. case_decide; [lia |]. intros ?. apply IH. lia.
Qed.

Lemma take_nonempty k s :
  (1 <= k <= run_length s)%nat -> Str.take k s <> EmptyString.
Proof. destruct k, s; simpl; try lia; try done. Qed.

Lemma sent_match_at_Some s k g :
  sent_match_at s k = Some g ->
  exists j, (1 <= j <= k)%nat /\ g = Str.take j s
            /\ Str.startswith " [Sent]" (Str.drop j s) = true.
Proof.
  induction k as [|k IH]; [done |]. cbn [sent_match_at].
  destruct (Str.startswith " [Sent]" (Str.drop (S k) s)) eqn:E.
  - intros [= <-]. exists (S k). split_and!; [lia | lia | done | done].
  - intros (j & ? & ? & ?)%IH. exists j. split_and!; [lia | lia | done | done].
Qed.

Lemma sent_match_at_is_Some s k j :
  (1 <= j <= k)%nat -> Str.startswith " [Sent]" (Str.drop j s) = true ->
  is_Some (sent_match_at s k).
Proof.
  intros Hj Hst. induction k as [|k IH]; [lia |]. cbn [sent_match_at].
  destruct (Str.startswith " [Sent]" (Str.drop (S k) s)) eqn:E; [done |].
  apply IH. destruct (decide (j = S k)) as [->|]; [congruence | lia].
Qed.

Lemma sent_search_unfold s :
  sent_search s
  = match sent_match_at s (run_length s) with
    | Some g => Some g
    | None =>
        match s with
        | EmptyString => None
        | String _ s' => sent_search s'
        end
    end.
Proof. by destruct s. Qed.

Lemma run_length_app g r :
  Str.has_char backslash g = false ->
  (String.length g <= run_length (g +:+ r))%nat.
Proof.
  induction g as [|a g IH]; [simpl; lia |]. rewrite app_cons_s. simpl.
  case_decide; [done |]. intros ?%IH. lia.
Qed.

Lemma drop_length_app g r : Str.drop (String.length g) (g +:+ r) = r.
Proof. induction g as [|a g IH]; [by destruct r | by rewrite app_cons_s]. Qed.

Lemma sent_search_Some s g :
  sent_search s = Some g ->
  g <> EmptyString /\ Str.has_char backslash g = false
  /\ exists pre post, s = pre +:+ g +:+ " [Sent]" +:+ post.
Proof.
  induction s as [|a s IH]; rewrite sent_search_unfold.
  - done.
  - destruct (sent_match_at (String a s) (run_length (String a s))) as [g'|] eqn:E.
    + intros [= ->]. apply sent_match_at_Some in E as (j & Hj & -> & Hst).
      split_and!; [by apply take_nonempty | by apply take_run_no_backslash; lia |].
      apply prefix_app_iff in Hst as [post Hpost]. exists EmptyString, post.
      rewrite app_nil_l_s, <- Hpost. by rewrite take_drop_s.
    + intros (Hne & Hbs & pre & post & ->)%IH. split_and!; [done | done |].
      by exists (String a pre), post.
Qed.

Lemma sent_search_is_Some pre g post :
  g <> EmptyString -> Str.has_char backslash g = false ->
  is_Some (sent_search (pre +:+ g +:+ " [Sent]" +:+ post)).
Proof.
  intros Hne Hbs. induction pre as [|a pre IH]; rewrite sent_search_unfold.
  - rewrite app_nil_l_s.
    destruct (sent_match_at_is_Some (g +:+ " [Sent]" +:+ post)
                (run_length (g +:+ " [Sent]" +:+ post)) (String.length g))
      as [g' ->]; [| | done].
    + split; [destruct g; [done | simpl; lia] | by apply run_length_app].
    + rewrite drop_length_app. apply prefix_app_iff. by exists post.
  - rewrite app_cons_s. destruct (sent_match_at _ _); [done | exact IH].
Qed.


Lemma elem_of_parse_tivoli (rawlines : list string) (x : entry) :
  x ∈ parse_tivoli rawlines
  <-> exists line g, line ∈ rawlines /\ Str.contains "Normal File-->" line = true
                     /\ sent_search line = Some g /\ x = Some g.
Proof.
  unfold parse_tivoli. rewrite list_elem_of_bind. split.
  - intros (line & Hx & Hline).
    destruct (Str.contains "Normal File-->" line) eqn:Hmark; [| by apply elem_of_nil in Hx].
    destruct (sent_search line) as [g|] eqn:Hg; [| by apply elem_of_nil in Hx].
    apply list_elem_of_singleton in Hx as ->. by exists line, g.
  - intros (line & g & Hline & Hmark & Hg & ->). exists line.
    rewrite Hmark, Hg. split; [by left | done].
Qed.

(** X5. Every value taken from a Tivoli report is a text found in one of its
    lines marked "Normal File-->": it is not empty, has no backslash, and is
    followed by " [Sent]" in that line. *)
Theorem tivoli_values_are_sent_paths (rawlines : list string) (x : entry) :
  x ∈ parse_tivoli rawlines ->
  exists line g pre post,
    x = Some g /\ line ∈ rawlines
    /\ Str.contains "Normal File-->" line = true
    /\ line = pre +:+ g +:+ " [Sent]" +:+ post
    /\ g <> EmptyString /\ Str.has_char backslash g = false.
Proof.
  intros (line & g & Hline & Hmark & Hg & ->)%elem_of_parse_tivoli.
  apply sent_search_Some in Hg as (Hne & Hbs & pre & post & ->).
  by exists (pre +:+ g +:+ " [Sent]" +:+ post), g, pre, post.
Qed.

(** X6. A marked line in which some text without backslash is followed by
    " [Sent]" contributes a value, so that the report counts as parsed. *)
Theorem tivoli_sent_line_is_extracted (rawlines : list string)
    (line pre g post : string) :
  line ∈ rawlines ->
  Str.contains "Normal File-->" line = true ->
  line = pre +:+ g +:+ " [Sent]" +:+ post ->
  g <> EmptyString -> Str.has_char backslash g = false ->
  exists g', Some g' ∈ parse_tivoli rawlines.
Proof.
  intros Hline Hmark -> Hne Hbs.
  destruct (sent_search_is_Some pre g post Hne Hbs) as [g' Hg'].
  exists g'. apply elem_of_parse_tivoli.
  by exists (pre +:+ g +:+ " [Sent]" +:+ post), g'.
Qed.

(** *** Which text is taken *)

Lemma drop_drop_s j k s : Str.drop j (Str.drop k s) = Str.drop (k + j) s.
Proof.
  revert s. induction k as [|k IH]; intros s; [done |].
  destruct s as [|a s]; [by destruct j | apply IH].
Qed.

Lemma contains_drop p k s :
  Str.startswith p (Str.drop k s) = true -> Str.contains p s = true.
Proof.
  revert s. induction k as [|k IH]; intros s.
  - assert (Str.drop 0 s = s) as -> by (by destruct s).
    unfold Str.startswith. intros Hp. destruct s; cbn [Str.contains]; by rewrite Hp.
  - destruct s as [|a s]; [intros Hp; apply (IH EmptyString); by destruct k |].
    intros Hp%IH. cbn [Str.contains]. rewrite Hp. apply orb_true_r.
Qed.

Lemma sent_match_at_last s K n :
  (1 <= n <= K)%nat ->
  Str.startswith " [Sent]" (Str.drop n s) = true ->
  Str.contains " [Sent]" (Str.drop (S n) s) = false ->
  sent_match_at s K = Some (Str.take n s).
Proof.
  intros Hn Hst Hlater. induction K as [|K IH]; [lia |]. cbn [sent_match_at].
  destruct (decide (n = S K)) as [->|Hne]; [by rewrite Hst |].
  destruct (Str.startswith " [Sent]" (Str.drop (S K) s)) eqn:E; [| apply IH; lia].
  replace (S K) with (S n + (K - n))%nat in E by lia.
  rewrite <- drop_drop_s in E. apply contains_drop in E. congruence.
Qed.

Lemma take_length_app g r : Str.take (String.length g) (g +:+ r) = g.
Proof.
  induction g as [|a g IH]; [by destruct r |]. rewrite app_cons_s. simpl.
  by rewrite IH.
Qed.

Lemma drop_S_length_app g a r :
  Str.drop (S (String.length g)) (g +:+ String a r) = r.
Proof. induction g as [|b g IH]; [done | by rewrite app_cons_s]. Qed.

Lemma sent_search_whole g post :
  g <> EmptyString -> Str.has_char backslash g = false ->
  Str.contains " [Sent]" ("[Sent]" +:+ post) = false ->
  sent_search (g +:+ " [Sent]" +:+ post) = Some g.
Proof.
  intros Hne Hbs Hpost. rewrite sent_search_unfold.
  rewrite (sent_match_at_last _ _ (String.length g)).
  - by rewrite take_length_app.
  - split; [destruct g; [done | simpl; lia] | by apply run_length_app].
  - rewrite drop_length_app. apply prefix_app_iff. by exists post.
  - change (" [Sent]" +:+ post) with (String " " ("[Sent]" +:+ post)).
    by rewrite drop_S_length_app.
Qed.

Lemma prefix_before p pre b r :
  Str.has_char b p = false ->
  String.prefix p (pre +:+ String b r) = true -> String.prefix p pre = true.
Proof.
  revert pre. induction p as [|c p IH]; intros pre Hb; [by destruct pre |].
  simpl in Hb. case_decide as Hcb; [done |].
  destruct pre as [|a pre].
  - rewrite app_nil_l_s.
    change (String.prefix (String c p) (String b r))
      with (if Ascii.ascii_dec c b then String.prefix p r else false).
    by destruct (Ascii.ascii_dec c b).
  - rewrite app_cons_s.
    change (String.prefix (String c p) (String a (pre +:+ String b r)))
      with (if Ascii.ascii_dec c a then String.prefix p (pre +:+ String b r) else false).
    change (String.prefix (String c p) (String a pre))
      with (if Ascii.ascii_dec c a then String.prefix p pre else false).
    destruct (Ascii.ascii_dec c a); [by apply IH | done].
Qed.

Lemma no_match_before_backslash pre r : forall k,
  Str.contains " [Sent]" pre = false ->
  (k <= run_length (pre +:+ String backslash r))%nat ->
  Str.startswith " [Sent]" (Str.drop k (pre +:+ String backslash r)) = false.
Proof.
  induction pre as [|a pre IH]; intros k Hpre Hk.
  - rewrite app_nil_l_s in *. cbn [run_length] in Hk.
    rewrite decide_True in Hk by done.
    assert (k = 0%nat) as -> by lia. done.
  - rewrite app_cons_s in *. cbn [Str.contains] in Hpre.
    apply orb_false_iff in Hpre as [Hhere Hpre].
    destruct k as [|k].
    + apply not_true_is_false. intros Hst. cbn [Str.drop] in Hst.
      rewrite <- app_cons_s in Hst.
      apply (prefix_before _ _ backslash) in Hst; [congruence | done].
    + cbn [Str.drop]. apply IH; [done |]. cbn [run_length] in Hk.
      case_decide; lia.
Qed.

Lemma sent_match_at_None s : forall K,
  (forall k, (k <= K)%nat -> Str.startswith " [Sent]" (Str.drop k s) = false) ->
  sent_match_at s K = None.
Proof.
  induction K as [|K IH]; intros Hno; [done |]. cbn [sent_match_at].
  rewrite (Hno (S K)) by lia. apply IH. intros k ?. apply Hno. lia.
Qed.

(** X7. The text taken from a line.  When " [Sent]" occurs once, after a text
    [g] without backslash: if a backslash precedes [g], the value is [g],
    the last component of a Windows path; if the line has no backslash
    before " [Sent]", the value is the line from its beginning, marker
    included. *)
Theorem sent_search_takes_last_component (g post : string) :
  g <> EmptyString -> Str.has_char backslash g = false ->
  Str.contains " [Sent]" ("[Sent]" +:+ post) = false ->
  sent_search (g +:+ " [Sent]" +:+ post) = Some g
  /\ forall pre,
       Str.contains " [Sent]" pre = false ->
       sent_search (pre +:+ String backslash (g +:+ " [Sent]" +:+ post)) = Some g.
Proof.
  intros Hne Hbs Hpost. split; [by apply sent_search_whole |].
  induction pre as [|a pre IH]; intros Hpre; rewrite sent_search_unfold.
  - rewrite app_nil_l_s. cbn [run_length]. rewrite decide_True by done.
    cbn [sent_match_at]. by apply sent_search_whole.
  - rewrite sent_match_at_None.
    + rewrite app_cons_s. apply IH. cbn [Str.contains] in Hpre.
      by apply orb_false_iff in Hpre as [_ ?].
    + intros k Hk. by apply no_match_before_backslash.
Qed.

End tivoli_facts.

(** ** compare: errors and counts *)

Section more_compare_facts.
Context `{PyLib}.

(** The keys of a row are names of the header. *)
Lemma dict_of_keys {V} (pairs : list (string * V)) : forall acc k,
  k ∈ dict_keys (foldl (fun d kv => dict_set kv.1 kv.2 d) acc pairs) ->
  k ∈ dict_keys acc \/ k ∈ pairs.*1.
Proof.
  induction pairs as [|[k0 v0] pairs IH]; intros acc k; simpl; [by left |].
  intros [Hk|Hk]%IH; [| right; by right].
  rewrite dict_keys_set in Hk. case_decide; [by left |].
  apply elem_of_app in Hk as [?|Hs]; [by left |].
  apply list_elem_of_singleton in Hs as ->.
  right. by left.
Qed.

Lemma fill_keys {V} (v : V) (keys : list string) : forall (acc : dict V) k,
  k ∈ dict_keys (foldl (fun d key => dict_set key v d) acc keys) ->
  k ∈ dict_keys acc \/ k ∈ keys.
Proof.
  induction keys as [|k0 keys IH]; intros acc k; simpl; [by left |].
  intros [Hk|Hk]%IH; [| right; by right].
  rewrite dict_keys_set in Hk. case_decide; [by left |].
  apply elem_of_app in Hk as [?|Hs]; [by left |].
  apply list_elem_of_singleton in Hs as ->.
  right. by left.
Qed.

Lemma make_row_keys (fieldnames row : list string) k :
  k ∈ dict_keys (ccols (csv.make_row fieldnames row)) -> k ∈ fieldnames.
Proof.
  unfold csv.make_row, dict_of.
  assert (Hzip : forall k, k ∈ (zip fieldnames (Some <$> row)).*1 -> k ∈ fieldnames).
  { intros k' (kv & -> & Hkv)%list_elem_of_fmap. destruct kv as [k' v].
    by apply elem_of_zip_l in Hkv. }
  case_bool_decide; cbn [ccols].
  - intros [Hk|Hk]%dict_of_keys; [by apply elem_of_nil in Hk | auto].
  - intros [[Hk|Hk]%dict_of_keys|Hk]%fill_keys; [by apply elem_of_nil in Hk | auto |].
    rewrite <- (take_drop (length row) fieldnames). apply elem_of_app. by right.
Qed.

Lemma make_row_missing (fieldnames row : list string) col :
  col ∉ fieldnames -> dict_item col (ccols (csv.make_row fieldnames row)) = Raise "KeyError".
Proof.
  intros Hcol. unfold dict_item.
  destruct (dict_get col _) as [v|] eqn:Hget; [| done].
  exfalso. apply Hcol, (make_row_keys fieldnames row), dict_get_Some_keys. eauto.
Qed.

Lemma DictReader_nonempty (fieldnames : list string) (records : list (list string)) r :
  r ∈ records -> r <> [] ->
  exists r' rows,
    csv.DictReader (fieldnames :: records) = csv.make_row fieldnames r' :: rows.
Proof.
  intros Hin Hne. unfold csv.DictReader.
  assert (Hf : r ∈ filter (fun r => r <> []) records) by (by apply list_elem_of_filter).
  destruct (filter _ records) as [|r' rs]; [by apply elem_of_nil in Hf |].
  by exists r', (csv.make_row fieldnames <$> rs).
Qed.

(** X8. A header in which "Key" (or, failing that, "Filename") occurs only as
    part of another name: the column looked up does not exist, and the first
    data record ends the run with [KeyError]. *)
Theorem compare_column_missing_KeyError (w : world) (filelists : dict (list entry))
    (filepath text first : string) (rest fieldnames : list string)
    (records : list (list string)) (r : list string) :
  let delimiter := if Str.has_char TAB first then TAB else ","%char in
  let filenamecol := if Str.contains "Key" first then "Key" else "Filename" in
  open_r w filepath = Ok text ->
  Str.strip LF <$> readlines text = first :: rest ->
  first <> "IBM Tivoli Storage Manager" ->
  Str.contains "Key" first || Str.contains "Filename" first = true ->
  csv_reader delimiter (first :: rest) = fieldnames :: records ->
  filenamecol ∉ fieldnames ->
  r ∈ records -> r <> [] ->
  exists t, parse_file w filelists filepath = (t, Raise "KeyError")
            /\ forall before after t0 fl,
                 parse_all w before = (t0, Ok fl) ->
                 (parse_all w (before ++ filepath :: after)).2 = Raise "KeyError".
Proof.
  intros delimiter filenamecol Htext Hlines Hsig Hrec Hcsv Hcol Hin Hne.
  assert (Hdpi : parse_dpi first (first :: rest) = Raise "KeyError").
  { unfold parse_dpi. fold delimiter. fold filenamecol. rewrite Hcsv.
    destruct (DictReader_nonempty fieldnames records r Hin Hne) as (r' & rows & ->).
    cbn [column]. by rewrite make_row_missing. }
  assert (Hstep : forall fl, exists t, parse_file w fl filepath = (t, Raise "KeyError")).
  { intros fl. unfold parse_file. rewrite Htext. simpl. rewrite Hlines.
    unfold extract. rewrite bool_decide_eq_false_2 by done. rewrite Hrec.
    rewrite Hdpi. destruct (Str.has_char TAB first); eexists; reflexivity. }
  destruct (Hstep filelists) as [t Ht]. exists t. split; [done |].
  intros before after t0 fl Hbefore. unfold parse_all in *. rewrite for_fold_app.
  rewrite (bind_Ok _ _ _ _ Hbefore). cbn [for_fold].
  destruct (Hstep fl) as [t' Ht']. by rewrite (bind_Raise _ _ _ _ Ht').
Qed.

(** X9. An input that cannot be opened, or that is empty, ends [compare]: with
    the exception of [open], or with [IndexError] for the first line that is
    not there.  The inputs before it have been read; nothing is reported. *)
Theorem compare_aborts_at_unreadable_input (w : world) (first : string)
    (other before after : list string) (f : string) (t : list event)
    (fl : dict (list entry)) (e : exn) :
  first :: other = before ++ f :: after ->
  parse_all w before = (t, Ok fl) ->
  open_r w f = Raise e \/ (open_r w f = Ok EmptyString /\ e = "IndexError") ->
  compare w first other = (header_events ++ t, Raise e).
Proof.
  intros Hfiles Hbefore Hf.
  assert (Hstep : parse_file w fl f = ([], Raise e)).
  { unfold parse_file. by destruct Hf as [-> | [-> ->]]. }
  unfold compare. rewrite (bind_Ok _ _ _ _ print_header_file_checker). simpl.
  rewrite Hfiles.
  unfold parse_all in *. rewrite for_fold_app, (bind_Ok _ _ _ _ Hbefore).
  cbn [for_fold]. rewrite (bind_Raise _ _ _ _ Hstep). simpl.
  by rewrite app_nil_r.
Qed.

Lemma parse_file_inv (w : world) (fl fl' : dict (list entry)) (f : string) t :
  parse_file w fl f = (t, Ok fl') ->
  fl' = fl \/ exists result, result <> [] /\ fl' = dict_set f result fl.
Proof.
  unfold parse_file, lift, mbind, M_bind. destruct (open_r w f) as [text|?]; [| done].
  destruct (extract _) as [t1 [[|x result]|?]]; simpl; [| | done].
  - intros [= _ <-]. by left.
  - intros [= _ <-]. right. by exists (x :: result).
Qed.

Lemma parse_loop_inv (w : world) (files : list string) : forall acc t fl,
  for_fold files (parse_file w) acc = (t, Ok fl) ->
  NoDup (dict_keys acc) -> Forall (fun fv => fv.2 <> []) acc ->
  NoDup (dict_keys fl) /\ Forall (fun fv => fv.2 <> []) fl
  /\ exists new, dict_keys fl = dict_keys acc ++ new /\ new `sublist_of` files.
Proof.
  induction files as [|f files IH]; intros acc t fl Hrun Hnd Hne.
  - injection Hrun as <- <-. split_and!; [done | done |].
    exists []. by rewrite app_nil_r.
  - simpl in Hrun. apply bind_Ok_inv in Hrun as (t1 & acc' & t2 & Hf & Hrest & _).
    apply parse_file_inv in Hf as [->|(result & Hres & ->)].
    + destruct (IH _ _ _ Hrest Hnd Hne) as (? & ? & new & ? & ?).
      split_and!; [done | done |]. exists new. split; [done | by apply sublist_cons].
    + destruct (IH _ _ _ Hrest) as (? & ? & new & Hkeys & Hsub).
      * by apply dict_keys_set_NoDup.
      * clear -Hne Hres. induction acc as [|[k0 v0] acc IHacc]; simpl.
        { by repeat constructor. }
        apply Forall_cons in Hne as [? ?].
        case_decide; constructor; auto.
      * split_and!; [done | done |]. rewrite dict_keys_set in Hkeys.
        case_decide.
        { exists new. split; [done | by apply sublist_cons]. }
        exists (f :: new). rewrite <- app_assoc in Hkeys. split; [done |].
        by apply sublist_skip.
Qed.

Lemma parse_file_extracted (w : world) (fl fl' : dict (list entry)) (f : string) t :
  parse_file w fl f = (t, Ok fl') ->
  exists result,
    extracted w f = Ok result
    /\ fl' = match result with
             | [] => fl
             | _ :: _ => dict_set f result fl
             end.
Proof.
  unfold parse_file, extracted, lift, mbind, M_bind.
  destruct (open_r w f) as [text|?]; [| done].
  destruct (extract _) as [t1 [[|x result]|?]]; simpl; [| | done].
  - intros [= _ <-]. by exists [].
  - intros [= _ <-]. by exists (x :: result).
Qed.

Lemma Forall_dict_set {V} (P : string * V -> Prop) (k : string) (v : V) (d : dict V) :
  P (k, v) -> Forall P d -> Forall P (dict_set k v d).
Proof.
  intros Hkv. induction 1 as [|[k0 v0] d H0 Hd IH]; simpl; [by repeat constructor |].
  case_decide; by constructor.
Qed.

Lemma parse_loop_entries (w : world) (files : list string) : forall acc t fl,
  for_fold files (parse_file w) acc = (t, Ok fl) ->
  dict_keys fl
  = dict_keys acc ++ first_occurrences (dict_keys acc) (filter (fun f => is_parsed w f) files)
  /\ (Forall (fun fv => extracted w fv.1 = Ok fv.2 /\ fv.2 <> []) acc ->
      Forall (fun fv => extracted w fv.1 = Ok fv.2 /\ fv.2 <> []) fl).
Proof.
  induction files as [|f files IH]; intros acc t fl Hrun.
  - injection Hrun as <- <-. by rewrite app_nil_r.
  - simpl in Hrun. apply bind_Ok_inv in Hrun as (t1 & acc' & t2 & Hf & Hrest & _).
    apply parse_file_extracted in Hf as (result & Hres & ->).
    destruct (IH _ _ _ Hrest) as [Hkeys Hall]. rewrite filter_cons.
    assert (Hp : is_parsed w f = match result with [] => false | _ :: _ => true end).
    { unfold is_parsed. by rewrite Hres. }
    destruct result as [|x result].
    + rewrite decide_False by (rewrite Hp; intros []). done.
    + rewrite decide_True by (rewrite Hp; exact I). split.
      * rewrite Hkeys, dict_keys_set. cbn [first_occurrences].
        case_decide; [done |]. by rewrite <- app_assoc.
      * intros Hacc. apply Hall. by apply Forall_dict_set.
Qed.

(** X10. The first loop leaves one entry for every parsed input (an input
    from which something was extracted), and no other: the keys are the
    parsed inputs in the order of the arguments, an input named twice having
    one entry, at its first place; the value of an entry is what was
    extracted from that input, and it is not empty. *)
Theorem parse_all_one_entry_per_input (w : world) (all_files : list string)
    (t : list event) (filelists : dict (list entry)) :
  parse_all w all_files = (t, Ok filelists) ->
  dict_keys filelists
  = first_occurrences [] (filter (fun f => is_parsed w f) all_files)
  /\ Forall (fun fv => extracted w fv.1 = Ok fv.2 /\ fv.2 <> []) filelists
  /\ NoDup (dict_keys filelists)
  /\ dict_keys filelists `sublist_of` all_files.
Proof.
  intros Hrun. pose proof Hrun as Hrun'.
  apply parse_loop_entries in Hrun' as [Hkeys Hall].
  apply parse_loop_inv in Hrun as (? & ? & new & Hnew & ?);
    [| constructor | constructor].
  simpl in Hnew. split_and!; [done | by apply Hall | done | by rewrite Hnew].
Qed.

(** X11. For every input, the number of common values and the number of its
    unique values add up to the number of its distinct values. *)
Theorem compare_counts_add_up (w : world) (first : string)
    (other : list string) (t : list event) (filelists : dict (list entry)) :
  parse_all w (first :: other) = (t, Ok filelists) ->
  filelists <> [] ->
  Forall (fun fv => Forall is_Some fv.2) filelists ->
  exists (common : gset entry),
    compare w first other
    = (header_events ++ t
       ++ line (common_message (size common))
       :: concat (zip_with (fun nf u => unique_events nf.1 nf.2.1 u)
                           (enumerate filelists)
                           ((fun fv => sorted_strings (list_to_set fv.2 ∖ common))
                              <$> filelists)),
       Ok ())
    /\ Forall (fun fv =>
                 (size common
                  + length (sorted_strings (list_to_set fv.2 ∖ common))
                  = size (list_to_set fv.2 : gset entry))%nat)
              filelists.
Proof.
  intros Hparse Hne Hstr.
  destruct (set_intersection_spec ((fun kv => list_to_set kv.2) <$> filelists))
    as (common & Hcommon & Hin); [by destruct filelists |].
  exists common. split.
  - unfold compare.
    rewrite (bind_Ok _ _ _ _ print_header_file_checker). simpl.
    change (first :: other) with ([first] ++ other) in Hparse.
    rewrite (bind_Ok _ _ _ _ Hparse).
    by rewrite (report_strings _ _ Hcommon Hstr).
  - apply Forall_forall. intros fv Hfv.
    assert (Hsub : common ⊆ list_to_set fv.2).
    { intros x Hx. apply Hin; [done |]. apply list_elem_of_fmap. by exists fv. }
    destruct (sorted_all_strings (list_to_set fv.2 ∖ common)) as (_ & -> & _).
    { intros x [Hx _]%elem_of_difference. apply elem_of_list_to_set in Hx.
      eapply Forall_forall in Hstr; [| done]. by eapply Forall_forall in Hstr. }
    rewrite <- size_union by (by apply disjoint_difference_r1). f_equal.
    apply set_eq. intros x. rewrite elem_of_union, elem_of_difference.
    split; [intros [?|[? ?]]; auto | intros ?].
    destruct (decide (x ∈ common)); auto.
Qed.

(** X12. When a single input was parsed, all its values are common and none is
    unique. *)
Theorem compare_single_input_all_common (w : world) (first : string)
    (other : list string) (t : list event) (f : string) (values : list entry) :
  parse_all w (first :: other) = (t, Ok [(f, values)]) ->
  compare w first other
  = (header_events ++ t
     ++ [line (common_message (size (list_to_set values : gset entry)));
         line (unique_message 0 0 f)],
     Ok ()).
Proof.
  intros Hparse.
  assert (Hunique : report_unique (list_to_set values) 0 f values
                    = ([line (unique_message 0 0 f)], Ok ())).
  { unfold report_unique. rewrite difference_diag_L, size_empty.
    unfold sorted. by rewrite elements_empty. }
  assert (Hreport : report [(f, values)]
                    = ([line (common_message (size (list_to_set values : gset entry)));
                        line (unique_message 0 0 f)], Ok ())).
  { unfold report, enumerate. csimpl. by rewrite Hunique. }
  unfold compare.
  rewrite (bind_Ok _ _ _ _ print_header_file_checker). cbn [fst snd].
  rewrite (bind_Ok _ _ _ _ Hparse). by rewrite Hreport.
Qed.

End more_compare_facts.

(** ** read_inventory and inventory: order, errors, first run *)

Section more_read_inventory_facts.
Context `{PyLib}.

Lemma read_rows_key_order (rows : list csvrow) (keys : list string) :
  Forall2 (fun row k => row_filepath row = Ok k) rows keys ->
  forall acc,
  exists d, read_rows rows acc = Ok d
            /\ dict_keys d = dict_keys acc ++ first_occurrences (dict_keys acc) keys.
Proof.
  induction 1 as [|row k rows keys Hrow _ IH]; intros acc; simpl.
  - exists acc. by rewrite app_nil_r.
  - rewrite Hrow. simpl. destruct (IH (dict_set k row acc)) as (d & -> & Hd).
    exists d. split; [done |]. rewrite Hd, dict_keys_set.
    case_decide; [done |]. by rewrite <- app_assoc.
Qed.

Lemma read_rows_keys (rows : list csvrow) : forall acc d,
  read_rows rows acc = Ok d ->
  exists keys, Forall2 (fun row k => row_filepath row = Ok k) rows keys.
Proof.
  induction rows as [|row rows IH]; intros acc d; simpl.
  - by exists [].
  - destruct (row_filepath row) as [k|e] eqn:Hrow; simpl; [| done].
    intros (keys & ?)%IH. exists (k :: keys). by constructor.
Qed.

(** X3. The inventory loaded keeps the paths in the order in which they first
    appear in the file. *)
Theorem read_inventory_keeps_first_positions (w : world) (path text : string)
    (t : list event) (d : dict csvrow) :
  open_r w path = Ok text ->
  read_inventory w path = (t, Ok d) ->
  exists keys,
    Forall2 (fun row k => row_filepath row = Ok k) (inventory_rows text) keys
    /\ dict_keys d = first_occurrences [] keys.
Proof.
  intros Htext. unfold read_inventory. rewrite Htext. simpl.
  destruct (read_rows _ _) as [d'|e] eqn:Hrows; simpl; [| done].
  intros [= _ <-]. destruct (read_rows_keys _ _ _ Hrows) as [keys Hkeys].
  exists keys. split; [done |].
  destruct (read_rows_key_order _ _ Hkeys []) as (d2 & Hd2 & Hk2).
  rewrite Hrows in Hd2. by injection Hd2 as <-.
Qed.

(** X4. A file whose header has no Directory or no Filename column is not an
    inventory: its first data record ends the reading with [KeyError]. *)
Theorem read_inventory_missing_column_KeyError (w : world) (path text : string)
    (fieldnames : list string) (records : list (list string)) (r : list string) :
  open_r w path = Ok text ->
  csv_reader "," (readlines text) = fieldnames :: records ->
  "Directory" ∉ fieldnames \/ "Filename" ∉ fieldnames ->
  r ∈ records -> r <> [] ->
  read_inventory w path = ([], Raise "KeyError").
Proof.
  intros Htext Hcsv Hcol Hin Hne. unfold read_inventory. rewrite Htext. simpl.
  unfold inventory_rows. rewrite Hcsv.
  destruct (DictReader_nonempty fieldnames records r Hin Hne) as (r' & rows & ->).
  cbn [read_rows]. unfold row_filepath.
  destruct Hcol as [Hcol|Hcol].
  - rewrite (make_row_missing _ r' _ Hcol). reflexivity.
  - rewrite (make_row_missing _ r' _ Hcol).
    unfold dict_item. destruct (dict_get "Directory" _); reflexivity.
Qed.

End more_read_inventory_facts.

Section more_inventory_facts.
Context `{PyLib}.

(** X1. [md5sum] reads to the end of the file, whatever its length: the digest
    is that of the whole content.  A file that cannot be opened raises. *)
Theorem md5sum_digests_whole_content (w : world) (filepath : string) :
  md5sum w filepath
  = ([EMd5 filepath],
     match open_rb w filepath with
     | Ok data => Ok (md5_hexdigest data)
     | Raise e => Raise e
     end).
Proof.
  unfold md5sum. destruct (open_rb w filepath) as [data|e]; [| done].
  unfold mbind, M_bind, mret, M_ret, emit, lift.
  by rewrite (md5_read_loop_all (S (length data)) [] data) by lia.
Qed.

Lemma setup_fails (w : world) (args_path out : string) (e : exn) :
  let dest := posixpath.abspath (getcwd w) out in
  let all_files := list_files w (SEARCHROOT w args_path) in
  (resume w dest all_files).2 = Raise e
  \/ ((exists r, (resume w dest all_files).2 = Ok r) /\ open_w w dest = Raise e) ->
  setup w args_path (Some out)
  = (EPrint <$> banner w args_path ("Writing inventory to file " +:+ dest), Raise e).
Proof.
  intros dest all_files Hcause. unfold setup.
  rewrite (bind_Ok _ _ _ _ print_header_inventory). rewrite truthy_OUTFILE.
  fold dest all_files.
  destruct (resume w dest all_files) as [t [[cl files]|e']] eqn:Hresume.
  - destruct Hcause as [[=]|[_ Hopen]].
    destruct (resume_inv _ _ _ _ _ _ Hresume) as [-> _].
    simpl. unfold open_w_plus. by rewrite Hopen.
  - assert (t = []) as ->.
    { revert Hresume. unfold resume, read_inventory, try_except.
      destruct (open_r w dest) as [text|e0]; simpl.
      - destruct (read_rows _ _); simpl; [done |]. case_decide; congruence.
      - case_decide; congruence. }
    destruct Hcause as [[= ->]|[[r [=]] _]]. done.
Qed.

(** X18. Whatever fails before the header is written leaves the destination as it
    was: an existing inventory that cannot be read, or whose rows have no
    path, and a destination that cannot be opened for writing end the run
    after the opening messages; the file is not truncated and no file is
    examined. *)
Theorem inventory_failure_keeps_destination (w : world) (args_path out : string)
    (e : exn) :
  let dest := posixpath.abspath (getcwd w) out in
  (open_r w dest = Raise e /\ e <> "FileNotFoundError")
  \/ (exists text, open_r w dest = Ok text
                   /\ read_rows (inventory_rows text) [] = Raise e)
  \/ ((open_r w dest = Raise "FileNotFoundError"
       \/ exists text cl, open_r w dest = Ok text
                          /\ read_rows (inventory_rows text) [] = Ok cl)
      /\ open_w w dest = Raise e) ->
  inventory w args_path (Some out)
  = (EPrint <$> banner w args_path ("Writing inventory to file " +:+ dest), Raise e)
  /\ outfile (inventory w args_path (Some out)).1 = None
  /\ md5_calls (inventory w args_path (Some out)).1 = [].
Proof.
  intros dest Hcause.
  assert (Hsetup : setup w args_path (Some out)
    = (EPrint <$> banner w args_path ("Writing inventory to file " +:+ dest), Raise e)).
  { apply setup_fails. fold dest. unfold resume, read_inventory.
    destruct Hcause as [[Hr Hne]|[(text & Hr & Hrows)|[[Hr|(text & cl & Hr & Hrows)] Hw]]];
      rewrite Hr; simpl.
    - left. by rewrite decide_False.
    - left. rewrite Hrows. simpl.
      apply read_rows_errors in Hrows as [-> | ->]; by rewrite decide_False.
    - right. split; [by eexists | done].
    - right. rewrite Hrows. split; [by eexists | done]. }
  assert (Hrun : inventory w args_path (Some out)
    = (EPrint <$> banner w args_path ("Writing inventory to file " +:+ dest), Raise e)).
  { unfold inventory. by rewrite (bind_Raise _ _ _ _ Hsetup). }
  rewrite Hrun. cbn [fst]. split_and!; [done | |].
  - unfold outfile. by rewrite is_open_prints.
  - apply md5_calls_prints.
Qed.

Lemma copied_record_ValueError (row : csvrow) :
  crest row <> None
  \/ (exists k, k ∈ dict_keys (ccols row) /\ k ∉ FIELDNAMES) ->
  copied_record row = Raise "ValueError".
Proof.
  intros Hrow. unfold copied_record, record_of, csv.dict_to_list, rowdict_of.
  cbn [rest cols].
  assert (Hkeys : dict_keys (prod_map id pyval_of <$> ccols row) = dict_keys (ccols row)).
  { unfold dict_keys. rewrite <- list_fmap_compose. apply list_fmap_ext.
    by intros _ [? ?] _. }
  rewrite Hkeys.
  destruct Hrow as [Hrest|(k & Hk & Hout)].
  - by rewrite bool_decide_eq_false_2.
  - assert (Hall : forallb (fun k => bool_decide (k ∈ FIELDNAMES)) (dict_keys (ccols row))
                   = false).
    { apply not_true_is_false. intros Hall. apply Hout.
      rewrite forallb_forall in Hall. specialize (Hall k).
      rewrite bool_decide_eq_true in Hall. apply Hall. by apply list_elem_of_In. }
    rewrite Hall. by rewrite andb_false_r.
Qed.

(** X19. A row of the existing inventory that does not fit the header (a column
    of another name, or more fields than columns) is found only when it is
    copied: by then the destination has been truncated.  The run ends with
    [ValueError]; the file holds the header and the rows before that one. *)
Theorem inventory_unfit_row_truncates (w : world) (args_path out : string)
    (text : string) (pre post : dict csvrow) (item : string * csvrow)
    (olds : list (list string)) :
  let dest := posixpath.abspath (getcwd w) out in
  open_r w dest = Ok text ->
  read_rows (inventory_rows text) [] = Ok (pre ++ item :: post) ->
  open_w w dest = Ok () ->
  Forall2 (fun item record => copied_record item.2 = Ok record) pre olds ->
  crest item.2 <> None
  \/ (exists k, k ∈ dict_keys (ccols item.2) /\ k ∉ FIELDNAMES) ->
  exists t,
    inventory w args_path (Some out) = (t, Raise "ValueError")
    /\ outfile t = Some (csv_writerow <$> FIELDNAMES :: olds)
    /\ md5_calls t = [].
Proof.
  intros dest Htext Hrows Hopen Holds Hitem.
  pose proof (setup_file w args_path out _ _
                (resume_existing w dest _ text _ Htext Hrows) Hopen) as Hsetup.
  apply copied_record_ValueError in Hitem.
  assert (Hcopy : for_fold (pre ++ item :: post) (copy_item Outfile) 0
                  = (ERow Outfile <$> olds, Raise "ValueError")).
  { rewrite for_fold_app, (bind_Ok _ _ _ _ (copy_loop_ok Outfile pre olds Holds 0)).
    assert (Hstep : forall count, copy_item Outfile count item = ([], Raise "ValueError")).
    { intros count. unfold copy_item, writerow. unfold copied_record in Hitem.
      by rewrite Hitem. }
    cbn [for_fold fst snd]. rewrite (bind_Raise _ _ _ _ (Hstep _)).
    by rewrite app_nil_r. }
  exists (file_banner w args_path out ++ ERow Outfile FIELDNAMES :: (ERow Outfile <$> olds)).
  destruct (file_banner_chunks w args_path out) as (Hb & _ & Hop).
  split_and!.
  - unfold inventory. rewrite (bind_Ok _ _ _ _ Hsetup). cbn [fst snd].
    unfold write_inventory, writeheader, emit.
    rewrite (bind_Ok _ _ [ERow Outfile FIELDNAMES] () eq_refl).
    by rewrite (bind_Raise _ _ _ _ Hcopy).
  - unfold outfile. rewrite existsb_app, Hop. cbn [orb]. f_equal.
    rewrite chunks_app, Hb, chunks_row, chunks_rows. by repeat case_decide.
  - rewrite md5_calls_app. unfold file_banner.
    rewrite md5_calls_app, md5_calls_prints.
    change (md5_calls (ERow Outfile FIELDNAMES :: ?t)) with (md5_calls t).
    by rewrite md5_calls_rows.
Qed.

(** X17. A first run, whose destination does not exist yet: every listed file is
    examined once, in the order of the scan, and the file holds the header
    and one row per file in that order; the counter runs from 1 to the
    number of files. *)
Theorem inventory_first_run (w : world) (args_path out : string)
    (news : list (list string)) :
  let dest := posixpath.abspath (getcwd w) out in
  let all_files := list_files w (SEARCHROOT w args_path) in
  open_r w dest = Raise "FileNotFoundError" ->
  open_w w dest = Ok () ->
  Forall2 (fun f record => fresh_record w f = Ok record) all_files news ->
  exists t,
    inventory w args_path (Some out) = (t, Ok ())
    /\ outfile t = Some (csv_writerow <$> FIELDNAMES :: news)
    /\ md5_calls t = all_files
    /\ stdout t
       = banner w args_path ("Writing inventory to file " +:+ dest)
         ++ progress_texts (total_of all_files) 0 (length news) ++ closing.
Proof.
  intros dest all_files Hmissing Hopen Hnews.
  pose proof (Forall2_length _ _ _ Hnews) as Hlen.
  pose proof (setup_file w args_path out _ _
                (resume_missing w dest all_files Hmissing) Hopen) as Hsetup.
  destruct (setup_events _ _ _ _ _ _ _ _ Hsetup) as (Hrec0 & Hmd0 & _).
  eexists. split_and!.
  - by apply (inventory_ok _ _ _ _ _ _ _ _ [] news Hsetup).
  - by apply run_events_outfile.
  - by apply run_events_md5_calls.
  - by apply run_events_stdout_file.
Qed.

(** X21. Round trip of the rows through the file.  A file that holds the
    header and the records written for listed files, none listed twice, is
    read back by [read_inventory], provided the [csv] module reads the text
    back as the records written, as one entry per file, in order, whose key
    is the path of the file and whose row is copied through as the record
    it came from. *)
Theorem fresh_row_reads_back (w w' : world) (args_path path : string)
    (files : list string) (news : list (list string)) :
  let text := String.concat EmptyString (csv_writerow <$> FIELDNAMES :: news) in
  posixpath.isabs (getcwd w) = true ->
  wf_root w (SEARCHROOT w args_path) = true ->
  NoDup files ->
  (forall f, f ∈ files -> f ∈ list_files w (SEARCHROOT w args_path)) ->
  Forall2 (fun f record => fresh_record w f = Ok record) files news ->
  open_r w' path = Ok text ->
  csv_reader "," (readlines text) = FIELDNAMES :: news ->
  exists rows,
    read_inventory w' path = ([], Ok (zip files rows))
    /\ dict_keys (zip files rows) = files
    /\ Forall2 (fun row record => copied_record row = Ok record) rows news.
Proof.
  intros text Hcwd Hwf Hnd Hsub Hnews Htext Hcsv.
  pose proof (fresh_rereads w args_path files news Hcwd Hwf Hsub Hnews) as Hre.
  destruct (DictReader_rereads news files Hre) as [Hkeys Hrows].
  exists (csv.make_row FIELDNAMES <$> news).
  assert (Hlen : length files = length (csv.make_row FIELDNAMES <$> news)).
  { rewrite length_fmap. by eapply Forall2_length. }
  split_and!.
  - unfold read_inventory. rewrite Htext. unfold lift. cbn [mbind M_bind].
    unfold inventory_rows. rewrite Hcsv, Hrows.
    rewrite Hrows in Hkeys. by rewrite (read_rows_fresh _ files []).
  - unfold dict_keys. by rewrite fst_zip by lia.
  - apply Forall2_fmap_l. clear -Hre.
    induction Hre as [|r k records keys (_ & Hr & _) _ IH]; by constructor.
Qed.

(** X2. The scan of a well-formed tree lists no path twice. *)
Theorem scan_lists_no_path_twice (w : world) (args_path : string) :
  posixpath.isabs (getcwd w) = true ->
  wf_root w (SEARCHROOT w args_path) = true ->
  NoDup (list_files w (SEARCHROOT w args_path)).
Proof.
  intros Hcwd Hwf. unfold SEARCHROOT in *.
  destruct (abspath_form (getcwd w) args_path Hcwd) as (k & cs & Hk & Hcs & Hroot).
  rewrite Hroot in *. by apply NoDup_list_files.
Qed.

End more_inventory_facts.

(** ** inventory: what every run leaves *)

Section more_inventory_invariants.
Context `{PyLib}.

Lemma bind_events {A B} (m : M A) (f : A -> M B) :
  (m ≫= f).1 = m.1 ++ match m.2 with Ok a => (f a).1 | Raise _ => [] end.
Proof.
  destruct m as [t [a|e]]; unfold mbind, M_bind; simpl.
  - by destruct (f a).
  - by rewrite app_nil_r.
Qed.

Lemma for_fold_no_open {A S} (l : list A) (body : S -> A -> M S) :
  (forall acc x, existsb is_open (body acc x).1 = false) ->
  forall acc, existsb is_open (for_fold l body acc).1 = false.
Proof.
  intros Hbody. induction l as [|x l IH]; intros acc; [done |].
  cbn [for_fold]. rewrite bind_events, existsb_app, Hbody.
  destruct (body acc x).2; [apply IH | done].
Qed.

Lemma copy_item_no_open (fh : handle) (count : Z) (item : string * csvrow) :
  existsb is_open (copy_item fh count item).1 = false.
Proof. unfold copy_item, writerow. by destruct (record_of _). Qed.

Lemma check_file_no_open (w : world) (fh : handle) (total count : Z) (f : string) :
  existsb is_open (check_file w fh total count f).1 = false.
Proof.
  unfold check_file, writerow.
  destruct (metadata w f) as [t [md|e]] eqn:Hmd.
  - apply metadata_Ok in Hmd as [-> _]. unfold mbind, M_bind, lift. cbn beta iota.
    destruct (record_of md); reflexivity.
  - apply metadata_Raise in Hmd as [-> | ->]; reflexivity.
Qed.

Lemma write_inventory_events (w : world) (all_files : list string)
    (cl : dict csvrow) (files : list string) (fh : handle) :
  exists t, (write_inventory w all_files cl files fh).1 = ERow fh FIELDNAMES :: t
            /\ existsb is_open t = false.
Proof.
  unfold write_inventory, writeheader, emit.
  rewrite (bind_Ok _ _ [ERow fh FIELDNAMES] () eq_refl). cbn [fst app].
  eexists. split; [reflexivity |].
  rewrite bind_events, existsb_app, for_fold_no_open by apply copy_item_no_open.
  destruct (for_fold cl _ 0).2 as [count|e]; [| done].
  rewrite bind_events, existsb_app, for_fold_no_open by apply check_file_no_open.
  by destruct (for_fold files _ count).2.
Qed.

Lemma setup_Raise (w : world) (args_path out : string) t e :
  setup w args_path (Some out) = (t, Raise e) ->
  t = EPrint <$> banner w args_path
        ("Writing inventory to file " +:+ posixpath.abspath (getcwd w) out).
Proof.
  unfold setup. rewrite (bind_Ok _ _ _ _ print_header_inventory), truthy_OUTFILE.
  destruct (resume _ _ _) as [t1 [[cl files]|e']] eqn:Hresume.
  - destruct (resume_inv _ _ _ _ _ _ Hresume) as [-> _]. simpl.
    unfold open_w_plus. destruct (open_w w _) as [[]|?]; simpl; [done |].
    by intros [= <- _].
  - assert (t1 = []) as ->.
    { revert Hresume. unfold resume, read_inventory, try_except.
      destruct (open_r w _) as [text|e0]; simpl.
      - destruct (read_rows _ _); simpl; [done |]. case_decide; congruence.
      - case_decide; congruence. }
    simpl. by intros [= <- _].
Qed.

(** X20. However a run ends, a destination that was opened holds the header
    first; and a run without destination opens no file. *)
Theorem inventory_opened_file_starts_with_header (w : world) (args_path : string)
    (args_outfile : option string) :
  let t := (inventory w args_path args_outfile).1 in
  (args_outfile = None -> outfile t = None)
  /\ (forall written, outfile t = Some written ->
        exists rows, written = csv_writerow FIELDNAMES :: rows).
Proof.
  cbn zeta. unfold inventory. rewrite bind_events.
  destruct args_outfile as [out|].
  - split; [done |].
    destruct (setup w args_path (Some out)) as [t0 [[[[all_files cl] files] fh]|e]]
      eqn:Hsetup; cbn [fst snd].
    + destruct (setup_file_inv _ _ _ _ _ _ _ _ Hsetup) as (-> & _ & -> & _).
      destruct (write_inventory_events w all_files cl files Outfile) as (t & -> & _).
      destruct (file_banner_chunks w args_path out) as (Hb & _ & Hopen).
      intros written. unfold outfile. rewrite existsb_app, Hopen. cbn [orb].
      intros [= <-]. by eexists.
    + apply setup_Raise in Hsetup as ->. intros written.
      unfold outfile. by rewrite app_nil_r, is_open_prints.
  - rewrite setup_stdout. cbn [fst snd].
    destruct (write_inventory_events w (list_files w (SEARCHROOT w args_path)) []
                (list_files w (SEARCHROOT w args_path)) Stdout) as (t & -> & Hno).
    assert (Hnone : outfile ((EPrint <$> banner w args_path "Writing inventory to stdout")
                            ++ ERow Stdout FIELDNAMES :: t) = None).
    { unfold outfile. rewrite existsb_app, is_open_prints. cbn [existsb is_open orb].
      by rewrite Hno. }
    split; [done |]. intros written. by rewrite Hnone.
Qed.

End more_inventory_invariants.

(** ** bytecount and verify *)

Section bytecount_facts.
Context `{PyLib}.

Lemma print_header_bytecount : print_header "bytecount" = (bytecount_header, Ok ()).
Proof. reflexivity. Qed.

Lemma count_file_ok (w : world) (acc : Z * dict Z) (f : string) (size : Z) :
  getsize w f = Ok size ->
  count_file w acc f = ([], Ok (acc.1 + size, count_extension acc.2 (extension_of f))).
Proof. intros Hsize. unfold count_file. by rewrite Hsize. Qed.

Lemma count_loop_ok (w : world) (files : list string) (sizes : list Z) :
  Forall2 (fun f size => getsize w f = Ok size) files sizes ->
  forall acc,
  for_fold files (count_file w) acc
  = ([], Ok (acc.1 + sum_of sizes,
             foldl count_extension acc.2 (extension_of <$> files))).
Proof.
  induction 1 as [|f size files sizes Hsize _ IH]; intros acc; simpl.
  - unfold mret, M_ret. rewrite Z.add_0_r. by destruct acc.
  - rewrite (bind_Ok _ _ _ _ (count_file_ok w acc f size Hsize)). rewrite IH.
    cbn [fst snd app]. do 3 f_equal. lia.
Qed.

Lemma count_loop_inv (w : world) (files : list string) : forall acc t r,
  for_fold files (count_file w) acc = (t, Ok r) ->
  exists sizes, Forall2 (fun f size => getsize w f = Ok size) files sizes.
Proof.
  induction files as [|f files IH]; intros acc t r Hrun.
  - by exists [].
  - simpl in Hrun. apply bind_Ok_inv in Hrun as (t1 & acc' & t2 & Hf & Hrest & _).
    apply IH in Hrest as (sizes & Hsizes).
    unfold count_file in Hf. destruct (getsize w f) as [size|?] eqn:Hsize; [| done].
    exists (size :: sizes). by constructor.
Qed.

Lemma bytecount_ok (w : world) (args_path : string) (sizes : list Z) :
  Forall2 (fun f size => getsize w f = Ok size) (list_files w args_path) sizes ->
  bytecount w args_path
  = (bytecount_header
     ++ bytecount_report (sum_of sizes) (length (list_files w args_path))
          (tally (extension_of <$> list_files w args_path)),
     Ok ()).
Proof.
  intros Hsizes. unfold bytecount.
  rewrite (bind_Ok _ _ _ _ print_header_bytecount). cbn [fst snd].
  by rewrite (bind_Ok _ _ _ _ (count_loop_ok w _ _ Hsizes (0, []))).
Qed.

(** *** The dictionary of extensions *)

Lemma count_extension_get (d : dict Z) (x e : string) :
  dict_get e (count_extension d x)
  = if decide (x = e) then Some (default 0 (dict_get e d) + 1) else dict_get e d.
Proof.
  unfold count_extension. destruct (dict_get x d) as [num|] eqn:Hx;
    rewrite dict_get_set; case_decide; subst; by rewrite ?Hx.
Qed.

Lemma count_extension_keys (d : dict Z) (x : string) :
  dict_keys (count_extension d x)
  = if decide (x ∈ dict_keys d) then dict_keys d else dict_keys d ++ [x].
Proof. unfold count_extension. destruct (dict_get x d); apply dict_keys_set. Qed.

Lemma sum_of_dict_set (d : dict Z) (k : string) (v : Z) :
  sum_of (dict_set k v d).*2 = sum_of d.*2 - default 0 (dict_get k d) + v.
Proof.
  induction d as [|[k0 v0] d IH]; csimpl; [lia |].
  case_decide; csimpl; [lia |]. rewrite IH. lia.
Qed.

Lemma count_extension_sum (d : dict Z) (x : string) :
  sum_of (count_extension d x).*2 = sum_of d.*2 + 1.
Proof.
  unfold count_extension. destruct (dict_get x d) as [num|] eqn:Hx;
    rewrite sum_of_dict_set, Hx; simpl; lia.
Qed.

Lemma tally_spec (exts : list string) : forall (acc : dict Z),
  let d := foldl count_extension acc exts in
  dict_keys d = dict_keys acc ++ first_occurrences (dict_keys acc) exts
  /\ sum_of d.*2 = sum_of acc.*2 + Z.of_nat (length exts)
  /\ forall e,
       dict_get e d
       = let c := length (filter (fun x => x = e) exts) in
         if decide (c = 0%nat) then dict_get e acc
         else Some (default 0 (dict_get e acc) + Z.of_nat c).
Proof.
  induction exts as [|x exts IH]; intros acc; cbn zeta.
  - simpl. rewrite app_nil_r. split_and!; [done | lia | done].
  - cbn [foldl]. destruct (IH (count_extension acc x)) as (Hk & Hs & Hg).
    split_and!.
    + rewrite Hk, count_extension_keys. cbn [first_occurrences].
      case_decide; [done |]. by rewrite <- app_assoc.
    + rewrite Hs, count_extension_sum. cbn [length]. lia.
    + intros e. rewrite Hg, count_extension_get, filter_cons. cbn zeta.
      destruct (decide (x = e)) as [->|Hne]; [| done].
      cbn [length]. set (c := length (filter (fun x => x = e) exts)).
      rewrite (decide_False (P := S c = 0%nat)) by lia.
      case_decide; cbn [default from_option id]; apply (f_equal Some); lia.
Qed.

(** X13. When the size of every listed file can be read, [bytecount] ends
    normally, having printed the sum of the sizes, the number of files
    listed, and the counts by extension; the counts add up to the number of
    files. *)
Theorem bytecount_reports_totals (w : world) (args_path : string) (sizes : list Z) :
  let all_files := list_files w args_path in
  let extensions := tally (extension_of <$> all_files) in
  Forall2 (fun f size => getsize w f = Ok size) all_files sizes ->
  bytecount w args_path
  = (bytecount_header
     ++ bytecount_report (sum_of sizes) (length all_files) extensions,
     Ok ())
  /\ sum_of extensions.*2 = Z.of_nat (length all_files).
Proof.
  intros all_files extensions Hsizes. split; [by apply bytecount_ok |].
  destruct (tally_spec (extension_of <$> all_files) []) as (_ & Hsum & _).
  unfold extensions, tally. rewrite Hsum, length_fmap. simpl. lia.
Qed.

(** X14. The loop of [bytecount] counts every file under its extension: the
    dictionary has the extensions in the order in which they first occur,
    each with the number of files that have it. *)
Theorem bytecount_counts_by_extension (w : world) (files : list string)
    (t : list event) (totalbytes : Z) (extensions : dict Z) :
  for_fold files (count_file w) (0, []) = (t, Ok (totalbytes, extensions)) ->
  dict_keys extensions = first_occurrences [] (extension_of <$> files)
  /\ forall ext,
       dict_get ext extensions
       = let c := length (filter (fun f => extension_of f = ext) files) in
         if decide (c = 0%nat) then None else Some (Z.of_nat c).
Proof.
  intros Hrun. destruct (count_loop_inv _ _ _ _ _ Hrun) as [sizes Hsizes].
  rewrite (count_loop_ok w files sizes Hsizes) in Hrun.
  injection Hrun as _ _ <-. cbn [snd].
  destruct (tally_spec (extension_of <$> files) []) as (Hk & _ & Hg).
  split; [done |]. intros ext. rewrite Hg. cbn zeta.
  assert (Hlen : length (filter (fun x => x = ext) (extension_of <$> files))
                 = length (filter (fun f => extension_of f = ext) files)).
  { clear. induction files as [|f files IH]; [done |]. csimpl.
    rewrite !filter_cons. case_decide; simpl; by rewrite IH. }
  rewrite Hlen. case_decide; [done |]. simpl. apply (f_equal Some). lia.
Qed.

(** X15. The size of a listed file that cannot be read ends [bytecount] with the
    exception: only the header has been printed, there is no report. *)
Theorem bytecount_aborts_at_unreadable_size (w : world) (args_path : string)
    (pre post : list string) (f : string) (sizes : list Z) (e : exn) :
  list_files w args_path = pre ++ f :: post ->
  Forall2 (fun g size => getsize w g = Ok size) pre sizes ->
  getsize w f = Raise e ->
  bytecount w args_path = (bytecount_header, Raise e).
Proof.
  intros Hfiles Hpre Hf. unfold bytecount.
  rewrite (bind_Ok _ _ _ _ print_header_bytecount). cbn [fst snd].
  rewrite Hfiles, for_fold_app.
  rewrite (bind_Ok _ _ _ _ (count_loop_ok w _ _ Hpre (0, []))).
  assert (Hstep : forall acc, count_file w acc f = ([], Raise e)).
  { intros acc. unfold count_file. by rewrite Hf. }
  cbn [for_fold fst snd]. by rewrite (bind_Raise _ _ _ _ (Hstep _)).
Qed.

(** X16. A path that cannot be listed is not an error for [bytecount]: it
    reports no bytes, no files and no extension, and ends normally. *)
Theorem bytecount_missing_root (w : world) (args_path : string) :
  scandir w args_path = None \/ scandir w args_path = Some [] ->
  bytecount w args_path
  = (bytecount_header
     ++ [line "0 bytes for 0 files."; line "()"; line EmptyString],
     Ok ())
  /\ exit_code (bytecount w args_path).2 = 0.
Proof.
  intros Hscan.
  assert (Hfiles : list_files w args_path = []).
  { unfold list_files, os_walk. by destruct Hscan as [-> | ->]. }
  assert (Hrun : bytecount w args_path
    = (bytecount_header
       ++ [line "0 bytes for 0 files."; line "()"; line EmptyString], Ok ())).
  { rewrite (bytecount_ok w args_path []); rewrite Hfiles; [done | constructor]. }
  by rewrite Hrun.
Qed.

End bytecount_facts.

Section verify_facts.
Context `{PyLib}.
Variable repr : dict listing -> string.

Lemma read_inventory_silent (w : world) (p : string) : (read_inventory w p).1 = [].
Proof.
  unfold read_inventory. by destruct (open_r w p).
Qed.

Lemma resolve_cases (k : kinds) (w : world) (inventories : dict listing) (p : string) :
  exists msg,
    (resolve k w inventories p).1 = [line (p +:+ msg)]
    /\ (msg = " is a file!" /\ isfile k p = true
        /\ (resolve k w inventories p).2
           = match (read_inventory w p).2 with
             | Ok rows => Ok (dict_set p (Loaded rows) inventories)
             | Raise e => Raise e
             end
        \/ msg = " is a directory!" /\ isfile k p = false /\ isdir k p = true
           /\ (resolve k w inventories p).2
              = Ok (dict_set p (Listed (list_files w p)) inventories)
        \/ msg = " could not be found!" /\ isfile k p = false /\ isdir k p = false
           /\ (resolve k w inventories p).2 = Ok inventories).
Proof.
  unfold resolve. destruct (isfile k p); [| destruct (isdir k p)].
  - exists " is a file!". pose proof (read_inventory_silent w p) as Hsilent.
    destruct (read_inventory w p) as [t [rows|e]]; simpl in Hsilent; subst t;
      (split; [done | left; done]).
  - exists " is a directory!". split; [done | right; left; done].
  - exists " could not be found!". split; [done | right; right; done].
Qed.

(** X22. [verify] compares nothing: whatever its arguments are, it only prints.
    No checksum is computed and no file is written.  It prints a message for
    each argument it gets to, and it fails only when an argument is a file
    that [read_inventory] fails on. *)
Theorem verify_only_prints (k : kinds) (w : world) (first second : string) :
  let run := verify repr k w first second in
  forallb is_print run.1 = true
  /\ md5_calls run.1 = [] /\ csv_records run.1 = [] /\ outfile run.1 = None
  /\ forall e, run.2 = Raise e ->
       exists p, p ∈ [first; second] /\ isfile k p = true
                 /\ (read_inventory w p).2 = Raise e.
Proof.
  cbn zeta. unfold verify. cbn [for_fold]. unfold mbind, M_bind.
  destruct (resolve_cases k w [] first) as (m1 & Ht1 & Hr1).
  destruct (resolve k w [] first) as [t1 [i1|e1]]; simpl in Ht1; subst t1.
  - destruct (resolve_cases k w i1 second) as (m2 & Ht2 & Hr2).
    destruct (resolve k w i1 second) as [t2 [i2|e2]]; simpl in Ht2; subst t2.
    + split_and!; done.
    + split_and!; try done. intros e [= ->]. exists second.
      destruct Hr2 as [(_ & Hfile & Hr)|[(_ & _ & _ & Hr)|(_ & _ & _ & Hr)]];
        simpl in Hr; try done.
      split_and!; [right; left | done |].
      destruct (read_inventory w second).2; congruence.
  - split_and!; try done. intros e [= ->]. exists first.
    destruct Hr1 as [(_ & Hfile & Hr)|[(_ & _ & _ & Hr)|(_ & _ & _ & Hr)]];
      simpl in Hr; try done.
    split_and!; [left | done |].
    destruct (read_inventory w first).2; congruence.
Qed.

(** X23. An argument that is neither a file nor a directory is reported and left
    out; it is not an error.  With two such arguments the dictionary printed
    is empty and the run ends normally. *)
Theorem verify_missing_paths_not_fatal (k : kinds) (w : world)
    (first second : string) :
  isfile k first = false -> isdir k first = false ->
  isfile k second = false -> isdir k second = false ->
  verify repr k w first second
  = ([line (first +:+ " could not be found!");
      line (second +:+ " could not be found!");
      line (repr [])],
     Ok ())
  /\ exit_code (verify repr k w first second).2 = 0.
Proof.
  intros Hf1 Hd1 Hf2 Hd2. unfold verify, resolve. cbn [for_fold].
  by rewrite Hf1, Hd1, Hf2, Hd2.
Qed.

End verify_facts.

(** * Instances and counterexamples *)

(** C3 at the small tree: the file in the subdirectory is listed, through
    visible names; a run examines only listed files; a run to standard
    output writes the rows of the two listed files. *)
Lemma list_files_prunes_hidden_witness :
  (exists entries chain,
     scandir (demo_world [] []) "/data" = Some entries /\ tree_file entries chain
     /\ Forall visible chain /\ "/data/sub/b.TXT" = join_chain "/data" chain)
  /\ (forall f, f ∈ ["/data/a.txt"; "/data/sub/b.TXT"] ->
                f ∈ list_files (demo_world [] []) (SEARCHROOT (demo_world [] []) "/data"))
  /\ (exists news,
        csv_records (@inventory plain_lib (demo_world [] []) "/data" None).1
        = FIELDNAMES :: news
        /\ Forall2 (fun f record => @fresh_record plain_lib (demo_world [] []) f = Ok record)
                   (list_files (demo_world [] []) (SEARCHROOT (demo_world [] []) "/data"))
                   news).
Proof.
  destruct (@list_files_prunes_hidden plain_lib (demo_world [] []))
    as (Hlist & Hrun & Hrows).
  split_and!.
  - apply Hlist. vm_compute. right. left.
  - apply (Hrun "/data" None
             (EPrint <$> banner (demo_world [] []) "/data" "Writing inventory to stdout")
             ["/data/a.txt"; "/data/sub/b.TXT"] []
             ["/data/a.txt"; "/data/sub/b.TXT"] Stdout).
    vm_compute; reflexivity.
  - apply (Hrows "/data" None).
    + left. reflexivity.
    + vm_compute; reflexivity.
Defined.

(** C3 as the specification states it fails: /data/.cache is hidden, a run
    over /data/.cache lists and records its file x, and a later run over
    /data with the same destination, which does not list x, writes the row
    of x into the inventory of /data. *)
Lemma hidden_row_counterexample :
  hidden ".cache" = true
  /\ @inventory plain_lib (nested_world []) "/data/.cache" (Some "out.csv")
     = (cache_run, Ok ())
  /\ ("/data/.cache/x" ∉ list_files after_cache_world (SEARCHROOT after_cache_world "/data"))
  /\ (@inventory plain_lib after_cache_world "/data" (Some "out.csv")).2 = Ok ()
  /\ (["/data/.cache"; "x"; EmptyString; "10"; "100"; "T100"; "md5-0"]
      ∈ csv_records (@inventory plain_lib after_cache_world "/data" (Some "out.csv")).1).
Proof.
  vm_compute. split_and!.
  - reflexivity.
  - reflexivity.
  - intros Hin. repeat (apply elem_of_cons in Hin as [Hin|Hin]; [discriminate |]).
    by apply elem_of_nil in Hin.
  - reflexivity.
  - right. by left.
Qed.

(** Hidden entries of the small tree, at both levels, are not listed. *)
Example hidden_not_listed :
  Forall (fun p => p ∉ list_files (demo_world [] []) "/data")
         ["/data/.hidden"; "/data/sub/.git/config"; "/data/.cache/x"].
Proof.
  vm_compute. repeat constructor; intros Hin;
    repeat (apply elem_of_cons in Hin as [Hin|Hin]; [discriminate |]);
    by apply elem_of_nil in Hin.
Qed.

(** A value [None] among strings cannot be sorted. *)
Example sorted_None :
  sorted (list_to_set [None; Some "a"]) = Raise "TypeError"
  /\ sorted (list_to_set [Some "b"; Some "a"]) = Ok [Some "a"; Some "b"].
Proof. split; vm_compute; reflexivity. Qed.

Example inventory_demo_files :
  list_files (demo_world [] []) "/data" = ["/data/a.txt"; "/data/sub/b.TXT"].
Proof. reflexivity. Qed.

(** C9 at a file that records /data/a.txt twice. *)
Lemma read_inventory_last_row_wins_witness :
  exists d,
    @read_inventory plain_lib repeated_world "/home/u/inv.csv" = ([], Ok d)
    /\ dict_keys d = ["/data/a.txt"; "/data/b.txt"]
    /\ NoDup (dict_keys d)
    /\ (dict_get "MD5" ∘ ccols) <$> dict_get "/data/a.txt" d = Some (Some (Some "new")).
Proof.
  eexists. split; [vm_compute; reflexivity |].
  split; [reflexivity |]. split; [| reflexivity].
  eapply (@read_inventory_last_row_wins plain_lib repeated_world "/home/u/inv.csv");
    vm_compute; reflexivity.
Defined.

(** C2: two inputs of no known format. *)
Lemma compare_nothing_parsed_TypeError_witness :
  (@compare plain_lib compare_world "junk" ["junk"]).2 = Raise "TypeError".
Proof.
  erewrite (@compare_nothing_parsed_TypeError plain_lib compare_world "junk" ["junk"]);
    [reflexivity | vm_compute; reflexivity].
Defined.

(** C2 as the specification states it fails: no input is parsed, and the
    exception is a [TypeError], not an [EmptyIntersectionError]. *)
Lemma compare_nothing_parsed_counterexample :
  (@parse_all plain_lib compare_world ["junk"; "junk"]).2 = Ok []
  /\ (@compare plain_lib compare_world "junk" ["junk"]).2
     <> Raise "EmptyIntersectionError".
Proof. split; [vm_compute; reflexivity | vm_compute; discriminate]. Qed.



(** The example of the specification: common = {y, z}, x is unique to the
    first input and w to the second. *)
Example compare_example :
  String.concat EmptyString
    (@stdout plain_lib (@compare plain_lib compare_world "f1.csv" ["f2.csv"]).1)
  = unlines [EmptyString;
             "preserve.py file checker";
             "========================";
             "Parsing DPI inventory file => comma delimited...";
             " > f1.csv : 3 files";
             "Parsing DPI inventory file => comma delimited...";
             " > f2.csv : 3 files";
             "2 values are common to all the supplied files.";
             " " +:+ bullet +:+ " File 1: 1 values are unique to f1.csv";
             String TAB "(1) x";
             " " +:+ bullet +:+ " File 2: 1 values are unique to f2.csv";
             String TAB "(1) w"].
Proof. vm_compute. reflexivity. Qed.

(** C10 at an inventory that has only its header. *)
Lemma empty_extraction_not_parsed_witness :
  @parse_file plain_lib compare_world [] "header.csv"
  = ([EPrint "Parsing DPI inventory file => ";
      line "comma delimited...";
      line " > File header.csv has not been parsed."],
     Ok [])
  /\ (@parse_all plain_lib compare_world ["f1.csv"; "header.csv"; "f2.csv"]).2
     = (@parse_all plain_lib compare_world ["f1.csv"; "f2.csv"]).2.
Proof.
  destruct (@empty_extraction_not_parsed plain_lib compare_world [] "header.csv"
              (unlines ["Filename,Size"])
              [EPrint "Parsing DPI inventory file => "; line "comma delimited..."])
    as [Hstep Hall].
  - reflexivity.
  - vm_compute; reflexivity.
  - split; [exact Hstep | exact (Hall ["f1.csv"] ["f2.csv"])].
Defined.

(** C4 at a root that does not exist. *)
Lemma missing_root_lists_nothing_witness :
  list_files (demo_world [] []) "/nope" = []
  /\ exit_code (@inventory plain_lib (demo_world [] []) "/nope" None).2 = 0.
Proof.
  destruct (@missing_root_lists_nothing plain_lib (demo_world [] []) "/nope")
    as (Hfiles & _ & Hexit).
  - left. reflexivity.
  - split; [exact Hfiles | exact Hexit].
Defined.

(** C4 as the specification states it fails: the root /nope does not exist,
    yet no [NotFoundError] is raised and the exit status is 0. *)
Lemma missing_root_counterexample :
  scandir (demo_world [] []) (SEARCHROOT (demo_world [] []) "/nope") = None
  /\ (@inventory plain_lib (demo_world [] []) "/nope" None).2 = Ok ()
  /\ (@inventory plain_lib (demo_world [] []) "/nope" None).2 <> Raise "NotFoundError"
  /\ exit_code (@inventory plain_lib (demo_world [] []) "/nope" None).2 = 0.
Proof. vm_compute. split_and!; [reflexivity | reflexivity | discriminate | reflexivity]. Qed.

(** C6 at a tree whose first file vanished after the scan. *)
Lemma inventory_aborts_at_failing_file_witness :
  exists t,
    @inventory plain_lib gone_world "/data" None = (t, Raise "FileNotFoundError")
    /\ csv_records t = FIELDNAMES :: [] ++ []
    /\ (md5_calls t = [] \/ md5_calls t = [] ++ ["/data/a.txt"]).
Proof.
  eapply (@inventory_aborts_at_failing_file plain_lib gone_world "/data" None
            _ _ [] [] ["/data/sub/b.TXT"] "/data/a.txt" Stdout [] []).
  - vm_compute; reflexivity.
  - constructor.
  - constructor.
  - vm_compute; reflexivity.
Defined.

(** C6 as the specification states it fails: /data/a.txt vanished, the run
    ends with the exception instead of going on, and /data/sub/b.TXT, listed
    after it, is neither examined nor written. *)
Lemma vanished_file_counterexample :
  list_files gone_world "/data" = ["/data/a.txt"; "/data/sub/b.TXT"]
  /\ (@inventory plain_lib gone_world "/data" None).2 = Raise "FileNotFoundError"
  /\ md5_calls (@inventory plain_lib gone_world "/data" None).1 = []
  /\ csv_records (@inventory plain_lib gone_world "/data" None).1 = [FIELDNAMES].
Proof. vm_compute. split_and!; reflexivity. Qed.

(** C8 at the small tree, written to standard output. *)
Lemma inventory_rows_and_progress_witness :
  exists t,
    @inventory plain_lib (demo_world [] []) "/data" None = (t, Ok ())
    /\ @outfile plain_lib t = None
    /\ csv_records t = FIELDNAMES :: demo_records
    /\ md5_calls t = list_files (demo_world [] []) (SEARCHROOT (demo_world [] []) "/data")
    /\ @stdout plain_lib t
       = banner (demo_world [] []) "/data" "Writing inventory to stdout"
         ++ @csv_writerow plain_lib FIELDNAMES
         :: @interleaved plain_lib
              (total_of (list_files (demo_world [] [])
                           (SEARCHROOT (demo_world [] []) "/data"))) 0 demo_records
         ++ closing.
Proof.
  apply (proj2 (@inventory_rows_and_progress plain_lib (demo_world [] []) "/data")).
  repeat constructor.
Defined.

(** C8 as the specification states it fails: written to standard output,
    the rows share the stream with the messages and each is followed by a
    counter text, so the stream is not the header and the data rows. *)
Lemma stdout_interleaved_counterexample :
  let t := (@inventory plain_lib (demo_world [] []) "/data" None).1 in
  @stdout plain_lib t
  = banner (demo_world [] []) "/data" "Writing inventory to stdout"
    ++ [plain_writerow FIELDNAMES;
        plain_writerow ["/data"; "a.txt"; "TXT"; "10"; "100"; "T100"; "md5-0"];
        progress 1 2;
        plain_writerow ["/data/sub"; "b.TXT"; "TXT"; "10"; "100"; "T100"; "md5-0"];
        progress 2 2]
    ++ closing
  /\ @stdout plain_lib t <> plain_writerow <$> csv_records t.
Proof. vm_compute. split; [reflexivity | discriminate]. Qed.

(** C1 at an inventory that records a deleted file. *)
Lemma inventory_resume_copies_every_entry_witness :
  exists t,
    @inventory plain_lib stale_world "/data" (Some "out.csv") = (t, Ok ())
    /\ csv_records t
       = FIELDNAMES
         :: [["/data"; "gone.txt"; "TXT"; "5"; "50"; "T50"; "md5-5"];
             ["/data"; "a.txt"; "TXT"; "10"; "100"; "T100"; "md5-0"]]
         ++ [["/data/sub"; "b.TXT"; "TXT"; "10"; "100"; "T100"; "md5-0"]].
Proof.
  destruct (@inventory_resume_copies_every_entry plain_lib stale_world "/data" "out.csv"
              stale_inventory stale_loaded
              [["/data"; "gone.txt"; "TXT"; "5"; "50"; "T50"; "md5-5"];
               ["/data"; "a.txt"; "TXT"; "10"; "100"; "T100"; "md5-0"]]
              [["/data/sub"; "b.TXT"; "TXT"; "10"; "100"; "T100"; "md5-0"]])
    as (t & Hrun & Hrec & _).
  - reflexivity.
  - vm_compute; reflexivity.
  - reflexivity.
  - repeat constructor.
  - vm_compute. repeat constructor.
  - exists t. split; [exact Hrun | exact Hrec].
Defined.

(** C1 as the specification states it fails: /data/gone.txt is recorded in
    the existing inventory and absent from the scan, and its row is in the
    rewritten output. *)
Lemma stale_entry_counterexample :
  "/data/gone.txt" ∈ dict_keys stale_loaded
  /\ ("/data/gone.txt" ∉ list_files stale_world (SEARCHROOT stale_world "/data"))
  /\ (@inventory plain_lib stale_world "/data" (Some "out.csv")).2 = Ok ()
  /\ (["/data"; "gone.txt"; "TXT"; "5"; "50"; "T50"; "md5-5"]
      ∈ csv_records (@inventory plain_lib stale_world "/data" (Some "out.csv")).1).
Proof.
  vm_compute. split_and!.
  - by left.
  - intros Hin. repeat (apply elem_of_cons in Hin as [Hin|Hin]; [discriminate |]).
    by apply elem_of_nil in Hin.
  - reflexivity.
  - right. by left.
Qed.



Lemma tivoli_values_are_sent_paths_witness :
  exists line g pre post,
    Some "a.txt" = Some g /\ line ∈ tivoli_report
    /\ Str.contains "Normal File-->" line = true
    /\ line = pre +:+ g +:+ " [Sent]" +:+ post
    /\ g <> EmptyString /\ Str.has_char backslash g = false.
Proof.
  apply (tivoli_values_are_sent_paths tivoli_report (Some "a.txt")).
  vm_compute. left.
Defined.

Lemma tivoli_sent_line_is_extracted_witness :
  exists g', Some g' ∈ parse_tivoli tivoli_report.
Proof.
  apply (tivoli_sent_line_is_extracted tivoli_report
           "Normal File-->  1,024 \\srv\share\a.txt [Sent]"
           ("Normal File-->  1,024 \\srv\share" +:+ String backslash EmptyString)
           "a.txt" EmptyString).
  - right. left.
  - reflexivity.
  - reflexivity.
  - discriminate.
  - reflexivity.
Defined.

Lemma sent_search_takes_last_component_witness :
  sent_search "Normal File-->  12 /home/u/a.txt [Sent]"
  = Some "Normal File-->  12 /home/u/a.txt"
  /\ sent_search "Normal File-->  1,024 \\srv\share\a.txt [Sent]" = Some "a.txt".
Proof.
  split.
  - apply (sent_search_takes_last_component "Normal File-->  12 /home/u/a.txt" EmptyString);
      [discriminate | reflexivity | reflexivity].
  - apply (proj2 (sent_search_takes_last_component "a.txt" EmptyString
                    ltac:(discriminate) eq_refl eq_refl)
                 "Normal File-->  1,024 \\srv\share").
    reflexivity.
Defined.

Lemma compare_column_missing_KeyError_witness :
  exists t, @parse_file plain_lib keyword_world [] "kw.csv" = (t, Raise "KeyError").
Proof.
  destruct (@compare_column_missing_KeyError plain_lib keyword_world [] "kw.csv"
              (unlines ["Keywords,Filename"; "k1,a.txt"]) "Keywords,Filename"
              ["k1,a.txt"] ["Keywords"; "Filename"] [["k1"; "a.txt"]] ["k1"; "a.txt"])
    as (t & Hrun & _).
  - reflexivity.
  - vm_compute; reflexivity.
  - discriminate.
  - reflexivity.
  - vm_compute; reflexivity.
  - apply (bool_decide_unpack _). vm_compute. exact I.
  - left.
  - discriminate.
  - exists t. exact Hrun.
Defined.

Lemma compare_aborts_at_unreadable_input_witness :
  @compare plain_lib compare_world "f1.csv" ["nope"; "f2.csv"]
  = (header_events ++ (@parse_all plain_lib compare_world ["f1.csv"]).1,
     Raise "FileNotFoundError").
Proof.
  apply (@compare_aborts_at_unreadable_input plain_lib compare_world "f1.csv"
           ["nope"; "f2.csv"] ["f1.csv"] ["f2.csv"] "nope"
           (@parse_all plain_lib compare_world ["f1.csv"]).1
           [("f1.csv", [Some "x"; Some "y"; Some "z"])]).
  - reflexivity.
  - vm_compute; reflexivity.
  - left. reflexivity.
Defined.

Lemma parse_all_one_entry_per_input_witness :
  dict_keys [("f1.csv", [Some "x"; Some "y"; Some "z"]);
             ("f2.csv", [Some "y"; Some "z"; Some "w"])]
  = first_occurrences []
      (filter (fun f => @is_parsed plain_lib compare_world f)
              ["f1.csv"; "junk"; "f1.csv"; "f2.csv"; "f1.csv"])
  /\ Forall (fun fv : string * list entry =>
               @extracted plain_lib compare_world fv.1 = Ok fv.2 /\ fv.2 <> [])
            [("f1.csv", [Some "x"; Some "y"; Some "z"]);
             ("f2.csv", [Some "y"; Some "z"; Some "w"])]
  /\ NoDup (dict_keys [("f1.csv", [Some "x"; Some "y"; Some "z"]);
                       ("f2.csv", [Some "y"; Some "z"; Some "w"])])
  /\ dict_keys [("f1.csv", [Some "x"; Some "y"; Some "z"]);
                ("f2.csv", [Some "y"; Some "z"; Some "w"])]
     `sublist_of` ["f1.csv"; "junk"; "f1.csv"; "f2.csv"; "f1.csv"].
Proof.
  apply (@parse_all_one_entry_per_input plain_lib compare_world
           ["f1.csv"; "junk"; "f1.csv"; "f2.csv"; "f1.csv"]
           (@parse_all plain_lib compare_world
              ["f1.csv"; "junk"; "f1.csv"; "f2.csv"; "f1.csv"]).1).
  vm_compute; reflexivity.
Defined.

Lemma compare_counts_add_up_witness :
  exists common : gset entry,
    (@compare plain_lib compare_world "f1.csv" ["f2.csv"]).2 = Ok ()
    /\ Forall (fun fv : string * list entry =>
                 (size common
                  + length (sorted_strings (list_to_set fv.2 ∖ common))
                  = size (list_to_set fv.2 : gset entry))%nat)
              [("f1.csv", [Some "x"; Some "y"; Some "z"]);
               ("f2.csv", [Some "y"; Some "z"; Some "w"])].
Proof.
  destruct (@compare_counts_add_up plain_lib compare_world "f1.csv" ["f2.csv"]
              (@parse_all plain_lib compare_world ["f1.csv"; "f2.csv"]).1
              [("f1.csv", [Some "x"; Some "y"; Some "z"]);
               ("f2.csv", [Some "y"; Some "z"; Some "w"])])
    as (common & Hrun & Hcounts).
  - vm_compute; reflexivity.
  - discriminate.
  - repeat (constructor; [repeat (constructor; [by eexists |]); constructor |]).
    constructor.
  - exists common. split; [rewrite Hrun; reflexivity | exact Hcounts].
Defined.

Lemma compare_single_input_all_common_witness :
  @compare plain_lib compare_world "f1.csv" ["junk"]
  = (header_events ++ (@parse_all plain_lib compare_world ["f1.csv"; "junk"]).1
     ++ [line (common_message
                 (size (list_to_set [Some "x"; Some "y"; Some "z"] : gset entry)));
         line (unique_message 0 0 "f1.csv")],
     Ok ()).
Proof.
  apply (@compare_single_input_all_common plain_lib compare_world "f1.csv" ["junk"]).
  vm_compute; reflexivity.
Defined.

Lemma read_inventory_keeps_first_positions_witness :
  exists keys,
    Forall2 (fun row k => row_filepath row = Ok k)
            (@inventory_rows plain_lib repeated_inventory) keys
    /\ dict_keys repeated_loaded = first_occurrences [] keys.
Proof.
  apply (@read_inventory_keeps_first_positions plain_lib repeated_world
           "/home/u/inv.csv" repeated_inventory []).
  - reflexivity.
  - vm_compute; reflexivity.
Defined.

Lemma read_inventory_missing_column_KeyError_witness :
  @read_inventory plain_lib compare_world "f1.csv" = ([], Raise "KeyError").
Proof.
  apply (@read_inventory_missing_column_KeyError plain_lib compare_world "f1.csv"
           (unlines ["Filename,Size"; "x,1"; "y,2"; "z,3"])
           ["Filename"; "Size"] [["x"; "1"]; ["y"; "2"]; ["z"; "3"]] ["x"; "1"]).
  - reflexivity.
  - vm_compute; reflexivity.
  - left. apply (bool_decide_unpack _). vm_compute. exact I.
  - left.
  - discriminate.
Defined.

Lemma inventory_failure_keeps_destination_witness :
  (@inventory plain_lib foreign_world "/data" (Some "out.csv")).2 = Raise "KeyError"
  /\ @outfile plain_lib (@inventory plain_lib foreign_world "/data" (Some "out.csv")).1
     = None.
Proof.
  destruct (@inventory_failure_keeps_destination plain_lib foreign_world "/data"
              "out.csv" "KeyError") as (Hrun & Hout & _).
  - right. left. exists (unlines ["Filename,Size"; "x,1"]).
    split; [reflexivity | vm_compute; reflexivity].
  - split; [rewrite Hrun; reflexivity | exact Hout].
Defined.

Lemma inventory_unfit_row_truncates_witness :
  exists t,
    @inventory plain_lib surplus_world "/data" (Some "out.csv")
    = (t, Raise "ValueError")
    /\ @outfile plain_lib t
       = Some (@csv_writerow plain_lib
                 <$> FIELDNAMES
                     :: [["/data"; "a.txt"; "TXT"; "10"; "100"; "T100"; "md5-0"]])
    /\ md5_calls t = [].
Proof.
  apply (@inventory_unfit_row_truncates plain_lib surplus_world "/data" "out.csv"
           surplus_inventory [("/data/a.txt", fit_row)] []
           ("/data/sub/b.TXT", surplus_row)
           [["/data"; "a.txt"; "TXT"; "10"; "100"; "T100"; "md5-0"]]).
  - reflexivity.
  - vm_compute; reflexivity.
  - reflexivity.
  - repeat constructor.
  - left. discriminate.
Defined.

Lemma inventory_first_run_witness :
  exists t,
    @inventory plain_lib (demo_world [] []) "/data" (Some "out.csv") = (t, Ok ())
    /\ @outfile plain_lib t = Some (@csv_writerow plain_lib <$> FIELDNAMES :: demo_records)
    /\ md5_calls t = list_files (demo_world [] []) (SEARCHROOT (demo_world [] []) "/data")
    /\ @stdout plain_lib t
       = banner (demo_world [] []) "/data"
           ("Writing inventory to file "
            +:+ posixpath.abspath (getcwd (demo_world [] [])) "out.csv")
         ++ progress_texts
              (total_of (list_files (demo_world [] [])
                           (SEARCHROOT (demo_world [] []) "/data")))
              0 (length demo_records)
         ++ closing.
Proof.
  apply (@inventory_first_run plain_lib (demo_world [] []) "/data" "out.csv" demo_records).
  - reflexivity.
  - reflexivity.
  - repeat constructor.
Defined.

Lemma fresh_row_reads_back_witness :
  exists rows,
    @read_inventory plain_lib second_world "/home/u/out.csv"
    = ([], Ok (zip ["/data/a.txt"; "/data/sub/b.TXT"] rows))
    /\ dict_keys (zip ["/data/a.txt"; "/data/sub/b.TXT"] rows)
       = ["/data/a.txt"; "/data/sub/b.TXT"]
    /\ Forall2 (fun row record => copied_record row = Ok record) rows demo_records.
Proof.
  apply (@fresh_row_reads_back plain_lib (demo_world [] []) second_world "/data"
           "/home/u/out.csv" ["/data/a.txt"; "/data/sub/b.TXT"] demo_records).
  - reflexivity.
  - vm_compute; reflexivity.
  - apply (bool_decide_unpack _). vm_compute. exact I.
  - intros f Hf. vm_compute.
    apply elem_of_cons in Hf as [->|Hf]; [left |].
    apply elem_of_cons in Hf as [->|Hf]; [right; left |].
    by apply elem_of_nil in Hf.
  - repeat constructor.
  - vm_compute; reflexivity.
  - vm_compute; reflexivity.
Defined.

Lemma scan_lists_no_path_twice_witness :
  NoDup (list_files (demo_world [] []) (SEARCHROOT (demo_world [] []) "/data")).
Proof.
  apply (scan_lists_no_path_twice (demo_world [] []) "/data").
  - reflexivity.
  - vm_compute; reflexivity.
Defined.

Lemma bytecount_reports_totals_witness :
  @bytecount plain_lib sized_world "/data"
  = (bytecount_header ++ bytecount_report 30 2 [("TXT", 2)], Ok ())
  /\ sum_of [("TXT", 2)].*2 = 2.
Proof.
  apply (@bytecount_reports_totals plain_lib sized_world "/data" [10; 20]).
  repeat constructor.
Defined.

(** The example of the specification. *)
Example bytecount_example :
  String.concat EmptyString
    (@stdout plain_lib (@bytecount plain_lib sized_world "/data").1)
  = unlines [EmptyString;
             "preserve.py bytecount";
             "=====================";
             "30 bytes for 2 files.";
             "(TXT:2)";
             EmptyString].
Proof. vm_compute. reflexivity. Qed.

Lemma bytecount_counts_by_extension_witness :
  dict_keys [("TXT", 2)]
  = first_occurrences []
      (@extension_of plain_lib <$> ["/data/a.txt"; "/data/sub/b.TXT"])
  /\ forall ext,
       dict_get ext [("TXT", 2)]
       = let c := length (filter (fun f => @extension_of plain_lib f = ext)
                                 ["/data/a.txt"; "/data/sub/b.TXT"]) in
         if decide (c = 0%nat) then None else Some (Z.of_nat c).
Proof.
  apply (@bytecount_counts_by_extension plain_lib sized_world
           ["/data/a.txt"; "/data/sub/b.TXT"] [] 30 [("TXT", 2)]).
  vm_compute; reflexivity.
Defined.

Lemma bytecount_aborts_at_unreadable_size_witness :
  @bytecount plain_lib gone_world "/data"
  = (bytecount_header, Raise "FileNotFoundError").
Proof.
  apply (@bytecount_aborts_at_unreadable_size plain_lib gone_world "/data"
           [] ["/data/sub/b.TXT"] "/data/a.txt" []).
  - reflexivity.
  - constructor.
  - reflexivity.
Defined.

Lemma bytecount_missing_root_witness :
  (@bytecount plain_lib (demo_world [] []) "/nope").2 = Ok ()
  /\ exit_code (@bytecount plain_lib (demo_world [] []) "/nope").2 = 0.
Proof.
  destruct (@bytecount_missing_root plain_lib (demo_world [] []) "/nope")
    as [Hrun Hexit].
  - left. reflexivity.
  - split; [rewrite Hrun; reflexivity | exact Hexit].
Defined.

Lemma verify_missing_paths_not_fatal_witness :
  @verify plain_lib (fun _ => "{}") no_kinds (demo_world [] []) "/nope" "/none"
  = ([line "/nope could not be found!"; line "/none could not be found!"; line "{}"],
     Ok ())
  /\ exit_code
       (@verify plain_lib (fun _ => "{}") no_kinds (demo_world [] []) "/nope" "/none").2
     = 0.
Proof.
  apply (@verify_missing_paths_not_fatal plain_lib (fun _ => "{}") no_kinds
           (demo_world [] []) "/nope" "/none"); reflexivity.
Defined.

Lemma inventory_opened_file_starts_with_header_witness :
  @outfile plain_lib (@inventory plain_lib (demo_world [] []) "/data" None).1 = None
  /\ exists rows,
       [plain_writerow FIELDNAMES;
        plain_writerow ["/data"; "a.txt"; "TXT"; "10"; "100"; "T100"; "md5-0"]]
       = @csv_writerow plain_lib FIELDNAMES :: rows.
Proof.
  split.
  - apply (proj1 (@inventory_opened_file_starts_with_header plain_lib
                    (demo_world [] []) "/data" None)).
    reflexivity.
  - apply (proj2 (@inventory_opened_file_starts_with_header plain_lib
                    surplus_world "/data" (Some "out.csv"))).
    vm_compute; reflexivity.
Defined.

Lemma verify_only_prints_witness :
  exists p,
    p ∈ ["/data"; "f1.csv"] /\ isfile demo_kinds p = true
    /\ (@read_inventory plain_lib compare_world p).2 = Raise "KeyError".
Proof.
  apply (proj2 (proj2 (proj2 (proj2
           (@verify_only_prints plain_lib (fun _ => "{}") demo_kinds compare_world
              "/data" "f1.csv"))))).
  vm_compute; reflexivity.
Defined.
